(** * sbomnix: the SBOM database (src/sbomnix/sbomdb.py)

    A shallow embedding of [sbomdb.py] and of the library calls it makes.

    - Python values are the type [pyval]; a [dict] is an association list
      in insertion order, a [str] is a [string] (its UTF-8 bytes), a number
      is an integer or the float [NaN] that pandas uses for a missing cell
      (other floats do not occur in the tables of this module).
    - A raised exception is the [Raise] branch of [result]; statements are
      sequenced with [x <- e ;; k], which stops at the first exception.  A
      step that also writes files is an [io]: the files written, then the
      value or the exception, sequenced with [x <~ e ;; k].
    - A pandas [DataFrame] is a list of column labels and a list of rows,
      each row being the named tuple that [itertuples] yields.  A column has
      the dtype that pandas infers from its cells.  [merge] checks its key
      labels, the dtypes of the key columns, that the keys can be hashed and
      that the suffix creates no duplicate label, in this order, and raises
      accordingly; keys are compared as Python compares them ([True == 1]),
      missing keys ([None], [NaN]) forming one group.
    - [PackageURL] follows packageurl-python: a required name, an optional
      version, both stripped of the white space that [str.strip] removes and
      percent-encoded when printed.
    - A file is the sequence of its bytes; reading it as UTF-8 text fails on
      bytes that are not well-formed UTF-8.  [json.loads] is a parameter of
      the loader; the JSON text written by [to_cdx] is represented by the
      document it serialises; logging is left out, except for the level that
      triggers the diagnostic dump. *)

From Stdlib Require Import List String Ascii ZArith Bool Arith Lia.
Import ListNotations.
Open Scope string_scope.
Open Scope list_scope.

Infix "+:+" := String.append (at level 60, right associativity).

(** ** Python values, exceptions and the built-ins the module uses *)

Module Py.

#[local] Unset Elimination Schemes.

Inductive pyval : Type :=
| PNone
| PBool (b : bool)
| PInt (z : Z)
| PNaN
| PStr (s : string)
| PList (l : list pyval)
| PDict (d : list (string * pyval)).

#[local] Set Elimination Schemes.

Inductive exn : Type :=
| OSError
| UnicodeDecodeError
| JSONDecodeError
| AttributeError
| TypeError
| KeyError
| ValueError
| MergeError.

Inductive result (A : Type) : Type :=
| Ok (a : A)
| Raise (e : exn).

Arguments Ok {A} a.
Arguments Raise {A} e.

Definition bind {A B : Type} (r : result A) (k : A -> result B) : result B :=
  match r with
  | Ok a => k a
  | Raise e => Raise e
  end.

Fixpoint mapM {A B : Type} (f : A -> result B) (l : list A) : result (list B) :=
  match l with
  | [] => Ok []
  | x :: t =>
      bind (f x) (fun y => bind (mapM f t) (fun ys => Ok (y :: ys)))
  end.

Fixpoint foldM {A S : Type} (f : S -> A -> result S) (s : S) (l : list A)
  : result S :=
  match l with
  | [] => Ok s
  | x :: t => bind (f s x) (fun s' => foldM f s' t)
  end.

(** [bool(v)] *)
Definition truthy (v : pyval) : bool :=
  match v with
  | PNone => false
  | PBool b => b
  | PInt z => negb (z =? 0)%Z
  | PNaN => true
  | PStr s => negb (s =? "")
  | PList l => match l with [] => false | _ :: _ => true end
  | PDict d => match d with [] => false | _ :: _ => true end
  end.

(** [pandas.isna(v)] on a scalar cell *)
Definition isna (v : pyval) : bool :=
  match v with
  | PNone | PNaN => true
  | _ => false
  end.

Fixpoint pyval_eqb (a b : pyval) : bool :=
  match a, b with
  | PNone, PNone => true
  | PBool x, PBool y => Bool.eqb x y
  | PInt x, PInt y => (x =? y)%Z
  | PNaN, PNaN => true
  | PStr x, PStr y => (x =? y)%string
  | PList x, PList y =>
      (fix all2 (l1 l2 : list pyval) : bool :=
         match l1, l2 with
         | [], [] => true
         | u :: t1, v :: t2 => pyval_eqb u v && all2 t1 t2
         | _, _ => false
         end) x y
  | PDict x, PDict y =>
      (fix all2 (l1 l2 : list (string * pyval)) : bool :=
         match l1, l2 with
         | [], [] => true
         | (k1, u) :: t1, (k2, v) :: t2 =>
             (k1 =? k2)%string && pyval_eqb u v && all2 t1 t2
         | _, _ => false
         end) x y
  | _, _ => false
  end.

(** [v == s] for a [str] s: only an equal [str] compares equal. *)
Definition eq_str (v : pyval) (s : string) : bool :=
  match v with
  | PStr x => (x =? s)%string
  | _ => false
  end.

(** *** dict *)

Fixpoint lookup {V : Type} (k : string) (d : list (string * V)) : option V :=
  match d with
  | [] => None
  | (k', v) :: t => if (k' =? k)%string then Some v else lookup k t
  end.

Definition contains {V : Type} (k : string) (d : list (string * V)) : bool :=
  match lookup k d with Some _ => true | None => false end.

(** [d[k] = v]: an existing key keeps its position. *)
Fixpoint setitem {V : Type} (k : string) (v : V) (d : list (string * V))
  : list (string * V) :=
  match d with
  | [] => [(k, v)]
  | (k', v') :: t =>
      if (k' =? k)%string then (k, v) :: t else (k', v') :: setitem k v t
  end.

(** [x.get(k, default)]; only a dict has the method. *)
Definition get (x : pyval) (k : string) (default : pyval) : result pyval :=
  match x with
  | PDict d =>
      Ok (match lookup k d with Some v => v | None => default end)
  | _ => Raise AttributeError
  end.

(** [x.items()] *)
Definition items (x : pyval) : result (list (string * pyval)) :=
  match x with
  | PDict d => Ok d
  | _ => Raise AttributeError
  end.

(** *** str *)

(** [s.split(sep)] for a one-character separator. *)
Fixpoint split (sep : ascii) (s : string) : list string :=
  match s with
  | EmptyString => [""]
  | String c t =>
      if Ascii.eqb c sep then "" :: split sep t
      else match split sep t with
           | h :: r => String c h :: r
           | [] => [String c ""]
           end
  end.

(** [sep.join(l)]: every element must be a [str]. *)
Fixpoint strs (l : list pyval) : result (list string) :=
  match l with
  | [] => Ok []
  | PStr s :: t => bind (strs t) (fun ss => Ok (s :: ss))
  | _ :: _ => Raise TypeError
  end.

Definition join (sep : string) (l : list pyval) : result string :=
  bind (strs l) (fun ss => Ok (String.concat sep ss)).

(** White space as [str.strip()] sees it, on the UTF-8 bytes of a text: the
    ASCII characters 9-13 and 28-32, the two-byte characters U+0085 and
    U+00A0, and the three-byte characters U+1680, U+2000-U+200A, U+2028,
    U+2029, U+202F, U+205F and U+3000. *)
Definition isspace (c : ascii) : bool :=
  let n := nat_of_ascii c in
  ((9 <=? n)%nat && (n <=? 13)%nat) || ((28 <=? n)%nat && (n <=? 32)%nat).

Definition isspace2 (a b : ascii) : bool :=
  let x := nat_of_ascii a in
  let y := nat_of_ascii b in
  (x =? 194)%nat && ((y =? 133)%nat || (y =? 160)%nat).

Definition isspace3 (a b c : ascii) : bool :=
  let x := nat_of_ascii a in
  let y := nat_of_ascii b in
  let z := nat_of_ascii c in
  ((x =? 225)%nat && (y =? 154)%nat && (z =? 128)%nat) ||
  ((x =? 226)%nat && (y =? 128)%nat &&
   (((128 <=? z)%nat && (z <=? 138)%nat) ||
    (z =? 168)%nat || (z =? 169)%nat || (z =? 175)%nat)) ||
  ((x =? 226)%nat && (y =? 129)%nat && (z =? 159)%nat) ||
  ((x =? 227)%nat && (y =? 128)%nat && (z =? 128)%nat).

(** The text is one white-space character. *)
Definition is_space_char (s : string) : bool :=
  match s with
  | String a EmptyString => isspace a
  | String a (String b EmptyString) => isspace2 a b
  | String a (String b (String c EmptyString)) => isspace3 a b c
  | _ => false
  end.

Fixpoint lstrip_space (s : string) : string :=
  match s with
  | EmptyString => ""
  | String a t =>
      if isspace a then lstrip_space t
      else
        match t with
        | String b t2 =>
            if isspace2 a b then lstrip_space t2
            else
              match t2 with
              | String c t3 => if isspace3 a b c then lstrip_space t3 else s
              | EmptyString => s
              end
        | EmptyString => s
        end
  end.

Fixpoint rstrip_space (s : string) : string :=
  match s with
  | EmptyString => ""
  | String a t =>
      let kept := String a (rstrip_space t) in
      if is_space_char kept then "" else kept
  end.

Fixpoint lstrip (p : ascii -> bool) (s : string) : string :=
  match s with
  | EmptyString => ""
  | String c t => if p c then lstrip p t else s
  end.

Fixpoint rstrip (p : ascii -> bool) (s : string) : string :=
  match s with
  | EmptyString => ""
  | String c t =>
      match rstrip p t with
      | EmptyString => if p c then "" else String c ""
      | t' => String c t'
      end
  end.

Definition strip_by (p : ascii -> bool) (s : string) : string :=
  rstrip p (lstrip p s).

(** [s.strip()] and [s.strip("/")] *)
Definition strip (s : string) : string := rstrip_space (lstrip_space s).
Definition strip_slash (s : string) : string :=
  strip_by (fun c => Ascii.eqb c "/"%char) s.

(** Well-formed UTF-8, as the strict decoder accepts it: no overlong form,
    no surrogate, nothing beyond U+10FFFF. *)
Definition in_range (lo hi : nat) (c : ascii) : bool :=
  let n := nat_of_ascii c in
  (lo <=? n)%nat && (n <=? hi)%nat.

Definition continuation (c : ascii) : bool := in_range 128 191 c.

Definition three_bytes (a b : ascii) : bool :=
  (in_range 224 224 a && in_range 160 191 b) ||
  (in_range 225 236 a && continuation b) ||
  (in_range 237 237 a && in_range 128 159 b) ||
  (in_range 238 239 a && continuation b).

Definition four_bytes (a b : ascii) : bool :=
  (in_range 240 240 a && in_range 144 191 b) ||
  (in_range 241 243 a && continuation b) ||
  (in_range 244 244 a && in_range 128 143 b).

Fixpoint utf8_valid (s : string) : bool :=
  match s with
  | EmptyString => true
  | String a t =>
      if in_range 0 127 a then utf8_valid t
      else
        match t with
        | String b t2 =>
            if in_range 194 223 a then continuation b && utf8_valid t2
            else
              match t2 with
              | String c t3 =>
                  if three_bytes a b then continuation c && utf8_valid t3
                  else
                    match t3 with
                    | String d t4 =>
                        four_bytes a b && continuation c && continuation d &&
                        utf8_valid t4
                    | EmptyString => false
                    end
              | EmptyString => false
              end
        | EmptyString => false
        end
  end.

(** Reading in text mode turns every line ending (CR LF, CR) into LF. *)
Fixpoint universal_newlines (s : string) : string :=
  match s with
  | EmptyString => ""
  | String a t =>
      if Ascii.eqb a "013"%char then
        match t with
        | String b t2 =>
            if Ascii.eqb b "010"%char
            then String "010"%char (universal_newlines t2)
            else String "010"%char (universal_newlines t)
        | EmptyString => String "010"%char ""
        end
      else String a (universal_newlines t)
  end.

(** [s.lower()] on ASCII letters *)
Definition lower_char (c : ascii) : ascii :=
  let n := nat_of_ascii c in
  if (65 <=? n)%nat && (n <=? 90)%nat then ascii_of_nat (n + 32) else c.

Fixpoint lower (s : string) : string :=
  match s with
  | EmptyString => ""
  | String c t => String (lower_char c) (lower t)
  end.

End Py.

Export Py.

Notation "x <- e ;; k" := (bind e (fun x => k))
  (at level 100, e at next level, right associativity).

(** ** pandas: the DataFrame operations the module calls *)

Module Pandas.

(** One row, as [itertuples] yields it: the cells by column label. *)
Definition row : Type := list (string * pyval).

Record DataFrame : Type := mkDataFrame {
  columns : list string;
  rows : list row
}.

Definition has_column (c : string) (df : DataFrame) : bool :=
  existsb (String.eqb c) (columns df).

(** The cell of a row under a label of its frame. *)
Definition cell (r : row) (c : string) : pyval :=
  match lookup c r with
  | Some v => v
  | None => PNaN
  end.

(** [pd.DataFrame(d)] for a dict of lists: the lists must agree in length. *)
Definition from_dict (d : list (string * list pyval)) : result DataFrame :=
  let n := match d with [] => 0 | (_, col) :: _ => List.length col end in
  if forallb (fun kc => (List.length (snd kc) =? n)%nat) d then
    Ok {| columns := map fst d;
          rows := map (fun i => map (fun kc => (fst kc, nth i (snd kc) PNone)) d)
                      (seq 0 n) |}
  else Raise ValueError.

(** [df[c]] as a list of cells. *)
Definition column (df : DataFrame) (c : string) : list pyval :=
  map (fun r => cell r c) (rows df).

(** Python's [a == b] on cells that can be hashed: numbers by value, a
    [bool] being the number 0 or 1; [NaN] differs from everything. *)
Definition as_number (v : pyval) : option Z :=
  match v with
  | PBool b => Some (if b then 1 else 0)%Z
  | PInt z => Some z
  | _ => None
  end.

Definition py_eq (a b : pyval) : bool :=
  match as_number a, as_number b with
  | Some x, Some y => (x =? y)%Z
  | None, None =>
      match a, b with
      | PNaN, _ | _, PNaN => false
      | _, _ => pyval_eqb a b
      end
  | _, _ => false
  end.

(** Key comparison of [merge] and [drop_duplicates]: Python equality, all
    missing keys in one group. *)
Definition key_eqb (a b : pyval) : bool :=
  (isna a && isna b) || py_eq a b.

(** A [list] or a [dict] cannot be hashed. *)
Definition hashable (v : pyval) : bool :=
  match v with
  | PList _ | PDict _ => false
  | _ => true
  end.

(** The dtype that pandas infers for a column from its cells, as far as
    [merge] tells dtypes apart: [object], [bool], or a number dtype
    ([int64], [uint64] or [float64]).  Integers with a missing value among
    them are floats; integers beyond 64 bits are objects. *)
Inductive dtype : Type :=
| DObject
| DBool
| DNumber.

Definition is_int (v : pyval) : bool :=
  match v with PInt _ => true | _ => false end.

Definition is_bool (v : pyval) : bool :=
  match v with PBool _ => true | _ => false end.

Definition is_nan (v : pyval) : bool :=
  match v with PNaN => true | _ => false end.

Definition is_object (v : pyval) : bool :=
  match v with PStr _ | PList _ | PDict _ => true | _ => false end.

Definition fits_int64 (v : pyval) : bool :=
  match v with
  | PInt z => (- 2 ^ 63 <=? z)%Z && (z <? 2 ^ 63)%Z
  | _ => true
  end.

Definition fits_uint64 (v : pyval) : bool :=
  match v with
  | PInt z => (0 <=? z)%Z && (z <? 2 ^ 64)%Z
  | _ => false
  end.

Definition column_dtype (cells : list pyval) : dtype :=
  if existsb is_object cells then DObject
  else if existsb is_bool cells then
    if forallb is_bool cells then DBool else DObject
  else if existsb is_int cells then
    if forallb fits_int64 cells || forallb fits_uint64 cells
    then DNumber else DObject
  else if existsb is_nan cells then DNumber
  else DObject.

(** The check of the key dtypes: with rows on both sides, an [object]
    column that holds no integer does not merge with a column of numbers. *)
Definition keys_clash (lk rk : list pyval) : bool :=
  match lk, rk with
  | [], _ :: _ | _ :: _, [] => false
  | _, _ =>
      match column_dtype lk, column_dtype rk with
      | DObject, DNumber => negb (existsb is_int lk)
      | DNumber, DObject => negb (existsb is_int rk)
      | _, _ => false
      end
  end.

(** A key label must name exactly one column. *)
Definition key_label (c : string) (df : DataFrame) : result unit :=
  match filter (String.eqb c) (columns df) with
  | [] => Raise KeyError
  | [_] => Ok tt
  | _ :: _ :: _ => Raise ValueError
  end.

(** A right-hand label that the left frame also has gets the suffix. *)
Definition suffixed (lcols : list string) (suffix c : string) : string :=
  if existsb (String.eqb c) lcols then c +:+ suffix else c.

Definition right_cells (lcols : list string) (on suffix : string) (m : row)
  : row :=
  map (fun kv => (suffixed lcols suffix (fst kv), snd kv))
      (filter (fun kv => negb (fst kv =? on)%string) m).

Definition right_missing (lcols : list string) (on suffix : string)
  (rcols : list string) : row :=
  map (fun c => (suffixed lcols suffix c, PNaN))
      (filter (fun c => negb (c =? on)%string) rcols).

Definition matches (on : string) (l : row) (right : DataFrame) : list row :=
  filter (fun m => key_eqb (cell l on) (cell m on)) (rows right).

(** The rows a left row [l] contributes to the left join. *)
Definition joined (on suffix : string) (left right : DataFrame) (l : row)
  : list row :=
  match matches on l right with
  | [] => [l ++ right_missing (columns left) on suffix (columns right)]
  | ms => map (fun m => l ++ right_cells (columns left) on suffix m) ms
  end.

(** The labels that the suffix duplicates: a relabelled right-hand label
    that repeats a relabelled label before it without the labels themselves
    repeating, or that the left frame has and the right frame has not. *)
Fixpoint new_duplicates (relabel : string -> string) (before cols : list string)
  : list string :=
  match cols with
  | [] => []
  | c :: t =>
      (if existsb (String.eqb (relabel c)) (map relabel before) &&
          negb (existsb (String.eqb c) before)
       then [relabel c] else []) ++
      new_duplicates relabel (before ++ [c]) t
  end.

Definition suffix_duplicates (lcols rcols : list string) (suffix : string)
  : list string :=
  new_duplicates (suffixed lcols suffix) [] rcols ++
  filter (fun c => existsb (String.eqb c) lcols &&
                   negb (existsb (String.eqb c) rcols))
         (map (suffixed lcols suffix) rcols).

(** [left.merge(right, how="left", left_on=[on], right_on=[on],
    suffixes=["", suffix])].  The key label is looked up on the right, then
    on the left ([KeyError] when absent, [ValueError] when not unique); the
    dtypes of the key columns are checked ([ValueError]); with rows on the
    left the keys are hashed ([TypeError]); the relabelled columns are
    checked for duplicates ([MergeError]).  In the result left order is
    kept, the matches of one left row follow each other in right order, an
    unmatched left row gets missing cells. *)
Definition merge_left (left right : DataFrame) (on suffix : string)
  : result DataFrame :=
  right_key <- key_label on right ;;
  left_key <- key_label on left ;;
  if keys_clash (column left on) (column right on) then Raise ValueError
  else if match rows left with [] => false | _ :: _ => true end &&
          negb (forallb hashable (column left on ++ column right on))
  then Raise TypeError
  else
    let rcols := filter (fun c => negb (c =? on)%string) (columns right) in
    match suffix_duplicates (columns left) rcols suffix with
    | [] =>
        Ok {| columns := columns left ++ map (suffixed (columns left) suffix) rcols;
              rows := flat_map (joined on suffix left right) (rows left) |}
    | _ :: _ => Raise MergeError
    end.

(** [df.replace(np.nan, value)] *)
Definition replace_row (value : pyval) (r : row) : row :=
  map (fun kv => (fst kv, if isna (snd kv) then value else snd kv)) r.

Definition replace_nan (value : pyval) (df : DataFrame) : DataFrame :=
  {| columns := columns df; rows := map (replace_row value) (rows df) |}.

(** [duplicated(keep="first")]: an element is kept when its key has not been
    seen before it. *)
Fixpoint keep_first {A : Type} (key : A -> pyval) (seen : list pyval)
  (l : list A) : list A :=
  match l with
  | [] => []
  | x :: t =>
      if existsb (key_eqb (key x)) seen
      then keep_first key seen t
      else x :: keep_first key (key x :: seen) t
  end.

(** [df.drop_duplicates(subset=subset, keep="first")]: a frame without rows
    or without columns is returned as it is; otherwise the label must exist
    ([KeyError]) and its cells are hashed ([TypeError]). *)
Definition drop_duplicates (subset : string) (df : DataFrame)
  : result DataFrame :=
  match rows df, columns df with
  | [], _ | _, [] => Ok df
  | _ :: _, _ :: _ =>
      if has_column subset df then
        if forallb hashable (column df subset) then
          Ok {| columns := columns df;
                rows := keep_first (fun r => cell r subset) [] (rows df) |}
        else Raise TypeError
      else Raise KeyError
  end.

End Pandas.

Export Pandas.

(** ** packageurl: [PackageURL(type, name=, version=)] and [str(purl)] *)

Module Purl.

Definition unreserved (c : ascii) : bool :=
  let n := nat_of_ascii c in
  ((48 <=? n)%nat && (n <=? 57)%nat) ||
  ((65 <=? n)%nat && (n <=? 90)%nat) ||
  ((97 <=? n)%nat && (n <=? 122)%nat) ||
  Ascii.eqb c "_"%char || Ascii.eqb c "."%char ||
  Ascii.eqb c "-"%char || Ascii.eqb c "~"%char.

Definition hexdigit (n : nat) : ascii :=
  match String.get n "0123456789ABCDEF" with
  | Some c => c
  | None => "0"%char
  end.

(** [urllib.parse.quote] with ["/"] safe, and [":"] put back. *)
Definition quote_char (c : ascii) : string :=
  if unreserved c || Ascii.eqb c "/"%char || Ascii.eqb c ":"%char
  then String c ""
  else
    let n := nat_of_ascii c in
    String "%"%char (String (hexdigit (n / 16)) (String (hexdigit (n mod 16)) "")).

Fixpoint quote (s : string) : string :=
  match s with
  | EmptyString => ""
  | String c t => quote_char c +:+ quote t
  end.

Record PackageURL : Type := mkPackageURL {
  purl_type : option string;
  purl_name : option string;
  purl_version : option string
}.

Definition quoter (encode : bool) (s : string) : string :=
  if encode then quote s else s.

Definition or_none (s : string) : option string :=
  if (s =? "")%string then None else Some s.

Definition normalize_type (encode : bool) (t : option string) : option string :=
  match t with
  | None => None
  | Some s =>
      if (s =? "")%string then None
      else or_none (lower (strip (quoter encode s)))
  end.

Definition normalize_name (encode : bool) (n : option string) : option string :=
  match n with
  | None => None
  | Some s =>
      if (s =? "")%string then None
      else or_none (strip_slash (strip (quoter encode s)))
  end.

Definition normalize_version (encode : bool) (v : option string)
  : option string :=
  match v with
  | None => None
  | Some s =>
      if (s =? "")%string then None
      else or_none (quoter encode (strip s))
  end.

(** A string argument: a falsy value counts as absent, a truthy value that
    is not a [str] is refused. *)
Definition string_arg (v : pyval) : result (option string) :=
  match v with
  | PStr s => Ok (Some s)
  | _ => if truthy v then Raise ValueError else Ok None
  end.

(** [PackageURL(type=type, name=name, version=version)] *)
Definition new (type name version : pyval) : result PackageURL :=
  if negb (truthy type) || negb (truthy name) then Raise ValueError
  else
    t <- string_arg type ;;
    n <- string_arg name ;;
    v <- string_arg version ;;
    Ok {| purl_type := normalize_type false t;
          purl_name := normalize_name false n;
          purl_version := normalize_version false v |}.

(** [str(purl)]: the pieces are joined, so a piece that normalisation
    emptied raises. *)
Definition to_string (p : PackageURL) : result string :=
  match normalize_type true (purl_type p),
        normalize_name true (purl_name p) with
  | Some t, Some n =>
      Ok ("pkg:" +:+ t +:+ "/" +:+ n +:+
          match normalize_version true (purl_version p) with
          | Some v => "@" +:+ v
          | None => ""
          end)
  | _, _ => Raise TypeError
  end.

End Purl.

(** ** The collaborators of the module *)

(** Modelled from the spec: the inventory source [sbomnix.nix.Store], which
    is not part of this file; it yields the inventory table and the store
    path of the target derivation. *)
Record Store : Type := mkStore {
  to_dataframe : DataFrame;
  get_target_drv_path : string
}.

(** The surroundings of a run: the files it can open for reading, each as
    the sequence of its bytes (absent or unreadable is [None]), the paths it
    can open for writing, and the level of the module's logger. *)
Record Env : Type := mkEnv {
  read_file : string -> option string;
  writable : string -> bool;
  log_level : Z
}.

Definition DEBUG : Z := 10.

(** A file written by the run: a table as delimited text, or a document as
    indented JSON. *)
Inductive event : Type :=
| CsvFile (df : DataFrame) (path : string)
| JsonFile (cdx : list (string * pyval)) (path : string).

(** A step that writes files: the files written, then the value or the
    exception. *)
Definition io (A : Type) : Type := (list event * result A)%type.

Definition io_ret {A : Type} (a : A) : io A := ([], Ok a).

Definition lift {A : Type} (r : result A) : io A := ([], r).

Definition io_bind {A B : Type} (m : io A) (k : A -> io B) : io B :=
  match m with
  | (w, Ok a) => let (w', r) := k a in (w ++ w', r)
  | (w, Raise e) => (w, Raise e)
  end.

Notation "x <~ e ;; k" := (io_bind e (fun x => k))
  (at level 100, e at next level, right associativity).

(** Modelled from the spec: the flat-file writer [sbomnix.utils.df_to_csv_file],
    which is not part of this file; it writes the table to the path, and
    fails with an IO error when the destination cannot be opened. *)
Definition df_to_csv_file (env : Env) (df : DataFrame) (path : string)
  : io unit :=
  if writable env path then ([CsvFile df path], Ok tt)
  else ([], Raise OSError).

(** ** Nix package metadata *)

(** [open(path, "r", encoding="utf-8").read()] *)
Definition read_text (read_file : string -> option string) (path : string)
  : result string :=
  match read_file path with
  | None => Raise OSError
  | Some bytes =>
      if utf8_valid bytes then Ok (universal_newlines bytes)
      else Raise UnicodeDecodeError
  end.

Definition _parse_meta_entry (meta : pyval) (key : string) : list pyval :=
  let ret :=
    match meta with
    | PDict d =>
        [match lookup key d with Some v => v | None => PStr "" end]
    | PList l =>
        map (fun x =>
               match x with
               | PDict d =>
                   match lookup key d with Some v => v | None => PStr "" end
               | _ => x
               end) l
    | _ => [meta]
    end in
  filter truthy ret.

(** [setcol(k, []).append(v)] on the dict of columns *)
Definition setcol_append (k : string) (v : pyval)
  (dict_selected : list (string * list pyval)) : list (string * list pyval) :=
  match lookup k dict_selected with
  | Some col => setitem k (col ++ [v]) dict_selected
  | None => setitem k [v] dict_selected
  end.

(** The body of the loop over [json_dict.items()]. *)
Definition parse_item (dict_selected : list (string * list pyval))
  (item : string * pyval) : result (list (string * list pyval)) :=
  let (nixpkg_name, pkg) := item in
  let d := setcol_append "nixpkgs" (PStr nixpkg_name) dict_selected in
  name <- get pkg "name" (PStr "") ;;
  let d := setcol_append "name" name d in
  pname <- get pkg "pname" (PStr "") ;;
  let d := setcol_append "pname" pname d in
  version <- get pkg "version" (PStr "") ;;
  let d := setcol_append "version" version d in
  meta <- get pkg "meta" (PDict []) ;;
  homepage <- get meta "homepage" (PStr "") ;;
  let d := setcol_append "meta_homepage" homepage d in
  position <- get meta "position" (PStr "") ;;
  let d := setcol_append "meta_position" position d in
  meta_license <- get meta "license" (PDict []) ;;
  let license_short := _parse_meta_entry meta_license "shortName" in
  short <- join ";" license_short ;;
  let d := setcol_append "meta_license_short" (PStr short) d in
  let license_spdx := _parse_meta_entry meta_license "spdxId" in
  spdx <- join ";" license_spdx ;;
  let d := setcol_append "meta_license_spdxid" (PStr spdx) d in
  meta_maintainers <- get meta "maintainers" (PDict []) ;;
  let emails := _parse_meta_entry meta_maintainers "email" in
  email <- join ";" emails ;;
  Ok (setcol_append "meta_maintainers_email" (PStr email) d).

Definition _parse_json_metadata (json_loads : string -> option pyval)
  (read_file : string -> option string) (json_filename : string)
  : result DataFrame :=
  text <- read_text read_file json_filename ;;
  match json_loads text with
  | None => Raise JSONDecodeError
  | Some json_dict =>
      its <- items json_dict ;;
      dict_selected <- foldM parse_item [] its ;;
      from_dict dict_selected
  end.

(** ** CycloneDX *)

Definition getattr (r : row) (c : string) : result pyval :=
  match lookup c r with
  | Some v => Ok v
  | None => Raise AttributeError
  end.

Definition _licenses_entry_from_row (r : row) (column_name : string)
  (cdx_license_type : string) : result (list pyval) :=
  if negb (contains column_name r) then Ok []
  else
    license_str <- getattr r column_name ;;
    if negb (truthy license_str) then Ok []
    else
      match license_str with
      | PStr s =>
          Ok (map (fun license_string =>
                     PDict [("license",
                             PDict [(cdx_license_type, PStr license_string)])])
                  (split ";"%char s))
      | _ => Raise AttributeError
      end.

Definition _cdx_component_add_licenses (component : list (string * pyval))
  (r : row) : result (list (string * pyval)) :=
  licenses <- _licenses_entry_from_row r "meta_license_short" "name" ;;
  match licenses with
  | [] => Ok component
  | _ :: _ => Ok (setitem "licenses" (PList licenses) component)
  end.

Definition _df_row_to_cdx_component (r : row)
  : result (list (string * pyval)) :=
  let component := [] in
  let component := setitem "type" (PStr "application") component in
  store_path <- getattr r "store_path" ;;
  let component := setitem "bom-ref" store_path component in
  pname <- getattr r "pname" ;;
  let component := setitem "name" pname component in
  version <- getattr r "version" ;;
  let component := setitem "version" version component in
  purl <- Purl.new (PStr "nix") pname version ;;
  purl_str <- Purl.to_string purl ;;
  let component := setitem "purl" (PStr purl_str) component in
  cpe <- getattr r "cpe" ;;
  let component := setitem "cpe" cpe component in
  _cdx_component_add_licenses component r.

(** ** class SbomDb *)

Record SbomDb : Type := mkSbomDb {
  store : Store;
  df_sbomdb : DataFrame
}.

Definition _generate_sbomdb (json_loads : string -> option pyval) (env : Env)
  (st : Store) (meta_path : option string) : io DataFrame :=
  let df_store := to_dataframe st in
  df_sbomdb <~
    match meta_path with
    | None => io_ret df_store
    | Some path =>
        df_meta <~ lift (_parse_json_metadata json_loads (read_file env) path) ;;
        written <~
          (if (log_level env <=? DEBUG)%Z
           then df_to_csv_file env df_meta "meta.csv"
           else io_ret tt) ;;
        (* Join based on package name including the version number *)
        lift (merge_left df_store df_meta "name" "_meta")
    end ;;
  let df_sbom := replace_nan (PStr "") df_sbomdb in
  lift (drop_duplicates "store_path" df_sbom).

(** [SbomDb(nix_path, runtime, meta_path)], given the store it opens. *)
Definition __init__ (json_loads : string -> option pyval) (env : Env)
  (st : Store) (meta_path : option string) : io SbomDb :=
  df <~ _generate_sbomdb json_loads env st meta_path ;;
  io_ret {| store := st; df_sbomdb := df |}.

(** [cdx["metadata"]["component"] = component] *)
Definition set_metadata_component (component : pyval)
  (cdx : list (string * pyval)) : result (list (string * pyval)) :=
  match lookup "metadata" cdx with
  | Some (PDict m) =>
      Ok (setitem "metadata" (PDict (setitem "component" component m)) cdx)
  | Some _ => Raise TypeError
  | None => Raise KeyError
  end.

(** [cdx["components"].append(component)] *)
Definition append_component (component : pyval)
  (cdx : list (string * pyval)) : result (list (string * pyval)) :=
  match lookup "components" cdx with
  | Some (PList l) => Ok (setitem "components" (PList (l ++ [component])) cdx)
  | Some _ => Raise AttributeError
  | None => Raise KeyError
  end.

(** The body of the loop over [df_sbomdb.itertuples()]. *)
Definition place_row (target_path : string) (cdx : list (string * pyval))
  (r : row) : result (list (string * pyval)) :=
  component <- _df_row_to_cdx_component r ;;
  store_path <- getattr r "store_path" ;;
  if eq_str store_path target_path
  then set_metadata_component (PDict component) cdx
  else append_component (PDict component) cdx.

(** [with open(path, "w") as outfile: outfile.write(json.dumps(cdx, indent=2))] *)
Definition dump_json (env : Env) (cdx : list (string * pyval)) (path : string)
  : io unit :=
  if writable env path then ([JsonFile cdx path], Ok tt)
  else ([], Raise OSError).

(** [self.to_cdx(cdx_path)]; [uuid4] is the text of the random UUID that
    [uuid.uuid4()] draws for this run. *)
Definition to_cdx (env : Env) (self : SbomDb) (cdx_path : string)
  (uuid4 : string) : io unit :=
  let target_path := get_target_drv_path (store self) in
  let cdx := [] in
  let cdx := setitem "bomFormat" (PStr "CycloneDX") cdx in
  let cdx := setitem "specVersion" (PStr "1.3") cdx in
  let cdx := setitem "version" (PInt 1) cdx in
  let cdx := setitem "serialNumber" (PStr ("urn:uuid:" +:+ uuid4)) cdx in
  let cdx := setitem "metadata" (PDict []) cdx in
  let tool := [] in
  let tool := setitem "vendor" (PStr "TII") tool in
  let tool := setitem "name" (PStr "sbomnix") tool in
  let tool := setitem "version" (PStr "0.1.0") tool in
  let cdx := setitem "metadata" (PDict [("tools", PList [PDict tool])]) cdx in
  let cdx := setitem "components" (PList []) cdx in
  cdx <~ lift (foldM (place_row target_path) cdx (rows (df_sbomdb self))) ;;
  dump_json env cdx cdx_path.

(** [self.to_csv(csv_path)] *)
Definition to_csv (env : Env) (self : SbomDb) (csv_path : string) : io unit :=
  df_to_csv_file env (df_sbomdb self) csv_path.

(** ** Vocabulary of the statements *)

(** Every row of a frame carries exactly the labels of the frame. *)
Definition wf (df : DataFrame) : Prop :=
  Forall (fun r => map fst r = columns df) (rows df).

(** Missing-value normalisation of one row. *)
Definition norm (r : row) : row := replace_row (PStr "") r.

(** The installation path of a row. *)
Definition path_of (r : row) : pyval := cell r "store_path".


(** [s] is [l] with some elements removed, the others in their order. *)
Inductive subseq {A : Type} : list A -> list A -> Prop :=
| subseq_nil : subseq [] []
| subseq_keep x s l : subseq s l -> subseq (x :: s) (x :: l)
| subseq_drop x s l : subseq s l -> subseq s (x :: l).

(** The metadata table of a run: none without a path, else what the loader
    returns. *)
Definition metadata_table (json_loads : string -> option pyval) (env : Env)
  (meta_path : option string) : result (option DataFrame) :=
  match meta_path with
  | None => Ok None
  | Some path =>
      df <- _parse_json_metadata json_loads (read_file env) path ;;
      Ok (Some df)
  end.

(** The rows that the inventory row [l] gives before deduplication, and
    the canonical record it gives when it is the one kept. *)
Definition joined_rows (df_store : DataFrame) (df_meta : option DataFrame)
  (l : row) : list row :=
  match df_meta with
  | None => [l]
  | Some df_right => joined "name" "_meta" df_store df_right l
  end.

Definition canonical_row (df_store : DataFrame) (df_meta : option DataFrame)
  (l : row) : row :=
  norm (hd l (joined_rows df_store df_meta l)).

Definition canonical_columns (df_store : DataFrame)
  (df_meta : option DataFrame) : list string :=
  match df_meta with
  | None => columns df_store
  | Some df_right =>
      columns df_store ++
      map (suffixed (columns df_store) "_meta")
          (filter (fun c => negb (c =? "name")%string) (columns df_right))
  end.

(** The inventory rows that survive deduplication. *)
Definition kept_rows (df_store : DataFrame) : list row :=
  keep_first (fun l => path_of (norm l)) [] (rows df_store).

(** [str(PackageURL(type="nix", name=pname, version=version))] *)
Definition purl_of (pname version : pyval) : result string :=
  purl <- Purl.new (PStr "nix") pname version ;;
  Purl.to_string purl.

(** A text of unreserved characters only: letters, digits, [_ . - ~]. *)
Fixpoint plain (s : string) : bool :=
  match s with
  | EmptyString => true
  | String c t => Purl.unreserved c && plain t
  end.

(** The text contains the character. *)
Fixpoint mentions (c : ascii) (s : string) : bool :=
  match s with
  | EmptyString => false
  | String c' t => Ascii.eqb c' c || mentions c t
  end.

(** The labels of the metadata table, in the order the loader adds them. *)
Definition meta_columns : list string :=
  ["nixpkgs"; "name"; "pname"; "version"; "meta_homepage"; "meta_position";
   "meta_license_short"; "meta_license_spdxid"; "meta_maintainers_email"].

(** A field of an object, the empty string when it is absent. *)
Definition field (d : list (string * pyval)) (k : string) : pyval :=
  match lookup k d with
  | Some v => v
  | None => PStr ""
  end.

(** The licence or maintainers value as the spec words it: absent, a list
    of entries, or a single entry; the field [key] of every entry that is an
    object, any other entry as it is; the falsy ones left out. *)
Definition entries (value : option pyval) : list pyval :=
  match value with
  | None => []
  | Some (PList l) => l
  | Some v => [v]
  end.

Definition extract (key : string) (x : pyval) : pyval :=
  match x with
  | PDict d => field d key
  | _ => x
  end.

Definition extracted (value : option pyval) (key : string) : list pyval :=
  filter truthy (map (extract key) (entries value)).

Definition is_text (v : pyval) : bool :=
  match v with
  | PStr _ => true
  | _ => false
  end.

Definition texts (l : list pyval) : list string :=
  flat_map (fun v => match v with PStr s => [s] | _ => [] end) l.

Definition flattened (value : option pyval) (key : string) : string :=
  String.concat ";" (texts (extracted value key)).

(** The [meta] object of a package description: empty when absent, none
    when the value is not an object. *)
Definition meta_of (pkg : list (string * pyval))
  : option (list (string * pyval)) :=
  match lookup "meta" pkg with
  | None => Some []
  | Some (PDict m) => Some m
  | Some _ => None
  end.

(** A catalog entry the loader can read: an object, whose [meta] is an
    object when present, and whose extracted licence names, SPDX ids and
    maintainer e-mails are texts.  No field has to be present. *)
Definition shaped (item : string * pyval) : bool :=
  match snd item with
  | PDict pkg =>
      match meta_of pkg with
      | Some m =>
          forallb is_text (extracted (lookup "license" m) "shortName") &&
          forallb is_text (extracted (lookup "license" m) "spdxId") &&
          forallb is_text (extracted (lookup "maintainers" m) "email")
      | None => false
      end
  | _ => false
  end.

Definition as_dict (v : pyval) : list (string * pyval) :=
  match v with
  | PDict d => d
  | _ => []
  end.

(** The row of the metadata table that a catalog entry gives. *)
Definition entry_row (item : string * pyval) : row :=
  let pkg := as_dict (snd item) in
  let m := match meta_of pkg with Some m => m | None => [] end in
  [("nixpkgs", PStr (fst item));
   ("name", field pkg "name");
   ("pname", field pkg "pname");
   ("version", field pkg "version");
   ("meta_homepage", field m "homepage");
   ("meta_position", field m "position");
   ("meta_license_short", PStr (flattened (lookup "license" m) "shortName"));
   ("meta_license_spdxid", PStr (flattened (lookup "license" m) "spdxId"));
   ("meta_maintainers_email",
    PStr (flattened (lookup "maintainers" m) "email"))].

(** One turn of the loader's loop, as the cells it appends. *)
Definition item_row (item : string * pyval) : result row :=
  let (nixpkg_name, pkg) := item in
  name <- get pkg "name" (PStr "") ;;
  pname <- get pkg "pname" (PStr "") ;;
  version <- get pkg "version" (PStr "") ;;
  meta <- get pkg "meta" (PDict []) ;;
  homepage <- get meta "homepage" (PStr "") ;;
  position <- get meta "position" (PStr "") ;;
  meta_license <- get meta "license" (PDict []) ;;
  short <- join ";" (_parse_meta_entry meta_license "shortName") ;;
  spdx <- join ";" (_parse_meta_entry meta_license "spdxId") ;;
  meta_maintainers <- get meta "maintainers" (PDict []) ;;
  email <- join ";" (_parse_meta_entry meta_maintainers "email") ;;
  Ok [("nixpkgs", PStr nixpkg_name); ("name", name); ("pname", pname);
      ("version", version); ("meta_homepage", homepage);
      ("meta_position", position); ("meta_license_short", PStr short);
      ("meta_license_spdxid", PStr spdx);
      ("meta_maintainers_email", PStr email)].

Definition push (rw : row) (dict_selected : list (string * list pyval))
  : list (string * list pyval) :=
  fold_left (fun d kv => setcol_append (fst kv) (snd kv) d) rw dict_selected.

(** The dict of columns that holds the rows [rs]. *)
Definition cols_of (rs : list row) : list (string * list pyval) :=
  map (fun c => (c, map (fun r => cell r c) rs)) meta_columns.

(** The diagnostic dump of the metadata table, if the logging level asks
    for one, can be written. *)
Definition dump_ok (env : Env) : bool :=
  negb (log_level env <=? DEBUG)%Z || writable env "meta.csv".

(** No cell of the row is missing. *)
Definition no_missing (r : list (string * pyval)) : Prop :=
  Forall (fun kv => isna (snd kv) = false) r.

(** The parts of an emitted document. *)
Definition doc_components (cdx : list (string * pyval)) : option (list pyval) :=
  match lookup "components" cdx with
  | Some (PList l) => Some l
  | _ => None
  end.

Definition doc_root (cdx : list (string * pyval)) : option pyval :=
  match lookup "metadata" cdx with
  | Some (PDict m) => lookup "component" m
  | _ => None
  end.

(** The document with a given identifier, root component and list of other
    components. *)
Definition tool_descriptor : pyval :=
  PDict [("vendor", PStr "TII"); ("name", PStr "sbomnix");
         ("version", PStr "0.1.0")].

Definition document (uuid4 : string) (root : option pyval)
  (components : list pyval) : list (string * pyval) :=
  [("bomFormat", PStr "CycloneDX"); ("specVersion", PStr "1.3");
   ("version", PInt 1); ("serialNumber", PStr ("urn:uuid:" +:+ uuid4));
   ("metadata",
    PDict (("tools", PList [tool_descriptor]) ::
           match root with
           | Some c => [("component", c)]
           | None => []
           end));
   ("components", PList components)].

Definition is_root (target_path : string) (r : row) : bool :=
  eq_str (path_of r) target_path.

(** Rows paired with their projections: those that are the root, and the
    others, as components. *)
Definition roots_of (target_path : string)
  (placed : list (row * list (string * pyval))) : list pyval :=
  map (fun rc => PDict (snd rc))
      (filter (fun rc => is_root target_path (fst rc)) placed).

Definition others_of (target_path : string)
  (placed : list (row * list (string * pyval))) : list pyval :=
  map (fun rc => PDict (snd rc))
      (filter (fun rc => negb (is_root target_path (fst rc))) placed).

(** The last element, if any, else [d]. *)
Definition last_or (d : option pyval) (l : list pyval) : option pyval :=
  last (map Some l) d.

Definition license_entry (segment : string) : pyval :=
  PDict [("license", PDict [("name", PStr segment)])].

(** A missing cell becomes the empty string; a row with its missing cells
    blanked. *)
Definition blank (v : pyval) : pyval :=
  match v with
  | PNone | PNaN => PStr ""
  | _ => v
  end.

Definition blanked (r : row) : row :=
  map (fun kv => (fst kv, blank (snd kv))) r.

(** Pairwise distinct labels. *)
Fixpoint distinct (l : list string) : bool :=
  match l with
  | [] => true
  | c :: t => negb (existsb (String.eqb c) t) && distinct t
  end.

(** Every cell under the label is a text. *)
Definition texts_under (c : string) (df : DataFrame) : bool :=
  forallb (fun r => is_text (cell r c)) (rows df).

(** The two tables can be joined on [name]: both have the column, and the
    names are texts on both sides. *)
Definition keyed_by_name (df_store df_right : DataFrame) : bool :=
  has_column "name" df_store && has_column "name" df_right &&
  texts_under "name" df_store && texts_under "name" df_right.

(** The first catalog row of the name of [l]. *)
Definition first_match (df_right : DataFrame) (l : row) : option row :=
  find (fun m => pyval_eqb (cell m "name") (cell l "name")) (rows df_right).

(** The metadata cells of the canonical record of [l]: the cells of the
    first catalog row of its name, or an empty string for every metadata
    column; the [name] cell is left out, and a label that the inventory
    also has gets the suffix. *)
Definition meta_label (df_store : DataFrame) (c : string) : string :=
  if has_column c df_store then c +:+ "_meta" else c.

Definition metadata_cells (df_store df_right : DataFrame) (l : row) : row :=
  match first_match df_right l with
  | Some m =>
      flat_map (fun kv =>
                  if (fst kv =? "name")%string then []
                  else [(meta_label df_store (fst kv), blank (snd kv))]) m
  | None =>
      flat_map (fun c =>
                  if (c =? "name")%string then []
                  else [(meta_label df_store c, PStr "")]) (columns df_right)
  end.

(** The frame before the two closing steps of the merge: the inventory, or
    its join with the metadata table. *)
Definition joined_table (json_loads : string -> option pyval) (env : Env)
  (st : Store) (meta_path : option string) : result DataFrame :=
  match meta_path with
  | None => Ok (to_dataframe st)
  | Some path =>
      df_meta <- _parse_json_metadata json_loads (read_file env) path ;;
      merge_left (to_dataframe st) df_meta "name" "_meta"
  end.

(** How often the character occurs in the text. *)
Fixpoint occurrences (c : ascii) (s : string) : nat :=
  match s with
  | EmptyString => 0
  | String c' t => (if Ascii.eqb c' c then 1 else 0) + occurrences c t
  end.

(** The rows of a frame that sit at the root path. *)
Definition root_rows (target_path : string) (df : DataFrame) : list row :=
  filter (is_root target_path) (rows df).

(** ** Example inputs *)

Definition dq : string := String "034"%char "".

Definition quoted (s : string) : string := dq +:+ s +:+ dq.

(** A catalog with two entries of the same name and one bare entry:
    [{"a": {"name": "foo-1.0", "meta": {"license": [{"shortName": "MIT"},
    "GPL"]}}, "b": {"name": "foo-1.0", "meta": {"license": {"shortName":
    "BSD"}}}, "c": {}}]. *)
Definition text_catalog : string :=
  "{" +:+ quoted "a" +:+ ": {" +:+ quoted "name" +:+ ": " +:+
  quoted "foo-1.0" +:+ ", " +:+ quoted "meta" +:+ ": {" +:+
  quoted "license" +:+ ": [{" +:+ quoted "shortName" +:+ ": " +:+
  quoted "MIT" +:+ "}, " +:+ quoted "GPL" +:+ "]}}, " +:+
  quoted "b" +:+ ": {" +:+ quoted "name" +:+ ": " +:+ quoted "foo-1.0" +:+
  ", " +:+ quoted "meta" +:+ ": {" +:+ quoted "license" +:+ ": {" +:+
  quoted "shortName" +:+ ": " +:+ quoted "BSD" +:+ "}}}, " +:+
  quoted "c" +:+ ": {}}".

Definition json_catalog : pyval :=
  PDict
    [("a", PDict [("name", PStr "foo-1.0");
                  ("meta", PDict [("license",
                     PList [PDict [("shortName", PStr "MIT")]; PStr "GPL"])])]);
     ("b", PDict [("name", PStr "foo-1.0");
                  ("meta", PDict [("license",
                     PDict [("shortName", PStr "BSD")])])]);
     ("c", PDict [])].

(** A mapping whose entry is not an object: [{"a": 1}]. *)
Definition text_number_entry : string := "{" +:+ quoted "a" +:+ ": 1}".

Definition json_number_entry : pyval := PDict [("a", PInt 1)].

(** [json.loads] on the texts of the examples; any other text, such as
    ["{"], is not valid JSON.  The file [latin1.json] holds the one byte 233,
    which is not UTF-8. *)
Definition json_loads_ex (text : string) : option pyval :=
  if (text =? text_catalog)%string then Some json_catalog
  else if (text =? text_number_entry)%string then Some json_number_entry
  else if (text =? "[]")%string then Some (PList [])
  else if (text =? "{}")%string then Some (PDict [])
  else None.

Definition read_file_ex (path : string) : option string :=
  if (path =? "meta.json")%string then Some text_catalog
  else if (path =? "number-entry.json")%string then Some text_number_entry
  else if (path =? "list.json")%string then Some "[]"
  else if (path =? "empty.json")%string then Some "{}"
  else if (path =? "broken.json")%string then Some "{"
  else if (path =? "latin1.json")%string then Some (String "233"%char "")
  else None.

Definition env_ex : Env :=
  {| read_file := read_file_ex; writable := fun _ => true; log_level := 20 |}.

Definition env_debug : Env :=
  {| read_file := read_file_ex; writable := fun _ => true; log_level := 10 |}.

Definition inventory_columns : list string :=
  ["store_path"; "name"; "pname"; "version"; "cpe"].

Definition row_foo : row :=
  [("store_path", PStr "/nix/store/aaa-foo-1.0"); ("name", PStr "foo-1.0");
   ("pname", PStr "foo"); ("version", PStr "1.0"); ("cpe", PStr "")].

Definition row_bar : row :=
  [("store_path", PStr "/nix/store/bbb-bar-2.1"); ("name", PStr "bar-2.1");
   ("pname", PStr "bar"); ("version", PStr "2.1"); ("cpe", PNaN)].

Definition row_hook : row :=
  [("store_path", PStr "/nix/store/ccc-hook"); ("name", PStr "hook");
   ("pname", PStr "hook"); ("version", PStr ""); ("cpe", PStr "")].

(** A second row of the installation path of [row_foo]. *)
Definition row_foo_again : row :=
  [("store_path", PStr "/nix/store/aaa-foo-1.0"); ("name", PStr "foo-dup");
   ("pname", PStr "foo"); ("version", PStr "1.0"); ("cpe", PStr "")].

(** A canonical record whose short-licence text has an empty segment. *)
Definition row_empty_segment : row :=
  row_foo ++ [("meta_license_short", PStr "MIT;;GPL")].

Definition row_two_licenses : row :=
  row_foo ++ [("meta_license_short", PStr "MIT;GPL")].

Definition store_three : Store :=
  {| to_dataframe :=
       {| columns := inventory_columns; rows := [row_foo; row_bar; row_hook] |};
     get_target_drv_path := "/nix/store/bbb-bar-2.1" |}.

Definition store_dup : Store :=
  {| to_dataframe :=
       {| columns := inventory_columns;
          rows := [row_foo; row_foo_again; row_bar] |};
     get_target_drv_path := "/nix/store/bbb-bar-2.1" |}.

(** An inventory in which the row named like the catalog entries comes
    second for its installation path. *)
Definition store_shadowed : Store :=
  {| to_dataframe :=
       {| columns := inventory_columns; rows := [row_foo_again; row_foo] |};
     get_target_drv_path := "/nix/store/aaa-foo-1.0" |}.

(** The metadata table of [meta.json]. *)
Definition table_catalog : DataFrame :=
  {| columns := meta_columns; rows := map entry_row (as_dict json_catalog) |}.

(** The run on [store_three] without metadata, and its projected rows. *)
Definition sbomdb_three : SbomDb :=
  {| store := store_three;
     df_sbomdb :=
       {| columns := inventory_columns;
          rows := [norm row_foo; norm row_bar; norm row_hook] |} |}.

Definition components_three : list (list (string * pyval)) :=
  Eval vm_compute in
    match mapM _df_row_to_cdx_component (rows (df_sbomdb sbomdb_three)) with
    | Ok comps => comps
    | Raise _ => []
    end.

(** A record without a short package name, and a canonical set that holds
    it between two records that project. *)
Definition row_no_pname : row :=
  [("store_path", PStr "/nix/store/ddd-source"); ("name", PStr "source");
   ("pname", PStr ""); ("version", PStr ""); ("cpe", PStr "")].

Definition sbomdb_no_pname : SbomDb :=
  {| store := store_three;
     df_sbomdb :=
       {| columns := inventory_columns;
          rows := [norm row_foo; row_no_pname; norm row_hook] |} |}.

(** A record with cells that the projection does not read. *)
Definition row_foo_wide : row :=
  [("meta_homepage", PStr "https://example.org"); ("cpe", PStr "");
   ("version", PStr "1.0"); ("pname", PStr "foo"); ("name", PStr "other");
   ("store_path", PStr "/nix/store/aaa-foo-1.0")].

(** Inventories that lack a column: one without names, one without rows
    and without store paths, one with a row and without store paths. *)
Definition store_no_name : Store :=
  {| to_dataframe :=
       {| columns := ["store_path"];
          rows := [[("store_path", PStr "/nix/store/aaa-foo-1.0")]] |};
     get_target_drv_path := "/nix/store/aaa-foo-1.0" |}.

Definition store_empty : Store :=
  {| to_dataframe := {| columns := ["name"]; rows := [] |};
     get_target_drv_path := "/nix/store/aaa-foo-1.0" |}.

Definition store_no_path : Store :=
  {| to_dataframe :=
       {| columns := ["name"]; rows := [[("name", PStr "foo-1.0")]] |};
     get_target_drv_path := "/nix/store/aaa-foo-1.0" |}.

(** An inventory that already has the label that the suffix gives to the
    [pname] column of the catalog. *)
Definition store_clash : Store :=
  {| to_dataframe :=
       {| columns := inventory_columns ++ ["pname_meta"];
          rows := [row_foo ++ [("pname_meta", PStr "foo")]] |};
     get_target_drv_path := "/nix/store/aaa-foo-1.0" |}.

(** A catalog whose one entry has a number as its name: [{"a": {"name": 5}}]. *)
Definition json_numeric_name : pyval := PDict [("a", PDict [("name", PInt 5)])].

(** Surroundings in which nothing can be written. *)
Definition env_read_only : Env :=
  {| read_file := read_file_ex; writable := fun _ => false; log_level := 10 |}.

(** * Facts about the Python and pandas primitives *)

Section ValueFacts.

Lemma pyval_eqb_sound : forall a b, pyval_eqb a b = true -> a = b.
Proof.
  fix IH 1.
  intros a b; destruct a; destruct b; simpl; try discriminate; intros H.
  - reflexivity.
  - apply Bool.eqb_prop in H. now subst.
  - apply Z.eqb_eq in H. now subst.
  - reflexivity.
  - apply String.eqb_eq in H. now subst.
  - f_equal. revert l0 H. revert l.
    fix IHl 1.
    intros [|u t] [|v t2] H; try discriminate; [reflexivity|].
    apply andb_true_iff in H as [H1 H2].
    f_equal; [apply IH, H1 | apply IHl, H2].
  - f_equal. revert d0 H. revert d.
    fix IHl 1.
    intros [|[k1 u] t] [|[k2 v] t2] H; try discriminate; [reflexivity|].
    apply andb_true_iff in H as [H1 H2].
    apply andb_true_iff in H1 as [H0 H1].
    apply String.eqb_eq in H0. subst k2.
    f_equal; [f_equal; apply IH, H1 | apply IHl, H2].
Qed.

Lemma pyval_eqb_refl : forall a, pyval_eqb a a = true.
Proof.
  fix IH 1.
  intros a; destruct a; simpl; try reflexivity.
  - apply Bool.eqb_reflx.
  - apply Z.eqb_refl.
  - apply String.eqb_refl.
  - revert l. fix IHl 1. intros [|u t]; [reflexivity|].
    rewrite IH. simpl. apply IHl.
  - revert d. fix IHl 1. intros [|[k u] t]; [reflexivity|].
    rewrite String.eqb_refl, IH. simpl. apply IHl.
Qed.

Lemma key_eqb_refl a : key_eqb a a = true.
Proof.
  unfold key_eqb, py_eq.
  destruct a; cbn [isna as_number andb orb]; try reflexivity.
  - apply Z.eqb_refl.
  - apply Z.eqb_refl.
  - apply (pyval_eqb_refl (PStr s)).
  - apply (pyval_eqb_refl (PList l)).
  - apply (pyval_eqb_refl (PDict d)).
Qed.

(** On a text, the comparison is equality. *)
Lemma key_eqb_eq a b : is_text a = true -> key_eqb a b = true <-> a = b.
Proof.
  destruct a as [| | | |s| |]; try discriminate. intros _.
  unfold key_eqb, py_eq. cbn [isna as_number andb orb]. split.
  - destruct b; cbn [as_number]; try discriminate.
    intros H. now apply pyval_eqb_sound.
  - intros <-. apply (pyval_eqb_refl (PStr s)).
Qed.

Lemma existsb_key_eqb k seen :
  is_text k = true -> existsb (key_eqb k) seen = true <-> In k seen.
Proof.
  intros Hk. rewrite existsb_exists. split.
  - intros [x [Hx He]]. apply key_eqb_eq in He; [now subst | exact Hk].
  - intros Hin. exists k. split; [exact Hin | apply key_eqb_refl].
Qed.

End ValueFacts.

(** ** Keeping the first element of every key *)

Section KeepFirst.

Context {A : Type} (key : A -> pyval).

Lemma keep_first_subseq seen l : subseq (keep_first key seen l) l.
Proof.
  revert seen. induction l as [|a t IH]; intros seen; simpl.
  - constructor.
  - destruct (existsb (key_eqb (key a)) seen); constructor; apply IH.
Qed.

Lemma keep_first_in seen l x : In x (keep_first key seen l) -> In x l.
Proof.
  revert seen. induction l as [|a t IH]; intros seen; simpl; [tauto|].
  destruct (existsb (key_eqb (key a)) seen); simpl.
  - intros H. right. eapply IH, H.
  - intros [H|H]; [now left | right; eapply IH, H].
Qed.

(** Dropping a prefix whose keys have all been seen. *)
Lemma keep_first_seen_prefix seen t rest :
  Forall (fun y => existsb (key_eqb (key y)) seen = true) t ->
  keep_first key seen (t ++ rest) = keep_first key seen rest.
Proof.
  induction 1 as [|y t Hy _ IH]; simpl; [reflexivity|].
  now rewrite Hy.
Qed.

Section TextKeys.

Variable l0 : list A.
Hypothesis keys_present : Forall (fun x => is_text (key x) = true) l0.

Lemma head_present a t : incl (a :: t) l0 -> is_text (key a) = true.
Proof.
  intros Hl. rewrite Forall_forall in keys_present.
  apply keys_present, Hl. now left.
Qed.

Lemma tail_incl (a : A) t : incl (a :: t) l0 -> incl t l0.
Proof. intros Hl y Hy. apply Hl. now right. Qed.

(** From [Hl : incl (a :: t) l0]: the key of [a] is present, and [t] is
    within [l0]. *)
Local Ltac uncons Hl Ha Ht :=
  pose proof (head_present _ _ Hl) as Ha;
  pose proof (tail_incl _ _ Hl) as Ht.

Lemma keep_first_fresh seen l x :
  incl l l0 -> In x (keep_first key seen l) -> ~ In (key x) seen.
Proof.
  revert seen. induction l as [|a t IH]; intros seen Hl; simpl; [tauto|].
  uncons Hl Ha Ht.
  destruct (existsb (key_eqb (key a)) seen) eqn:E.
  - apply IH, Ht.
  - intros [<-|H].
    + rewrite <- existsb_key_eqb by exact Ha. now rewrite E.
    + intros Hin. apply (IH _ Ht H). now right.
Qed.

Lemma keep_first_NoDup seen l :
  incl l l0 -> NoDup (map key (keep_first key seen l)).
Proof.
  revert seen. induction l as [|a t IH]; intros seen Hl; simpl.
  - constructor.
  - pose proof (tail_incl _ _ Hl) as Ht.
    destruct (existsb (key_eqb (key a)) seen); [apply IH, Ht|].
    simpl. constructor; [|apply IH, Ht].
    rewrite in_map_iff. intros [y [Hk Hy]].
    apply (keep_first_fresh _ _ _ Ht Hy). rewrite Hk. now left.
Qed.

Lemma keep_first_cover seen l x :
  incl l l0 -> In x l ->
  In (key x) seen \/ exists y, In y (keep_first key seen l) /\ key y = key x.
Proof.
  revert seen. induction l as [|a t IH]; intros seen Hl; simpl; [tauto|].
  uncons Hl Ha Ht.
  destruct (existsb (key_eqb (key a)) seen) eqn:E.
  - intros [<-|H]; [|apply IH; assumption].
    left. now apply existsb_key_eqb.
  - intros [<-|H].
    + right. exists a. split; [now left | reflexivity].
    + destruct (IH (key a :: seen) Ht H) as [[Hk|Hk]|[y [Hy Hk]]].
      * right. exists a. split; [now left | exact Hk].
      * now left.
      * right. exists y. split; [now right | exact Hk].
Qed.


(** The first element of a key is kept. *)
Lemma first_kept pre x post :
  incl (pre ++ x :: post) l0 ->
  Forall (fun y => key y <> key x) pre ->
  In x (keep_first key [] (pre ++ x :: post)).
Proof.
  intros Hl Hpre.
  assert (G : forall seen, ~ In (key x) seen ->
              In x (keep_first key seen (pre ++ x :: post))).
  { revert Hl Hpre. induction pre as [|a t IH]; intros Hl Hpre seen Hs.
    - simpl. pose proof (head_present _ _ Hl) as Hx.
      destruct (existsb (key_eqb (key x)) seen) eqn:E.
      + apply existsb_key_eqb in E; [contradiction | exact Hx].
      + now left.
    - simpl. inversion Hpre as [|? ? Hax Hpre']; subst.
      pose proof (tail_incl _ _ Hl) as Ht.
      destruct (existsb (key_eqb (key a)) seen).
      + apply IH; assumption.
      + right. apply IH; try assumption.
        intros [Hk|Hk]; [now apply Hax | now apply Hs]. }
  apply G. intros [].
Qed.

Lemma keep_first_id seen l :
  incl l l0 -> NoDup (map key l) ->
  (forall x, In x l -> ~ In (key x) seen) ->
  keep_first key seen l = l.
Proof.
  revert seen. induction l as [|a t IH]; intros seen Hl Hnd Hs; simpl.
  - reflexivity.
  - uncons Hl Ha Ht.
    inversion Hnd as [|? ? Hna Hnd']; subst.
    destruct (existsb (key_eqb (key a)) seen) eqn:E.
    + apply existsb_key_eqb in E; [|exact Ha].
      exfalso. apply (Hs a); [now left | exact E].
    + f_equal. apply IH; try assumption.
      intros x Hx [Hk|Hk].
      * apply Hna. rewrite Hk. now apply in_map.
      * apply (Hs x); [now right | exact Hk].
Qed.

End TextKeys.

End KeepFirst.

Lemma keep_first_map {A B : Type} (key : B -> pyval) (f : A -> B) seen l :
  keep_first key seen (map f l) =
  map f (keep_first (fun x => key (f x)) seen l).
Proof.
  revert seen. induction l as [|a t IH]; intros seen; simpl; [reflexivity|].
  destruct (existsb (key_eqb (key (f a))) seen); simpl; now rewrite IH.
Qed.

(** When every element contributes a block of one key, only the heads of
    the blocks matter. *)
Lemma keep_first_blocks {A B : Type} (key : B -> pyval) (block : A -> list B)
  (h : A -> B) ls :
  (forall x, In x ls ->
     exists t, block x = h x :: t /\ Forall (fun y => key y = key (h x)) t) ->
  forall seen,
    keep_first key seen (flat_map block ls) = keep_first key seen (map h ls).
Proof.
  induction ls as [|a t IH]; intros Hb seen; simpl; [reflexivity|].
  destruct (Hb a (or_introl eq_refl)) as [tl [-> Htl]].
  assert (Ht : forall x, In x t ->
            exists bs, block x = h x :: bs /\ Forall (fun y => key y = key (h x)) bs).
  { intros x Hx. apply Hb. now right. }
  simpl. destruct (existsb (key_eqb (key (h a))) seen) eqn:E.
  - rewrite keep_first_seen_prefix; [apply IH, Ht|].
    eapply Forall_impl; [|exact Htl]. intros y ->. exact E.
  - f_equal. rewrite keep_first_seen_prefix; [apply IH, Ht|].
    eapply Forall_impl; [|exact Htl]. intros y ->. simpl.
    now rewrite key_eqb_refl.
Qed.

Lemma map_flat_map_rows {A B C : Type} (f : B -> C) (g : A -> list B) l :
  map f (flat_map g l) = flat_map (fun x => map f (g x)) l.
Proof.
  induction l as [|a t IH]; simpl; [reflexivity|].
  now rewrite map_app, IH.
Qed.

Lemma subseq_map {A B : Type} (f : A -> B) s l :
  subseq s l -> subseq (map f s) (map f l).
Proof. induction 1; simpl; constructor; assumption. Qed.

Lemma subseq_incl {A : Type} (s l : list A) : subseq s l -> incl s l.
Proof.
  induction 1 as [|x s l _ IH|x s l _ IH]; intros y Hy.
  - exact Hy.
  - destruct Hy as [<-|Hy]; [now left | right; now apply IH].
  - right. now apply IH.
Qed.

(** ** Rows and cells *)

Section RowFacts.

Lemma lookup_app {V : Type} k (a b : list (string * V)) :
  lookup k (a ++ b) =
  match lookup k a with Some v => Some v | None => lookup k b end.
Proof.
  induction a as [|[k' v] t IH]; simpl; [reflexivity|].
  destruct (k' =? k)%string; [reflexivity | exact IH].
Qed.

Lemma lookup_some_iff {V : Type} k (r : list (string * V)) :
  In k (map fst r) <-> exists v, lookup k r = Some v.
Proof.
  induction r as [|[k' v] t IH]; simpl.
  - split; [tauto | intros [v H]; discriminate].
  - destruct (k' =? k)%string eqn:E.
    + apply String.eqb_eq in E. subst. split; [eauto | now left].
    + apply String.eqb_neq in E. rewrite <- IH. split; [|tauto].
      intros [H|H]; [congruence | exact H].
Qed.

Lemma lookup_in {V : Type} k (r : list (string * V)) v :
  lookup k r = Some v -> In (k, v) r.
Proof.
  induction r as [|[k' v'] t IH]; simpl; [discriminate|].
  destruct (k' =? k)%string eqn:E.
  - apply String.eqb_eq in E. intros [= ->]. subst. now left.
  - intros H. right. now apply IH.
Qed.

Lemma has_column_in c df : has_column c df = true <-> In c (columns df).
Proof.
  unfold has_column. rewrite existsb_exists. split.
  - intros [x [Hx E]]. apply String.eqb_eq in E. now subst.
  - intros H. exists c. split; [exact H | apply String.eqb_refl].
Qed.

Lemma lookup_replace_row value k r :
  lookup k (replace_row value r) =
  option_map (fun v => if isna v then value else v) (lookup k r).
Proof.
  induction r as [|[k' v] t IH]; simpl; [reflexivity|].
  destruct (k' =? k)%string; [reflexivity | exact IH].
Qed.

Lemma replace_row_app value a b :
  replace_row value (a ++ b) = replace_row value a ++ replace_row value b.
Proof. apply map_app. Qed.

Lemma norm_no_missing r : no_missing (norm r).
Proof.
  unfold no_missing, norm, replace_row. rewrite Forall_map.
  rewrite Forall_forall. intros [k v] _. simpl.
  destruct (isna v) eqn:E; [reflexivity | exact E].
Qed.

Lemma norm_fixed r : no_missing r -> norm r = r.
Proof.
  unfold no_missing, norm, replace_row.
  induction 1 as [|[k v] t Hv _ IH]; simpl; [reflexivity|].
  simpl in Hv. rewrite Hv. now f_equal.
Qed.

Lemma blanked_norm r : norm r = blanked r.
Proof.
  unfold norm, replace_row, blanked. apply map_ext.
  intros [k v]. cbn [fst snd]. now destruct v.
Qed.

(** A path that is a text is left alone by the normalisation. *)
Lemma path_of_norm_text l :
  is_text (path_of l) = true -> path_of (norm l) = path_of l.
Proof.
  unfold path_of, cell, norm. rewrite lookup_replace_row.
  destruct (lookup "store_path" l) as [v|]; [|discriminate].
  cbn [option_map]. now destruct v.
Qed.

Lemma text_cell_label l c : is_text (cell l c) = true -> In c (map fst l).
Proof.
  unfold cell. intros H. apply lookup_some_iff.
  destruct (lookup c l) as [v|]; [eauto | discriminate].
Qed.

(** A row that has the path column keeps its path when cells are appended,
    and its normalised path is never missing. *)
Lemma path_of_norm_app l extra :
  In "store_path" (map fst l) ->
  path_of (norm l ++ extra) = path_of (norm l).
Proof.
  intros H. apply lookup_some_iff in H as [v Hv].
  unfold path_of, cell, norm. rewrite lookup_app, lookup_replace_row, Hv.
  reflexivity.
Qed.

Lemma path_of_norm_present l :
  In "store_path" (map fst l) -> isna (path_of (norm l)) = false.
Proof.
  intros H. apply lookup_some_iff in H as [v Hv].
  unfold path_of, cell, norm. rewrite lookup_replace_row, Hv. simpl.
  destruct (isna v) eqn:E; [reflexivity | exact E].
Qed.

End RowFacts.

Lemma keep_first_ext {A : Type} (key1 key2 : A -> pyval) l :
  (forall x, In x l -> key1 x = key2 x) ->
  forall seen, keep_first key1 seen l = keep_first key2 seen l.
Proof.
  induction l as [|a t IH]; intros He seen; simpl; [reflexivity|].
  rewrite (He a (or_introl eq_refl)).
  assert (Ht : forall x, In x t -> key1 x = key2 x).
  { intros x Hx. apply He. now right. }
  destruct (existsb (key_eqb (key2 a)) seen); now rewrite IH.
Qed.

Lemma filter_none {A : Type} (f : A -> bool) l :
  Forall (fun x => f x = false) l -> filter f l = [].
Proof.
  induction 1 as [|x t Hx _ IH]; simpl; [reflexivity|]. now rewrite Hx.
Qed.

Lemma drop_duplicates_ok subset df :
  (rows df <> [] ->
   has_column subset df = true /\
   forallb hashable (column df subset) = true) ->
  drop_duplicates subset df =
  Ok {| columns := columns df;
        rows := keep_first (fun r => cell r subset) [] (rows df) |}.
Proof.
  destruct df as [cols rs]. unfold drop_duplicates. cbn [rows columns].
  intros H. destruct rs as [|r t]; [reflexivity|].
  destruct H as [Hc Hh]; [discriminate|].
  destruct cols as [|c cs]; [discriminate Hc|]. now rewrite Hc, Hh.
Qed.

(** What [drop_duplicates] returns, when it returns. *)
Lemma drop_duplicates_inv subset df out :
  drop_duplicates subset df = Ok out ->
  out = {| columns := columns df;
           rows := match columns df with
                   | [] => rows df
                   | _ :: _ => keep_first (fun r => cell r subset) [] (rows df)
                   end |}.
Proof.
  destruct df as [cols rs]. unfold drop_duplicates. cbn [rows columns].
  destruct rs as [|r t]; [intros [= <-]; now destruct cols|].
  destruct cols as [|c cs]; [now intros [= <-]|].
  destruct (has_column subset _); [|discriminate].
  destruct (forallb hashable _); [|discriminate].
  now intros [= <-].
Qed.

Lemma distinct_NoDup l : distinct l = true -> NoDup l.
Proof.
  induction l as [|c t IH]; cbn [distinct]; [constructor|].
  intros H. apply andb_true_iff in H as [Hc Ht].
  constructor; [|now apply IH].
  intros Hin. apply negb_true_iff in Hc.
  assert (E : existsb (String.eqb c) t = true).
  { apply existsb_exists. exists c. split; [exact Hin | apply String.eqb_refl]. }
  congruence.
Qed.

Lemma distinct_app_l a b : distinct (a ++ b) = true -> distinct a = true.
Proof.
  induction a as [|c t IH]; [reflexivity|]. cbn [app distinct].
  intros H. apply andb_true_iff in H as [Hc Ht].
  rewrite (IH Ht), andb_true_r. rewrite existsb_app in Hc.
  apply negb_true_iff in Hc. apply orb_false_iff in Hc as [Hc _].
  now rewrite Hc.
Qed.

Lemma filter_eqb_none c (l : list string) :
  existsb (String.eqb c) l = false -> filter (String.eqb c) l = [].
Proof.
  induction l as [|x t IH]; [reflexivity|]. cbn [existsb filter].
  intros H. apply orb_false_iff in H as [Hx Ht]. now rewrite Hx, IH.
Qed.

(** A label that occurs, in a frame of distinct labels, names one column. *)
Lemma key_label_ok c df :
  distinct (columns df) = true -> has_column c df = true ->
  key_label c df = Ok tt.
Proof.
  unfold key_label, has_column.
  induction (columns df) as [|x t IH]; [discriminate|].
  cbn [distinct existsb filter]. intros Hd Hc.
  apply andb_true_iff in Hd as [Hx Ht]. apply negb_true_iff in Hx.
  destruct (c =? x)%string eqn:E.
  - apply String.eqb_eq in E. subst x. now rewrite (filter_eqb_none c t Hx).
  - cbn [orb] in Hc. now apply IH.
Qed.

Lemma texts_are_objects l :
  forallb is_text l = true -> column_dtype l = DObject.
Proof.
  destruct l as [|v t]; [reflexivity|]. cbn [forallb].
  intros H. apply andb_true_iff in H as [Hv _].
  destruct v; try discriminate. reflexivity.
Qed.

Lemma keys_clash_texts lk rk :
  forallb is_text lk = true -> forallb is_text rk = true ->
  keys_clash lk rk = false.
Proof.
  intros Hl Hr. unfold keys_clash.
  rewrite (texts_are_objects lk Hl), (texts_are_objects rk Hr).
  destruct lk, rk; reflexivity.
Qed.

Lemma texts_hashable l : forallb is_text l = true -> forallb hashable l = true.
Proof.
  rewrite !forallb_forall. intros H v Hv. specialize (H v Hv).
  now destruct v.
Qed.

Lemma existsb_eqb_in c (l : list string) :
  existsb (String.eqb c) l = true <-> In c l.
Proof.
  rewrite existsb_exists. split.
  - intros [x [Hx E]]. apply String.eqb_eq in E. now subst.
  - intros H. exists c. split; [exact H | apply String.eqb_refl].
Qed.

Lemma new_duplicates_none relabel cols :
  forall before,
    NoDup (map relabel (before ++ cols)) ->
    new_duplicates relabel before cols = [].
Proof.
  induction cols as [|c t IH]; intros before Hnd; [reflexivity|].
  cbn [new_duplicates].
  assert (E : existsb (String.eqb (relabel c)) (map relabel before) = false).
  { destruct (existsb _ _) eqn:E; [|reflexivity].
    apply existsb_eqb_in in E. rewrite map_app in Hnd. cbn [map] in Hnd.
    apply NoDup_remove_2 in Hnd. exfalso. apply Hnd.
    apply in_or_app. now left. }
  rewrite E. cbn [andb app]. apply IH.
  now rewrite <- app_assoc.
Qed.

(** Distinct labels in the joined frame: the suffix duplicates nothing. *)
Lemma suffix_duplicates_none lcols rcols suffix :
  distinct (lcols ++ map (suffixed lcols suffix) rcols) = true ->
  suffix_duplicates lcols rcols suffix = [].
Proof.
  intros H. apply distinct_NoDup in H. unfold suffix_duplicates.
  rewrite new_duplicates_none by (cbn [app]; now apply NoDup_app_remove_l in H).
  cbn [app]. apply filter_none. rewrite Forall_forall. intros c Hc.
  destruct (existsb (String.eqb c) lcols) eqn:E; [|reflexivity].
  exfalso. apply existsb_eqb_in in E.
  revert H Hc E. generalize (map (suffixed lcols suffix) rcols). intros rl.
  induction lcols as [|x t IH]; cbn [app]; [tauto|].
  intros Hnd Hc [<-|Hin].
  - inversion Hnd as [|? ? Hx _]; subst. apply Hx. apply in_or_app. now right.
  - inversion Hnd; subst. now apply IH.
Qed.

Lemma merge_left_ok left right on suffix :
  key_label on right = Ok tt -> key_label on left = Ok tt ->
  forallb is_text (column left on) = true ->
  forallb is_text (column right on) = true ->
  distinct (columns left ++
            map (suffixed (columns left) suffix)
                (filter (fun c => negb (c =? on)%string) (columns right))) =
    true ->
  merge_left left right on suffix =
  Ok {| columns :=
          columns left ++
          map (suffixed (columns left) suffix)
              (filter (fun c => negb (c =? on)%string) (columns right));
        rows := flat_map (joined on suffix left right) (rows left) |}.
Proof.
  intros Hr Hl Htl Htr Hd. unfold merge_left. rewrite Hr, Hl. cbn [bind].
  rewrite (keys_clash_texts _ _ Htl Htr).
  assert (Hh : forallb hashable (column left on ++ column right on) = true).
  { rewrite forallb_app, (texts_hashable _ Htl), (texts_hashable _ Htr).
    reflexivity. }
  rewrite Hh, andb_false_r. cbv zeta.
  now rewrite (suffix_duplicates_none _ _ _ Hd).
Qed.

(** What [merge] returns, when it returns. *)
Lemma merge_left_inv left right on suffix out :
  merge_left left right on suffix = Ok out ->
  out =
  {| columns :=
       columns left ++
       map (suffixed (columns left) suffix)
           (filter (fun c => negb (c =? on)%string) (columns right));
     rows := flat_map (joined on suffix left right) (rows left) |}.
Proof.
  unfold merge_left.
  destruct (key_label on right); cbn [bind]; [|discriminate].
  destruct (key_label on left); cbn [bind]; [|discriminate].
  destruct (keys_clash _ _); [discriminate|].
  destruct (_ && _); [discriminate|]. cbv zeta.
  destruct (suffix_duplicates _ _ _); [|discriminate].
  now intros [= <-].
Qed.

Lemma NoDup_map_eq {A B : Type} (f : A -> B) l a b :
  NoDup (map f l) -> In a l -> In b l -> f a = f b -> a = b.
Proof.
  induction l as [|x t IH]; simpl; [tauto|].
  intros Hnd Ha Hb E. inversion Hnd as [|? ? Hx Hnd']; subst.
  destruct Ha as [<-|Ha]; destruct Hb as [<-|Hb].
  - reflexivity.
  - exfalso. apply Hx. rewrite E. now apply in_map.
  - exfalso. apply Hx. rewrite <- E. now apply in_map.
  - now apply IH.
Qed.

(** ** Steps that write files *)

Lemma snd_io_bind {A B : Type} (m : io A) (k : A -> io B) :
  snd (io_bind m k) =
  match snd m with
  | Ok a => snd (k a)
  | Raise e => Raise e
  end.
Proof.
  destruct m as [w [a|e]]; [|reflexivity].
  cbn [io_bind snd]. now destruct (k a).
Qed.

Lemma snd_meta_dump env df :
  dump_ok env = true ->
  snd (if (log_level env <=? DEBUG)%Z
       then df_to_csv_file env df "meta.csv" else io_ret tt) = Ok tt.
Proof.
  unfold dump_ok, df_to_csv_file.
  destruct (log_level env <=? DEBUG)%Z; [|reflexivity].
  cbn [negb orb]. now intros ->.
Qed.

(** * The metadata loader: [_parse_json_metadata] *)

Section Loader.

(** The source's reading of a licence value is the spec's. *)
Lemma parse_meta_entry_extracted (m : list (string * pyval)) k key :
  _parse_meta_entry
    (match lookup k m with Some v => v | None => PDict [] end) key =
  extracted (lookup k m) key.
Proof.
  unfold _parse_meta_entry, extracted, entries, extract, field.
  destruct (lookup k m) as [v|]; [|reflexivity].
  destruct v; reflexivity.
Qed.

Lemma join_texts sep l :
  forallb is_text l = true -> join sep l = Ok (String.concat sep (texts l)).
Proof.
  intros H. unfold join.
  assert (E : strs l = Ok (texts l)).
  { induction l as [|v t IH]; [reflexivity|].
    cbn [forallb] in H. apply andb_true_iff in H as [Hv Ht].
    destruct v; try discriminate. cbn [strs]. rewrite (IH Ht). reflexivity. }
  now rewrite E.
Qed.

Lemma join_not_texts sep l :
  forallb is_text l = false -> join sep l = Raise TypeError.
Proof.
  intros H. unfold join.
  assert (E : strs l = Raise TypeError).
  { induction l as [|v t IH]; [discriminate|].
    cbn [forallb] in H. destruct v; try reflexivity.
    cbn [is_text andb] in H. cbn [strs]. now rewrite (IH H). }
  now rewrite E.
Qed.

(** One turn of the loop appends the cells of the entry's row. *)
Lemma parse_item_row d item :
  parse_item d item = (rw <- item_row item ;; Ok (push rw d)).
Proof.
  unfold parse_item, item_row. destruct item as [k pkg].
  repeat match goal with
  | |- context [bind ?e _] =>
      match e with
      | get _ _ _ => destruct e; cbn [bind]; [|reflexivity]
      | join _ _ => destruct e; cbn [bind]; [|reflexivity]
      end
  end.
  reflexivity.
Qed.

Lemma item_row_shaped item :
  shaped item = true -> item_row item = Ok (entry_row item).
Proof.
  unfold shaped, item_row, entry_row. destruct item as [k pkg].
  cbn [fst snd]. destruct pkg as [| | | | | |pkg]; try discriminate.
  cbn [get bind as_dict]. fold (field pkg "name"). fold (field pkg "pname").
  fold (field pkg "version").
  unfold meta_of. destruct (lookup "meta" pkg) as [meta|].
  - destruct meta as [| | | | | |m]; try discriminate.
    intros H. apply andb_true_iff in H as [H H3].
    apply andb_true_iff in H as [H1 H2].
    cbn [get bind]. rewrite !parse_meta_entry_extracted.
    rewrite (join_texts _ _ H1), (join_texts _ _ H2), (join_texts _ _ H3).
    reflexivity.
  - intros _. reflexivity.
Qed.

Lemma item_row_unshaped item :
  shaped item = false ->
  item_row item = Raise AttributeError \/ item_row item = Raise TypeError.
Proof.
  unfold shaped, item_row. destruct item as [k pkg].
  cbn [fst snd]. destruct pkg as [| | | | | |pkg]; try (left; reflexivity).
  cbn [get bind].
  unfold meta_of. destruct (lookup "meta" pkg) as [meta|]; [|discriminate].
  destruct meta as [| | | | | |m]; try (left; reflexivity).
  intros H. cbn [get bind]. rewrite !parse_meta_entry_extracted. right.
  destruct (forallb is_text (extracted (lookup "license" m) "shortName"))
    eqn:E1; [|now rewrite (join_not_texts _ _ E1)].
  rewrite (join_texts _ _ E1). cbn [bind].
  destruct (forallb is_text (extracted (lookup "license" m) "spdxId"))
    eqn:E2; [|now rewrite (join_not_texts _ _ E2)].
  rewrite (join_texts _ _ E2). cbn [bind].
  cbn [andb] in H. now rewrite (join_not_texts _ _ H).
Qed.

End Loader.

Section LoaderTable.

Lemma push_first item : push (entry_row item) [] = cols_of [entry_row item].
Proof. reflexivity. Qed.

Lemma push_next item rs :
  push (entry_row item) (cols_of rs) = cols_of (rs ++ [entry_row item]).
Proof.
  unfold cols_of, meta_columns. cbn [map]. rewrite !map_app. reflexivity.
Qed.

Lemma loop_shaped_from rs its :
  Forall (fun item => shaped item = true) its ->
  foldM parse_item (cols_of rs) its = Ok (cols_of (rs ++ map entry_row its)).
Proof.
  intros H. revert rs. induction H as [|item t Hi _ IH]; intros rs.
  - cbn. now rewrite app_nil_r.
  - cbn [foldM map]. rewrite parse_item_row, (item_row_shaped _ Hi).
    cbn [bind]. rewrite push_next, IH, <- app_assoc. reflexivity.
Qed.

(** The dict of columns after the loop: none before the first entry. *)
Lemma loop_shaped its :
  Forall (fun item => shaped item = true) its ->
  foldM parse_item [] its =
  Ok (match its with [] => [] | _ :: _ => cols_of (map entry_row its) end).
Proof.
  intros H. destruct its as [|item t]; [reflexivity|].
  inversion H as [|? ? Hi Ht]; subst.
  cbn [foldM]. rewrite parse_item_row, (item_row_shaped _ Hi). cbn [bind].
  rewrite push_first. now rewrite (loop_shaped_from _ _ Ht).
Qed.

Lemma loop_unshaped its :
  Exists (fun item => shaped item = false) its ->
  forall d,
    foldM parse_item d its = Raise AttributeError \/
    foldM parse_item d its = Raise TypeError.
Proof.
  induction its as [|item t IH]; intros H d; [inversion H|].
  cbn [foldM]. rewrite parse_item_row.
  destruct (shaped item) eqn:E.
  - rewrite (item_row_shaped _ E). cbn [bind]. apply IH.
    inversion H as [? ? Hx|? ? Hx]; subst; [congruence | exact Hx].
  - destruct (item_row_unshaped _ E) as [-> | ->]; [left | right]; reflexivity.
Qed.

Lemma row_of_cells (r : row) :
  map fst r = meta_columns -> map (fun c => (c, cell r c)) meta_columns = r.
Proof.
  unfold meta_columns. intros H.
  repeat (destruct r as [|[? ?] r]; [discriminate H|];
          cbn [map fst] in H; injection H as -> H).
  destruct r; [reflexivity | discriminate H].
Qed.

Lemma rows_of_columns rs :
  Forall (fun r => map fst r = meta_columns) rs ->
  map (fun i => map (fun kc => (fst kc, nth i (snd kc) PNone)) (cols_of rs))
      (seq 0 (List.length rs)) = rs.
Proof.
  induction 1 as [|r t Hr _ IH]; [reflexivity|].
  cbn [List.length seq map]. f_equal.
  - unfold cols_of. rewrite map_map. cbn [fst snd map nth].
    apply (row_of_cells r Hr).
  - rewrite <- seq_shift, map_map. rewrite <- IH at 2.
    apply map_ext. intros i. unfold cols_of. rewrite !map_map.
    apply map_ext. intros c. reflexivity.
Qed.

Lemma from_dict_cols rs :
  Forall (fun r => map fst r = meta_columns) rs ->
  from_dict (cols_of rs) = Ok {| columns := meta_columns; rows := rs |}.
Proof.
  intros H. unfold from_dict.
  assert (Hn : match cols_of rs with
               | [] => 0
               | (_, col) :: _ => List.length col
               end = List.length rs).
  { unfold cols_of, meta_columns. cbn [map]. apply length_map. }
  rewrite Hn.
  assert (Hl : forallb (fun kc => (List.length (snd kc) =? List.length rs)%nat)
                 (cols_of rs) = true).
  { unfold cols_of. rewrite forallb_forall. intros kc Hkc.
    apply in_map_iff in Hkc as [c [<- _]]. cbn [snd].
    rewrite length_map. apply Nat.eqb_refl. }
  rewrite Hl. f_equal.
  change (map fst (cols_of rs)) with meta_columns. f_equal.
  apply (rows_of_columns rs H).
Qed.

Lemma entry_rows_labels its :
  Forall (fun r => map fst r = meta_columns) (map entry_row its).
Proof. rewrite Forall_map. rewrite Forall_forall. intros item _. reflexivity. Qed.

(** The loader on a catalog of readable entries, and on one with an entry
    it cannot read. *)
Lemma loader_shaped json_loads read_file path text its :
  read_text read_file path = Ok text ->
  json_loads text = Some (PDict its) ->
  Forall (fun item => shaped item = true) its ->
  _parse_json_metadata json_loads read_file path =
  Ok {| columns := match its with [] => [] | _ :: _ => meta_columns end;
        rows := map entry_row its |}.
Proof.
  intros Hf Hj Hs. unfold _parse_json_metadata. rewrite Hf. cbn [bind].
  rewrite Hj. cbn [items bind]. rewrite (loop_shaped _ Hs). cbn [bind].
  destruct its as [|item t]; [reflexivity|].
  apply from_dict_cols, entry_rows_labels.
Qed.

Lemma loader_unshaped json_loads read_file path text its :
  read_text read_file path = Ok text ->
  json_loads text = Some (PDict its) ->
  Exists (fun item => shaped item = false) its ->
  _parse_json_metadata json_loads read_file path = Raise AttributeError \/
  _parse_json_metadata json_loads read_file path = Raise TypeError.
Proof.
  intros Hf Hj Hs. unfold _parse_json_metadata. rewrite Hf. cbn [bind].
  rewrite Hj. cbn [items bind].
  destruct (loop_unshaped _ Hs []) as [-> | ->]; [left | right]; reflexivity.
Qed.

End LoaderTable.

Lemma shaped_or_not its :
  Forall (fun item => shaped item = true) its \/
  Exists (fun item => shaped item = false) its.
Proof.
  induction its as [|item t [IH|IH]].
  - left. constructor.
  - destruct (shaped item) eqn:E.
    + left. now constructor.
    + right. now constructor.
  - right. now constructor.
Qed.

Lemma shaped_not_both its :
  Forall (fun item => shaped item = true) its ->
  Exists (fun item => shaped item = false) its -> False.
Proof.
  intros Hf He. rewrite Forall_forall in Hf. rewrite Exists_exists in He.
  destruct He as [item [Hin Hs]]. rewrite (Hf item Hin) in Hs. discriminate.
Qed.

(** A frame built from a dict of columns is well formed. *)
Lemma from_dict_wf d df : from_dict d = Ok df -> wf df.
Proof.
  unfold from_dict.
  destruct (forallb _ d); [|discriminate]. intros [= <-].
  unfold wf. cbn [rows columns]. rewrite Forall_map, Forall_forall.
  intros i _. rewrite map_map. reflexivity.
Qed.

Lemma loader_wf json_loads read_file path df :
  _parse_json_metadata json_loads read_file path = Ok df -> wf df.
Proof.
  unfold _parse_json_metadata.
  destruct (read_text read_file path) as [text|]; cbn [bind]; [|discriminate].
  destruct (json_loads text) as [v|]; [|discriminate].
  destruct (items v) as [its|]; cbn [bind]; [|discriminate].
  destruct (foldM parse_item [] its) as [d|]; cbn [bind]; [|discriminate].
  apply from_dict_wf.
Qed.

Lemma metadata_table_wf json_loads env meta_path right :
  metadata_table json_loads env meta_path = Ok (Some right) -> wf right.
Proof.
  unfold metadata_table. destruct meta_path as [path|]; [|discriminate].
  destruct (_parse_json_metadata json_loads (read_file env) path)
    as [df|] eqn:E; cbn [bind]; [|discriminate].
  intros [= <-]. exact (loader_wf _ _ _ _ E).
Qed.

Lemma loader_inv json_loads read_file path df :
  _parse_json_metadata json_loads read_file path = Ok df ->
  exists text its,
    read_text read_file path = Ok text /\
    json_loads text = Some (PDict its) /\
    Forall (fun item => shaped item = true) its /\
    df = {| columns := match its with [] => [] | _ :: _ => meta_columns end;
            rows := map entry_row its |}.
Proof.
  intros H.
  destruct (read_text read_file path) as [text|e] eqn:Hf;
    [|unfold _parse_json_metadata in H; rewrite Hf in H; discriminate].
  destruct (json_loads text) as [v|] eqn:Hj;
    [|unfold _parse_json_metadata in H; rewrite Hf in H; cbn [bind] in H;
      rewrite Hj in H; discriminate].
  destruct v as [| | | | | |its];
    try (unfold _parse_json_metadata in H; rewrite Hf in H; cbn [bind] in H;
         rewrite Hj in H; discriminate).
  exists text, its. split; [reflexivity|]. split; [exact Hj|].
  destruct (shaped_or_not its) as [Hs|Hs].
  - split; [exact Hs|].
    rewrite (loader_shaped _ _ _ _ _ Hf Hj Hs) in H. now injection H.
  - destruct (loader_unshaped _ _ _ _ _ Hf Hj Hs) as [E|E];
      rewrite E in H; discriminate.
Qed.

Lemma loader_empty json_loads read_file path text :
  read_text read_file path = Ok text ->
  json_loads text = Some (PDict []) ->
  _parse_json_metadata json_loads read_file path =
  Ok {| columns := []; rows := [] |}.
Proof.
  intros Hf Hj. unfold _parse_json_metadata. rewrite Hf. cbn [bind].
  rewrite Hj. reflexivity.
Qed.

(** A loaded table with a [name] column has the nine metadata columns. *)
Lemma loaded_columns json_loads env meta_path right :
  metadata_table json_loads env meta_path = Ok (Some right) ->
  has_column "name" right = true ->
  columns right = meta_columns.
Proof.
  unfold metadata_table. destruct meta_path as [path|]; [|discriminate].
  destruct (_parse_json_metadata json_loads (read_file env) path)
    as [df|] eqn:E; cbn [bind]; [|discriminate].
  intros [= <-].
  destruct (loader_inv _ _ _ _ E) as (text & its & _ & _ & _ & ->).
  cbn [columns]. now destruct its.
Qed.

(** * The merge: [_generate_sbomdb] *)

Lemma forallb_over_map {A B : Type} (f : B -> bool) (g : A -> B) l :
  forallb f (map g l) = forallb (fun x => f (g x)) l.
Proof.
  induction l as [|a t IH]; [reflexivity|]. cbn [map forallb]. now rewrite IH.
Qed.

Lemma find_filter {A : Type} (p : A -> bool) l :
  find p l = match filter p l with [] => None | x :: _ => Some x end.
Proof.
  induction l as [|a t IH]; [reflexivity|]. cbn [find filter].
  destruct (p a); [reflexivity | exact IH].
Qed.

(** With a text as the name of [l], the rows that the join matches are the
    rows of that name. *)
Lemma key_eqb_text a b : is_text a = true -> key_eqb a b = pyval_eqb b a.
Proof.
  intros Ha. destruct (key_eqb a b) eqn:E.
  - apply (key_eqb_eq a b Ha) in E. subst. symmetry. apply pyval_eqb_refl.
  - destruct (pyval_eqb b a) eqn:E'; [|reflexivity].
    apply pyval_eqb_sound in E'. subst b. now rewrite key_eqb_refl in E.
Qed.

Lemma matches_first right l :
  is_text (cell l "name") = true ->
  first_match right l =
  match matches "name" l right with [] => None | m :: _ => Some m end.
Proof.
  intros Ht. unfold first_match, matches. rewrite find_filter.
  rewrite (filter_ext _ (fun m => key_eqb (cell l "name") (cell m "name")));
    [reflexivity|].
  intros m. symmetry. now apply key_eqb_text.
Qed.

(** The cells that the join appends, after normalisation. *)
Lemma norm_right_missing df_store rcols :
  norm (right_missing (columns df_store) "name" "_meta" rcols) =
  flat_map (fun c => if (c =? "name")%string then []
                     else [(meta_label df_store c, PStr "")]) rcols.
Proof.
  unfold norm, right_missing, replace_row.
  induction rcols as [|c t IH]; [reflexivity|]. cbn [filter flat_map].
  destruct (c =? "name")%string; cbn [negb map app]; now rewrite IH.
Qed.

Lemma norm_right_cells df_store m :
  norm (right_cells (columns df_store) "name" "_meta" m) =
  flat_map (fun kv => if (fst kv =? "name")%string then []
                      else [(meta_label df_store (fst kv), blank (snd kv))]) m.
Proof.
  unfold norm, right_cells, replace_row.
  induction m as [|[k v] t IH]; [reflexivity|]. cbn [filter flat_map fst snd].
  destruct (k =? "name")%string; cbn [negb map app fst snd]; rewrite IH;
    [reflexivity|].
  now destruct v.
Qed.

Section Merge.

Variable json_loads : string -> option pyval.
Variable env : Env.
Variable st : Store.
Variable meta_path : option string.
Variable df_meta : option DataFrame.

Local Abbreviation inv := (to_dataframe st).

(** The inventory is a frame whose store paths are texts, and the labels of
    the joined frame are pairwise distinct; the metadata table, when there is
    one, has loaded, can be joined on the name (both tables have the column,
    with texts as names), and its diagnostic dump, if asked for, can be
    written. *)
Hypothesis inv_wf : wf inv.
Hypothesis inv_paths : texts_under "store_path" inv = true.
Hypothesis labels : distinct (canonical_columns inv df_meta) = true.
Hypothesis meta_loaded :
  metadata_table json_loads env meta_path = Ok df_meta.
Hypothesis meta_keys :
  forall right, df_meta = Some right -> keyed_by_name inv right = true.
Hypothesis meta_dump : df_meta <> None -> dump_ok env = true.

Lemma inv_path_text l : In l (rows inv) -> is_text (path_of l) = true.
Proof.
  intros Hl. unfold texts_under in inv_paths.
  rewrite forallb_forall in inv_paths. exact (inv_paths l Hl).
Qed.

Lemma inv_paths_text : Forall (fun l => is_text (path_of l) = true) (rows inv).
Proof. rewrite Forall_forall. exact inv_path_text. Qed.

Lemma inv_row_has_path l : In l (rows inv) -> In "store_path" (map fst l).
Proof. intros Hl. apply text_cell_label, inv_path_text, Hl. Qed.

Lemma inv_norm_path l : In l (rows inv) -> path_of (norm l) = path_of l.
Proof. intros Hl. apply path_of_norm_text, inv_path_text, Hl. Qed.

Lemma inv_labels : distinct (columns inv) = true.
Proof.
  unfold canonical_columns in labels.
  destruct df_meta; [now apply distinct_app_l in labels | exact labels].
Qed.

Lemma keyed right :
  df_meta = Some right ->
  has_column "name" inv = true /\ has_column "name" right = true /\
  texts_under "name" inv = true /\ texts_under "name" right = true.
Proof.
  intros H. pose proof (meta_keys right H) as K. unfold keyed_by_name in K.
  apply andb_true_iff in K as [K K4]. apply andb_true_iff in K as [K K3].
  apply andb_true_iff in K as [K1 K2]. auto.
Qed.

Lemma inv_name_text right l :
  df_meta = Some right -> In l (rows inv) -> is_text (cell l "name") = true.
Proof.
  intros H Hl. destruct (keyed right H) as (_ & _ & K & _).
  unfold texts_under in K. rewrite forallb_forall in K. exact (K l Hl).
Qed.

(** Every row that the join gives for [l] starts with the cells of [l]. *)
Lemma joined_rows_shape l :
  exists x t,
    joined_rows inv df_meta l = (l ++ x) :: t /\
    Forall (fun y => exists x', y = l ++ x') t /\
    (df_meta = None -> x = [] /\ t = []).
Proof.
  unfold joined_rows. destruct df_meta as [right|].
  - unfold joined. destruct (matches "name" l right) as [|m ms].
    + eexists _, []. split; [reflexivity|]. split; [constructor | discriminate].
    + simpl. eexists _, _. split; [reflexivity|].
      split; [|discriminate].
      rewrite Forall_map. rewrite Forall_forall. intros y _. eauto.
  - exists [], []. rewrite app_nil_r. repeat split; constructor.
Qed.

Lemma canonical_row_shape l :
  exists extra,
    canonical_row inv df_meta l = norm l ++ extra /\
    (df_meta = None -> extra = []).
Proof.
  destruct (joined_rows_shape l) as [x [t [E [_ Hn]]]].
  unfold canonical_row. rewrite E. simpl. unfold norm.
  rewrite replace_row_app. eexists. split; [reflexivity|].
  intros H. destruct (Hn H) as [-> _]. reflexivity.
Qed.

Lemma canonical_row_path l :
  In l (rows inv) -> path_of (canonical_row inv df_meta l) = path_of l.
Proof.
  intros Hl. destruct (canonical_row_shape l) as [extra [-> _]].
  rewrite path_of_norm_app by (apply inv_row_has_path, Hl).
  apply inv_norm_path, Hl.
Qed.

Lemma joined_block l :
  In l (rows inv) ->
  exists t,
    map norm (joined_rows inv df_meta l) = canonical_row inv df_meta l :: t /\
    Forall (fun y => path_of y = path_of (canonical_row inv df_meta l)) t.
Proof.
  intros Hl. destruct (joined_rows_shape l) as [x [t [E [Ht _]]]].
  unfold canonical_row. rewrite E. simpl. eexists. split; [reflexivity|].
  rewrite Forall_map. eapply Forall_impl; [|exact Ht].
  intros y [x' ->]. unfold norm. rewrite !replace_row_app.
  rewrite !path_of_norm_app by (apply inv_row_has_path, Hl). reflexivity.
Qed.

(** The record of [l]: its cells blanked, then its metadata cells. *)
Lemma canonical_row_cells l :
  In l (rows inv) ->
  canonical_row inv df_meta l =
  blanked l ++ match df_meta with
               | None => []
               | Some df_right => metadata_cells inv df_right l
               end.
Proof.
  intros Hl. unfold canonical_row, joined_rows.
  assert (Ht : forall right, df_meta = Some right ->
                 is_text (cell l "name") = true).
  { intros right E. exact (inv_name_text right l E Hl). }
  destruct df_meta as [right|] eqn:E.
  - unfold metadata_cells, joined.
    rewrite (matches_first right l (Ht right eq_refl)).
    destruct (matches "name" l right) as [|m ms]; cbn [map hd]; unfold norm;
      rewrite replace_row_app; fold (norm l); rewrite blanked_norm; f_equal.
    + apply norm_right_missing.
    + apply norm_right_cells.
  - cbn [hd]. now rewrite app_nil_r, blanked_norm.
Qed.

Lemma kept_rows_raw : kept_rows inv = keep_first path_of [] (rows inv).
Proof.
  unfold kept_rows. apply keep_first_ext. intros l Hl.
  apply inv_norm_path, Hl.
Qed.

Lemma kept_rows_incl : incl (kept_rows inv) (rows inv).
Proof. apply subseq_incl, keep_first_subseq. Qed.

(** The store paths of the normalised joined rows are texts. *)
Lemma joined_paths_text :
  forallb hashable
    (map (fun r => cell r "store_path")
         (map norm (flat_map (joined_rows inv df_meta) (rows inv)))) = true.
Proof.
  apply texts_hashable. rewrite forallb_forall. intros v Hv.
  apply in_map_iff in Hv as [r [<- Hr]].
  apply in_map_iff in Hr as [j [<- Hj]].
  apply in_flat_map in Hj as [l [Hl Hj]].
  destruct (joined_rows_shape l) as [x [t [E [Ht _]]]]. rewrite E in Hj.
  assert (Hx : exists x', j = l ++ x').
  { destruct Hj as [<-|Hj]; [eauto|].
    rewrite Forall_forall in Ht. exact (Ht j Hj). }
  destruct Hx as [x' ->]. unfold norm. rewrite replace_row_app.
  fold (norm l). fold (path_of (norm l ++ replace_row (PStr "") x')).
  rewrite path_of_norm_app by (apply inv_row_has_path, Hl).
  rewrite (inv_norm_path l Hl). apply inv_path_text, Hl.
Qed.

Lemma inv_has_path : rows inv <> [] -> has_column "store_path" inv = true.
Proof.
  intros Hne. destruct (rows inv) as [|l t] eqn:E; [congruence|].
  assert (Hl : In l (rows inv)) by (rewrite E; now left).
  apply has_column_in. unfold wf in inv_wf. rewrite Forall_forall in inv_wf.
  rewrite <- (inv_wf l Hl). apply inv_row_has_path, Hl.
Qed.

(** The merge returns, and its rows are the canonical records of the kept
    inventory rows. *)
Lemma generate_rows :
  snd (_generate_sbomdb json_loads env st meta_path) =
  Ok {| columns := canonical_columns inv df_meta;
        rows := map (canonical_row inv df_meta) (kept_rows inv) |}.
Proof.
  assert (Hrows :
    keep_first (fun r => cell r "store_path") []
      (map norm (flat_map (joined_rows inv df_meta) (rows inv))) =
    map (canonical_row inv df_meta) (kept_rows inv)).
  { rewrite map_flat_map_rows.
    rewrite (keep_first_blocks _ _ (canonical_row inv df_meta))
      by (intros l Hl; apply (joined_block l Hl)).
    rewrite keep_first_map. rewrite kept_rows_raw. f_equal.
    apply keep_first_ext. intros l Hl. apply (canonical_row_path l Hl). }
  assert (Hne : forall rs : list row,
            map norm (flat_map (joined_rows inv df_meta) rs) <> [] ->
            rs <> []).
  { intros rs H ->. now apply H. }
  pose proof keyed as Hkeyed. pose proof inv_labels as Hlabels.
  pose proof inv_has_path as Hpath. pose proof joined_paths_text as Hjoined.
  assert (Hcolumns : forall right, df_meta = Some right ->
            has_column "name" right = true -> columns right = meta_columns).
  { intros right E. apply (loaded_columns json_loads env meta_path).
    now rewrite <- E. }
  unfold _generate_sbomdb, metadata_table in *. rewrite snd_io_bind.
  destruct meta_path as [path|].
  - destruct (_parse_json_metadata json_loads (read_file env) path)
      as [right|e] eqn:Hload; cbn [bind] in meta_loaded; [|discriminate].
    injection meta_loaded as <-.
    destruct (Hkeyed right eq_refl) as (Hn1 & Hn2 & Ht1 & Ht2).
    pose proof (Hcolumns right eq_refl Hn2) as Hcols.
    rewrite snd_io_bind. cbn [lift snd]. rewrite snd_io_bind.
    rewrite snd_meta_dump by (apply meta_dump; discriminate).
    rewrite merge_left_ok.
    + cbn [lift snd]. rewrite drop_duplicates_ok.
      * cbn [replace_nan columns rows]. f_equal. f_equal. exact Hrows.
      * cbn [replace_nan columns rows]. intros H. apply Hne in H. split.
        -- unfold has_column, replace_nan. cbn [columns].
           rewrite existsb_app.
           pose proof (Hpath H) as Hp. unfold has_column in Hp.
           now rewrite Hp.
        -- exact Hjoined.
    + unfold key_label. rewrite Hcols. reflexivity.
    + apply key_label_ok; [exact Hlabels | exact Hn1].
    + unfold column. rewrite forallb_over_map. exact Ht1.
    + unfold column. rewrite forallb_over_map. exact Ht2.
    + exact labels.
  - injection meta_loaded as <-. cbn [io_ret lift snd].
    assert (Hflat : flat_map (joined_rows inv None) (rows inv) = rows inv).
    { cbn [joined_rows]. clear. induction (rows inv) as [|a t IH];
        [reflexivity|]. cbn [flat_map app]. now rewrite IH. }
    rewrite drop_duplicates_ok.
    + cbn [replace_nan columns rows canonical_columns]. f_equal. f_equal.
      rewrite <- Hrows. now rewrite Hflat.
    + cbn [replace_nan columns rows]. intros H. split.
      * apply Hpath. intros E. rewrite E in H. now apply H.
      * rewrite Hflat in Hjoined. exact Hjoined.
Qed.

Lemma canonical_paths l_s :
  incl l_s (rows inv) ->
  map path_of (map (canonical_row inv df_meta) l_s) = map path_of l_s.
Proof.
  intros Hi. rewrite map_map. apply map_ext_in.
  intros l Hl. apply canonical_row_path, Hi, Hl.
Qed.

Lemma canonical_paths_NoDup :
  NoDup (map path_of (map (canonical_row inv df_meta) (kept_rows inv))).
Proof.
  rewrite (canonical_paths _ kept_rows_incl), kept_rows_raw.
  apply (keep_first_NoDup _ _ inv_paths_text). apply incl_refl.
Qed.

(** The first inventory row of a store path gives a row of the canonical
    set. *)
Lemma first_row_kept l pre post :
  rows inv = pre ++ l :: post ->
  Forall (fun l' => path_of l' <> path_of l) pre ->
  In (canonical_row inv df_meta l)
     (map (canonical_row inv df_meta) (kept_rows inv)).
Proof.
  intros Hinv Hpre. apply in_map. rewrite kept_rows_raw, Hinv.
  apply (first_kept _ _ inv_paths_text).
  - rewrite <- Hinv. apply incl_refl.
  - exact Hpre.
Qed.


(** C2, as amended: when the store paths of the inventory are texts and
    pairwise distinct, and the metadata table is absent or can be joined on
    the name (no row of it need have the name of an inventory row), the
    merge returns a canonical set that holds every inventory row exactly
    once and in inventory order: the cells of the row with the missing ones
    blanked, followed, when a metadata table is given, by the cells of the
    first catalog row of its name, or by an empty string for every metadata
    column when no catalog row has the name; without a metadata table the
    canonical set is the inventory table with its missing cells blanked. *)
Theorem C2_every_inventory_row_kept :
  NoDup (map path_of (rows inv)) ->
  exists canon,
    snd (_generate_sbomdb json_loads env st meta_path) = Ok canon /\
    Forall2 (fun l r =>
               r = blanked l ++
                   match df_meta with
                   | None => []
                   | Some df_right => metadata_cells inv df_right l
                   end)
            (rows inv) (rows canon) /\
    (df_meta = None ->
     canon = {| columns := columns inv; rows := map blanked (rows inv) |}).
Proof.
  intros Hnd. eexists. split; [apply generate_rows|].
  assert (Hk : kept_rows inv = rows inv).
  { rewrite kept_rows_raw.
    apply (keep_first_id _ _ inv_paths_text);
      [apply incl_refl | exact Hnd | intros x _ []]. }
  rewrite Hk. cbn [rows].
  assert (Hall : Forall2 (fun l r =>
                   r = blanked l ++
                       match df_meta with
                       | None => []
                       | Some df_right => metadata_cells inv df_right l
                       end)
                   (rows inv) (map (canonical_row inv df_meta) (rows inv))).
  { assert (Hi : incl (rows inv) (rows inv)) by apply incl_refl. revert Hi.
    generalize (rows inv) at 1 3 4. intros rs.
    induction rs as [|l t IH]; intros Hi; cbn [map]; constructor.
    - apply canonical_row_cells, Hi. now left.
    - apply IH. intros y Hy. apply Hi. now right. }
  split; [exact Hall|].
  intros E. rewrite E in *. cbn [canonical_columns]. f_equal.
  clear - Hall. induction Hall as [|l r t t' Hr _ IH]; [reflexivity|].
  cbn [map]. now rewrite Hr, app_nil_r, IH.
Qed.

(** C10, as amended: in a merge that returns (store paths and names that
    are texts, distinct labels in the joined frame), when the inventory row
    [l] is the first row of its store path and the catalog row [m] is the
    first of the name of [l], the left join gives one joined row per catalog
    row of that name, in catalog order, and the canonical record of that
    store path is [l] with the cells of [m], normalised; no other canonical
    record has this path. *)
Theorem C10_first_catalog_match_wins
  (right : DataFrame) (l m : row) (pre post mpre mpost : list row) :
  df_meta = Some right ->
  rows inv = pre ++ l :: post ->
  Forall (fun l' => path_of l' <> path_of l) pre ->
  rows right = mpre ++ m :: mpost ->
  Forall (fun m' => cell m' "name" <> cell l "name") mpre ->
  cell m "name" = cell l "name" ->
  exists canon rest,
    snd (_generate_sbomdb json_loads env st meta_path) = Ok canon /\
    matches "name" l right = m :: rest /\
    joined "name" "_meta" inv right l =
      map (fun m' => l ++ right_cells (columns inv) "name" "_meta" m')
          (m :: rest) /\
    In (norm (l ++ right_cells (columns inv) "name" "_meta" m)) (rows canon) /\
    forall r, In r (rows canon) -> path_of r = path_of l ->
      r = norm (l ++ right_cells (columns inv) "name" "_meta" m).
Proof.
  intros Hm Hinv Hpre Hright Hmpre Hmatch.
  assert (Hl : In l (rows inv)).
  { rewrite Hinv. apply in_or_app. right. now left. }
  pose proof (inv_name_text right l Hm Hl) as Htext.
  assert (Hms : matches "name" l right =
                m :: filter (fun m' => key_eqb (cell l "name") (cell m' "name"))
                            mpost).
  { unfold matches. rewrite Hright, filter_app. rewrite filter_none.
    - cbn [filter app]. rewrite <- Hmatch. now rewrite key_eqb_refl.
    - eapply Forall_impl; [|exact Hmpre]. intros m' Hne.
      destruct (key_eqb _ _) eqn:E; [|reflexivity].
      apply (key_eqb_eq _ _ Htext) in E. congruence. }
  assert (Hj : joined "name" "_meta" inv right l =
               map (fun m' => l ++ right_cells (columns inv) "name" "_meta" m')
                   (matches "name" l right)).
  { unfold joined. rewrite Hms. reflexivity. }
  assert (Hc : canonical_row inv df_meta l =
               norm (l ++ right_cells (columns inv) "name" "_meta" m)).
  { unfold canonical_row, joined_rows. rewrite Hm, Hj, Hms. reflexivity. }
  assert (Hin : In (norm (l ++ right_cells (columns inv) "name" "_meta" m))
                   (map (canonical_row inv df_meta) (kept_rows inv))).
  { rewrite <- Hc. exact (first_row_kept l pre post Hinv Hpre). }
  eexists _, _. split; [apply generate_rows|]. cbn [rows].
  split; [exact Hms|]. split; [rewrite Hj, Hms; reflexivity|].
  split; [exact Hin|].
  intros r Hr Hp.
  apply (NoDup_map_eq path_of _ _ _ canonical_paths_NoDup Hr Hin).
  rewrite Hp, <- Hc. symmetry. apply canonical_row_path, Hl.
Qed.

End Merge.

(** * The projection: [_df_row_to_cdx_component] *)

Section Projection.

Lemma split_not_nil sep s : split sep s <> [].
Proof.
  destruct s as [|c t]; simpl; [discriminate|].
  destruct (Ascii.eqb c sep); [discriminate|].
  destruct (split sep t); discriminate.
Qed.

Lemma split_plain sep s : mentions sep s = false -> split sep s = [s].
Proof.
  induction s as [|c t IH]; simpl; [reflexivity|].
  intros H. apply orb_false_iff in H as [Hc Ht].
  rewrite Hc, (IH Ht). reflexivity.
Qed.

Lemma split_append sep s rest :
  mentions sep s = false ->
  split sep (s +:+ String sep rest) = s :: split sep rest.
Proof.
  induction s as [|c t IH]; simpl.
  - intros _. now rewrite Ascii.eqb_refl.
  - intros H. apply orb_false_iff in H as [Hc Ht].
    rewrite Hc, (IH Ht). reflexivity.
Qed.

(** Splitting undoes joining when no segment holds the separator. *)
Lemma split_concat sep segs :
  segs <> [] ->
  Forall (fun seg => mentions sep seg = false) segs ->
  split sep (String.concat (String sep "") segs) = segs.
Proof.
  induction segs as [|x t IH]; [congruence|].
  intros _ Hs. inversion Hs as [|? ? Hx Ht]; subst.
  destruct t as [|y t'].
  - simpl. now apply split_plain.
  - change (String.concat (String sep "") (x :: y :: t'))
      with (x +:+ String sep (String.concat (String sep "") (y :: t'))).
    rewrite split_append by exact Hx.
    f_equal. apply IH; [discriminate | exact Ht].
Qed.

(** The four outcomes of reading the licence column. *)
Lemma licenses_absent r c t :
  lookup c r = None -> _licenses_entry_from_row r c t = Ok [].
Proof.
  intros H. unfold _licenses_entry_from_row, contains. now rewrite H.
Qed.

Lemma licenses_falsy r c t v :
  lookup c r = Some v -> truthy v = false ->
  _licenses_entry_from_row r c t = Ok [].
Proof.
  intros H Hv. unfold _licenses_entry_from_row, contains, getattr.
  rewrite H. cbn [negb bind]. now rewrite Hv.
Qed.

Lemma licenses_text r c t s :
  lookup c r = Some (PStr s) -> s <> "" ->
  _licenses_entry_from_row r c t =
  Ok (map (fun seg => PDict [("license", PDict [(t, PStr seg)])])
          (split ";"%char s)).
Proof.
  intros H Hs. unfold _licenses_entry_from_row, contains, getattr.
  rewrite H. cbn [negb bind truthy].
  apply String.eqb_neq in Hs. now rewrite Hs.
Qed.

Lemma licenses_not_text r c t v :
  lookup c r = Some v -> truthy v = true ->
  (forall s, v <> PStr s) ->
  _licenses_entry_from_row r c t = Raise AttributeError.
Proof.
  intros H Hv Hn. unfold _licenses_entry_from_row, contains, getattr.
  rewrite H. cbn [negb bind]. rewrite Hv. cbn [negb].
  destruct v; try reflexivity. now destruct (Hn s).
Qed.

(** What a returned component is made of. *)
Lemma component_inv r comp :
  _df_row_to_cdx_component r = Ok comp ->
  exists sp pn v purl cpe lic,
    lookup "store_path" r = Some sp /\
    lookup "pname" r = Some pn /\
    lookup "version" r = Some v /\
    purl_of pn v = Ok purl /\
    lookup "cpe" r = Some cpe /\
    _licenses_entry_from_row r "meta_license_short" "name" = Ok lic /\
    comp =
      [("type", PStr "application"); ("bom-ref", sp); ("name", pn);
       ("version", v); ("purl", PStr purl); ("cpe", cpe)] ++
      match lic with
      | [] => []
      | _ :: _ => [("licenses", PList lic)]
      end.
Proof.
  unfold _df_row_to_cdx_component, getattr, purl_of,
    _cdx_component_add_licenses.
  destruct (lookup "store_path" r) as [sp|]; cbn [bind]; [|discriminate].
  destruct (lookup "pname" r) as [pn|]; cbn [bind]; [|discriminate].
  destruct (lookup "version" r) as [v|]; cbn [bind]; [|discriminate].
  destruct (Purl.new (PStr "nix") pn v) as [pu|] eqn:E1; cbn [bind];
    [|discriminate].
  destruct (Purl.to_string pu) as [purl|] eqn:E2; cbn [bind]; [|discriminate].
  destruct (lookup "cpe" r) as [cpe|]; cbn [bind]; [|discriminate].
  destruct (_licenses_entry_from_row r "meta_license_short" "name")
    as [lic|]; cbn [bind]; [|discriminate].
  intros H. exists sp, pn, v, purl, cpe, lic.
  repeat split; try reflexivity.
  - rewrite E1. exact E2.
  - destruct lic; injection H as <-; reflexivity.
Qed.

Lemma component_make r sp pn v purl cpe lic :
  lookup "store_path" r = Some sp ->
  lookup "pname" r = Some pn ->
  lookup "version" r = Some v ->
  purl_of pn v = Ok purl ->
  lookup "cpe" r = Some cpe ->
  _licenses_entry_from_row r "meta_license_short" "name" = Ok lic ->
  _df_row_to_cdx_component r =
  Ok ([("type", PStr "application"); ("bom-ref", sp); ("name", pn);
       ("version", v); ("purl", PStr purl); ("cpe", cpe)] ++
      match lic with
      | [] => []
      | _ :: _ => [("licenses", PList lic)]
      end).
Proof.
  intros Hsp Hpn Hv Hpurl Hcpe Hlic.
  unfold _df_row_to_cdx_component, getattr, _cdx_component_add_licenses.
  unfold purl_of in Hpurl.
  rewrite Hsp, Hpn, Hv. cbn [bind].
  destruct (Purl.new (PStr "nix") pn v) as [pu|]; cbn [bind] in *;
    [|discriminate].
  rewrite Hpurl, Hcpe, Hlic. cbn [bind].
  destruct lic; reflexivity.
Qed.

End Projection.

(** ** Package URLs of plain names and versions *)

Section PurlFacts.

Lemma unreserved_not_space c : Purl.unreserved c = true -> isspace c = false.
Proof.
  destruct c as [[] [] [] [] [] [] [] []]; vm_compute; congruence.
Qed.

Lemma unreserved_not_slash c :
  Purl.unreserved c = true -> Ascii.eqb c "/"%char = false.
Proof.
  destruct c as [[] [] [] [] [] [] [] []]; vm_compute; congruence.
Qed.

Lemma rstrip_keeps p s :
  (forall c, Purl.unreserved c = true -> p c = false) ->
  plain s = true -> rstrip p s = s.
Proof.
  intros Hp. induction s as [|c t IH]; simpl; [reflexivity|].
  intros H. apply andb_true_iff in H as [Hc Ht].
  rewrite (IH Ht). destruct t; [now rewrite (Hp c Hc) | reflexivity].
Qed.

Lemma lstrip_keeps p s :
  (forall c, Purl.unreserved c = true -> p c = false) ->
  plain s = true -> lstrip p s = s.
Proof.
  intros Hp. destruct s as [|c t]; simpl; [reflexivity|].
  intros H. apply andb_true_iff in H as [Hc _]. now rewrite (Hp c Hc).
Qed.

Lemma unreserved_not_space2 c b :
  Purl.unreserved c = true -> isspace2 c b = false.
Proof.
  destruct c as [[] [] [] [] [] [] [] []]; vm_compute; congruence.
Qed.

Lemma unreserved_not_space3 c b d :
  Purl.unreserved c = true -> isspace3 c b d = false.
Proof.
  destruct c as [[] [] [] [] [] [] [] []]; vm_compute; congruence.
Qed.

Lemma plain_not_space_char c t :
  Purl.unreserved c = true -> is_space_char (String c t) = false.
Proof.
  intros H. destruct t as [|b [|d [|e t]]]; cbn [is_space_char].
  - now apply unreserved_not_space.
  - now apply unreserved_not_space2.
  - now apply unreserved_not_space3.
  - reflexivity.
Qed.

Lemma lstrip_space_plain s : plain s = true -> lstrip_space s = s.
Proof.
  destruct s as [|c t]; [reflexivity|]. cbn [plain lstrip_space].
  intros H. apply andb_true_iff in H as [Hc _].
  rewrite (unreserved_not_space c Hc).
  destruct t as [|b t2]; [reflexivity|].
  rewrite (unreserved_not_space2 c b Hc).
  destruct t2 as [|d t3]; [reflexivity|].
  now rewrite (unreserved_not_space3 c b d Hc).
Qed.

Lemma rstrip_space_plain s : plain s = true -> rstrip_space s = s.
Proof.
  induction s as [|c t IH]; [reflexivity|]. cbn [plain rstrip_space].
  intros H. apply andb_true_iff in H as [Hc Ht].
  rewrite (IH Ht). cbv zeta. now rewrite (plain_not_space_char c t Hc).
Qed.

Lemma strip_plain s : plain s = true -> strip s = s.
Proof.
  intros H. unfold strip. rewrite (lstrip_space_plain s H).
  apply (rstrip_space_plain s H).
Qed.

Lemma strip_slash_plain s : plain s = true -> strip_slash s = s.
Proof.
  intros H. unfold strip_slash, strip_by.
  rewrite (lstrip_keeps _ _ unreserved_not_slash H).
  apply (rstrip_keeps _ _ unreserved_not_slash H).
Qed.

Lemma quote_plain s : plain s = true -> Purl.quote s = s.
Proof.
  induction s as [|c t IH]; simpl; [reflexivity|].
  intros H. apply andb_true_iff in H as [Hc Ht].
  unfold Purl.quote_char. rewrite Hc, (IH Ht). reflexivity.
Qed.

Lemma quoter_plain e s : plain s = true -> Purl.quoter e s = s.
Proof. intros H. destruct e; [now apply quote_plain | reflexivity]. Qed.

Lemma append_empty_r s : s +:+ "" = s.
Proof. induction s as [|c t IH]; simpl; [reflexivity | now rewrite IH]. Qed.

Lemma normalize_name_plain e n :
  plain n = true -> n <> "" -> Purl.normalize_name e (Some n) = Some n.
Proof.
  intros Hp Hn. unfold Purl.normalize_name, Purl.or_none.
  rewrite (quoter_plain e n Hp), (strip_plain n Hp), (strip_slash_plain n Hp).
  apply String.eqb_neq in Hn. now rewrite Hn.
Qed.

Lemma normalize_version_plain e v :
  plain v = true -> v <> "" -> Purl.normalize_version e (Some v) = Some v.
Proof.
  intros Hp Hv. unfold Purl.normalize_version, Purl.or_none.
  rewrite (strip_plain v Hp), (quoter_plain e v Hp).
  apply String.eqb_neq in Hv. now rewrite Hv.
Qed.

Lemma purl_of_plain n v :
  plain n = true -> n <> "" -> plain v = true -> v <> "" ->
  purl_of (PStr n) (PStr v) = Ok ("pkg:nix/" +:+ n +:+ "@" +:+ v).
Proof.
  intros Hn Hn0 Hv Hv0. unfold purl_of, Purl.new.
  assert (Ht : truthy (PStr n) = true).
  { cbn [truthy]. apply String.eqb_neq in Hn0. now rewrite Hn0. }
  rewrite Ht. cbn [truthy negb orb Purl.string_arg bind].
  change (negb ("nix" =? "")%string) with true. cbn [negb orb].
  rewrite normalize_name_plain, normalize_version_plain by assumption.
  cbn [bind]. unfold Purl.to_string.
  cbn [Purl.purl_type Purl.purl_name Purl.purl_version].
  rewrite normalize_name_plain, normalize_version_plain by assumption.
  reflexivity.
Qed.

Lemma purl_of_no_version n :
  plain n = true -> n <> "" ->
  purl_of (PStr n) (PStr "") = Ok ("pkg:nix/" +:+ n).
Proof.
  intros Hn Hn0. unfold purl_of, Purl.new.
  assert (Ht : truthy (PStr n) = true).
  { cbn [truthy]. apply String.eqb_neq in Hn0. now rewrite Hn0. }
  rewrite Ht. cbn [truthy negb orb Purl.string_arg bind].
  change (negb ("nix" =? "")%string) with true. cbn [negb orb].
  rewrite normalize_name_plain by assumption.
  cbn [bind]. unfold Purl.to_string.
  cbn [Purl.purl_type Purl.purl_name Purl.purl_version].
  rewrite normalize_name_plain by assumption.
  change (Purl.normalize_version true (Purl.normalize_version false (Some "")))
    with (@None string).
  change (Purl.normalize_type true (Purl.normalize_type false (Some "nix")))
    with (Some "nix").
  cbv iota beta. rewrite append_empty_r. reflexivity.
Qed.

End PurlFacts.

(** * The claims about the projection *)

Section ProjectionClaims.

Lemma concat_not_empty sep x t :
  x <> "" -> String.concat sep (x :: t) <> "".
Proof.
  intros Hx. destruct x as [|c x']; [congruence|].
  destruct t; simpl; discriminate.
Qed.

Lemma licenses_of_component r comp lic :
  _df_row_to_cdx_component r = Ok comp ->
  _licenses_entry_from_row r "meta_license_short" "name" = Ok lic ->
  lookup "licenses" comp =
  match lic with [] => None | _ :: _ => Some (PList lic) end.
Proof.
  intros Hc Hl. apply component_inv in Hc
    as (sp & pn & v & purl & cpe & lic' & _ & _ & _ & _ & _ & Hl' & ->).
  rewrite Hl in Hl'. injection Hl' as <-.
  destruct lic; reflexivity.
Qed.

(** C3, as amended: a projected component has no [licenses] key when the
    short-licence cell is absent or empty; when the cell is a non-empty text
    the [licenses] list has one entry [{license: {name: segment}}] for every
    segment that splitting the text on [;] gives, in order, the empty
    segments included; so a cell of N semicolon-joined non-empty segments
    gives exactly these N entries; an empty list is never emitted. *)
Theorem C3_licenses_per_segment (r : row) (comp : list (string * pyval)) :
  _df_row_to_cdx_component r = Ok comp ->
  (lookup "meta_license_short" r = None -> lookup "licenses" comp = None) /\
  (forall v, lookup "meta_license_short" r = Some v -> truthy v = false ->
     lookup "licenses" comp = None) /\
  (forall s, lookup "meta_license_short" r = Some (PStr s) -> s <> "" ->
     lookup "licenses" comp =
     Some (PList (map license_entry (split ";"%char s)))) /\
  (forall segs,
     segs <> [] ->
     Forall (fun seg => seg <> "" /\ mentions ";"%char seg = false) segs ->
     lookup "meta_license_short" r = Some (PStr (String.concat ";" segs)) ->
     lookup "licenses" comp = Some (PList (map license_entry segs)) /\
     List.length (map license_entry segs) = List.length segs) /\
  lookup "licenses" comp <> Some (PList []).
Proof.
  intros Hc.
  assert (Htext : forall s, lookup "meta_license_short" r = Some (PStr s) ->
            s <> "" ->
            lookup "licenses" comp =
            Some (PList (map license_entry (split ";"%char s)))).
  { intros s Hs Hne.
    rewrite (licenses_of_component _ _ _ Hc (licenses_text _ _ _ _ Hs Hne)).
    fold license_entry.
    change (fun seg : string => PDict [("license", PDict [("name", PStr seg)])])
      with license_entry.
    destruct (split ";"%char s) eqn:E; [|reflexivity].
    now destruct (split_not_nil _ _ E). }
  split; [|split; [|split; [|split]]].
  - intros H.
    now rewrite (licenses_of_component _ _ _ Hc (licenses_absent _ _ _ H)).
  - intros v H Hv.
    now rewrite (licenses_of_component _ _ _ Hc (licenses_falsy _ _ _ _ H Hv)).
  - exact Htext.
  - intros segs Hne Hsegs Hcell. split; [|apply length_map].
    destruct segs as [|x t]; [congruence|].
    assert (Hx : x <> "") by (inversion Hsegs; tauto).
    rewrite (Htext _ Hcell (concat_not_empty _ _ _ Hx)).
    rewrite split_concat; [reflexivity | discriminate|].
    eapply Forall_impl; [|exact Hsegs]. intros seg [_ Hm]. exact Hm.
  - destruct (component_inv _ _ Hc)
      as (sp & pn & v & purl & cpe & lic & _ & _ & _ & _ & _ & Hl & ->).
    destruct lic; cbv; discriminate.
Qed.

(** C5, as amended: a projected component has type ["application"], the
    installation path as [bom-ref], the short package name as [name], the
    version and the CPE cells verbatim, and as [purl] the text of
    [PackageURL("nix", pname, version)]; that text is exactly
    [pkg:nix/<pname>@<version>] when pname and version are non-empty texts of
    unreserved characters (so [pkg:nix/foo@1.2.3] for foo and 1.2.3), and
    [pkg:nix/<pname>] when the version is empty; for such records the
    projection returns. *)
Theorem C5_component_fields :
  (forall r comp,
     _df_row_to_cdx_component r = Ok comp ->
     lookup "type" comp = Some (PStr "application") /\
     lookup "bom-ref" comp = lookup "store_path" r /\
     lookup "name" comp = lookup "pname" r /\
     lookup "version" comp = lookup "version" r /\
     lookup "cpe" comp = lookup "cpe" r /\
     exists pn v purl,
       lookup "pname" r = Some pn /\ lookup "version" r = Some v /\
       purl_of pn v = Ok purl /\ lookup "purl" comp = Some (PStr purl)) /\
  (forall n v,
     plain n = true -> n <> "" -> plain v = true -> v <> "" ->
     purl_of (PStr n) (PStr v) = Ok ("pkg:nix/" +:+ n +:+ "@" +:+ v)) /\
  (forall n,
     plain n = true -> n <> "" ->
     purl_of (PStr n) (PStr "") = Ok ("pkg:nix/" +:+ n)) /\
  purl_of (PStr "foo") (PStr "1.2.3") = Ok "pkg:nix/foo@1.2.3" /\
  (forall r sp n v cpe,
     lookup "store_path" r = Some sp -> lookup "pname" r = Some (PStr n) ->
     lookup "version" r = Some (PStr v) -> lookup "cpe" r = Some cpe ->
     plain n = true -> n <> "" -> plain v = true ->
     (lookup "meta_license_short" r = None \/
      exists s, lookup "meta_license_short" r = Some (PStr s)) ->
     exists comp, _df_row_to_cdx_component r = Ok comp).
Proof.
  split; [|split; [|split; [|split]]].
  - intros r comp Hc. apply component_inv in Hc
      as (sp & pn & v & purl & cpe & lic & Hsp & Hpn & Hv & Hp & Hcpe & _ & ->).
    rewrite Hsp, Hpn, Hv, Hcpe. repeat split; try reflexivity.
    exists pn, v, purl. repeat split; try reflexivity. exact Hp.
  - exact purl_of_plain.
  - exact purl_of_no_version.
  - reflexivity.
  - intros r sp n v cpe Hsp Hpn Hv Hcpe Hn Hn0 Hpv Hlic.
    assert (Hp : exists purl, purl_of (PStr n) (PStr v) = Ok purl).
    { destruct v as [|c v'].
      - eexists. now apply purl_of_no_version.
      - eexists. apply purl_of_plain; try assumption. discriminate. }
    destruct Hp as [purl Hp].
    assert (Hl : exists lic,
              _licenses_entry_from_row r "meta_license_short" "name" = Ok lic).
    { destruct Hlic as [Hl|[s Hl]].
      - eexists. now apply licenses_absent.
      - destruct s as [|c s'].
        + eexists. eapply licenses_falsy; [exact Hl | reflexivity].
        + eexists. apply licenses_text; [exact Hl | discriminate]. }
    destruct Hl as [lic Hl].
    eexists. eapply component_make; eassumption.
Qed.

End ProjectionClaims.

(** * Missing values *)

Section MissingValues.

Lemma subseq_refl {A : Type} (l : list A) : subseq l l.
Proof. induction l; constructor; assumption. Qed.

Lemma keep_first_not_empty {A : Type} (key : A -> pyval) l :
  l <> [] -> keep_first key [] l <> [].
Proof. destruct l as [|a t]; [congruence|]. intros _. discriminate. Qed.

(** The two halves of the merge: the join, then the closing steps. *)
Lemma generate_inv json_loads env st meta_path canon :
  snd (_generate_sbomdb json_loads env st meta_path) = Ok canon ->
  exists df_joined,
    joined_table json_loads env st meta_path = Ok df_joined /\
    drop_duplicates "store_path" (replace_nan (PStr "") df_joined) = Ok canon.
Proof.
  unfold _generate_sbomdb, joined_table. rewrite snd_io_bind.
  destruct meta_path as [path|].
  - rewrite snd_io_bind. cbn [lift snd].
    destruct (_parse_json_metadata json_loads (read_file env) path)
      as [df|e]; cbn [bind]; [|discriminate].
    rewrite snd_io_bind.
    match goal with
    | |- match match ?x with _ => _ end with _ => _ end = _ -> _ =>
        destruct x as [written|e]; cbv beta iota; [|discriminate]
    end.
    cbn [lift snd].
    destruct (merge_left (to_dataframe st) df "name" "_meta") as [j|e];
      cbv beta iota; [|discriminate].
    intros H. exists j. split; [reflexivity | exact H].
  - cbn [io_ret lift snd]. intros H. eexists. split; [reflexivity | exact H].
Qed.

Lemma generate_normalised json_loads env st meta_path canon :
  snd (_generate_sbomdb json_loads env st meta_path) = Ok canon ->
  exists df_joined kept,
    joined_table json_loads env st meta_path = Ok df_joined /\
    columns canon = columns df_joined /\
    subseq kept (rows df_joined) /\
    (rows df_joined <> [] -> kept <> []) /\
    rows canon = map blanked kept.
Proof.
  intros H. destruct (generate_inv _ _ _ _ _ H) as (j & Hj & Hd).
  apply drop_duplicates_inv in Hd. subst canon.
  cbn [replace_nan columns rows].
  assert (Hb : forall l, map (replace_row (PStr "")) l = map blanked l).
  { intros l. apply map_ext. exact blanked_norm. }
  destruct (columns j) as [|c cs] eqn:Ec.
  - exists j, (rows j). split; [exact Hj|]. split; [now rewrite Ec|].
    split; [apply subseq_refl|]. split; [tauto | apply Hb].
  - rewrite keep_first_map, Hb.
    eexists j, _. split; [exact Hj|]. split; [now rewrite Ec|].
    split; [apply keep_first_subseq|]. split; [|reflexivity].
    apply keep_first_not_empty.
Qed.

Lemma blanked_no_missing r : no_missing (blanked r).
Proof. rewrite <- blanked_norm. apply norm_no_missing. Qed.

Lemma replace_nan_fixed canon :
  Forall no_missing (rows canon) -> replace_nan (PStr "") canon = canon.
Proof.
  destruct canon as [cols rs]. unfold replace_nan. cbn [columns rows].
  intros H. f_equal. induction H as [|r t Hr _ IH]; cbn [map]; [reflexivity|].
  fold (norm r). now rewrite (norm_fixed r Hr), IH.
Qed.

Lemma component_no_missing r comp :
  no_missing r -> _df_row_to_cdx_component r = Ok comp -> no_missing comp.
Proof.
  intros Hr Hc. apply component_inv in Hc
    as (sp & pn & v & purl & cpe & lic & Hsp & Hpn & Hv & _ & Hcpe & _ & ->).
  unfold no_missing in *. rewrite Forall_forall in Hr.
  apply lookup_in in Hsp, Hpn, Hv, Hcpe.
  apply Hr in Hsp, Hpn, Hv, Hcpe. cbn [snd] in *.
  repeat (constructor; [assumption || reflexivity|]).
  destruct lic; repeat constructor.
Qed.

(** C6: whenever the merge returns a canonical set, its rows are rows of
    the joined frame (the inventory, or its join with the metadata table) in
    their order, the first of them included, each with every missing cell
    ([None] or [NaN]) replaced by the empty string and every other cell
    unchanged; so no cell of the canonical set is a missing value, and no
    field of a component projected from one of its rows is a missing value
    either. *)
Theorem C6_no_missing_value
  (json_loads : string -> option pyval) (env : Env) (st : Store)
  (meta_path : option string) (canon : DataFrame) :
  snd (_generate_sbomdb json_loads env st meta_path) = Ok canon ->
  (exists df_joined kept,
     joined_table json_loads env st meta_path = Ok df_joined /\
     columns canon = columns df_joined /\
     subseq kept (rows df_joined) /\
     (rows df_joined <> [] -> kept <> []) /\
     rows canon = map blanked kept) /\
  Forall no_missing (rows canon) /\
  (forall r comp,
     In r (rows canon) -> _df_row_to_cdx_component r = Ok comp ->
     no_missing comp).
Proof.
  intros H.
  destruct (generate_normalised _ _ _ _ _ H) as (j & kept & Hj & Hc & Hs & Hne & Hr).
  assert (Hn : Forall no_missing (rows canon)).
  { rewrite Hr, Forall_map, Forall_forall. intros r _.
    apply blanked_no_missing. }
  split; [exists j, kept; auto|]. split; [exact Hn|].
  intros r comp Hin Hcomp. rewrite Forall_forall in Hn.
  exact (component_no_missing r comp (Hn r Hin) Hcomp).
Qed.

End MissingValues.

(** * The assembler: [to_cdx] *)

Section Assembler.

Lemma last_cons {A : Type} (a : A) l d : last (a :: l) d = last l a.
Proof.
  revert a d. induction l as [|b t IH]; intros a d; [reflexivity|].
  change (last (a :: b :: t) d) with (last (b :: t) d).
  now rewrite !IH.
Qed.

(** One turn of the loop on a document: the row is projected, then placed. *)
Lemma place_row_document target uuid4 root cs r :
  place_row target (document uuid4 root cs) r =
  (comp <- _df_row_to_cdx_component r ;;
   Ok (if is_root target r
       then document uuid4 (Some (PDict comp)) cs
       else document uuid4 root (cs ++ [PDict comp]))).
Proof.
  unfold place_row.
  destruct (_df_row_to_cdx_component r) as [comp|e] eqn:E; [|reflexivity].
  cbn [bind].
  destruct (component_inv _ _ E) as (sp & _ & _ & _ & _ & _ & Hsp & _).
  unfold getattr, is_root, path_of, cell. rewrite Hsp. cbn [bind].
  destruct (eq_str sp target); [|reflexivity].
  destruct root; reflexivity.
Qed.

Lemma loop_document target uuid4 rs :
  forall root cs,
    foldM (place_row target) (document uuid4 root cs) rs =
    (comps <- mapM _df_row_to_cdx_component rs ;;
     Ok (document uuid4
           (last_or root (roots_of target (combine rs comps)))
           (cs ++ others_of target (combine rs comps)))).
Proof.
  induction rs as [|r t IH]; intros root cs.
  - cbn. now rewrite app_nil_r.
  - cbn [foldM mapM]. rewrite place_row_document.
    destruct (_df_row_to_cdx_component r) as [comp|e]; [|reflexivity].
    cbn [bind].
    destruct (is_root target r) eqn:E; rewrite IH;
      destruct (mapM _df_row_to_cdx_component t) as [comps|e];
      try reflexivity; cbn [bind combine]; unfold roots_of, others_of, last_or;
      cbn [filter fst snd]; rewrite E; cbn [negb map].
    + now rewrite last_cons.
    + now rewrite <- app_assoc.
Qed.

(** The run of [to_cdx], as a function of the projected rows. *)
Lemma to_cdx_document env self cdx_path uuid4 :
  to_cdx env self cdx_path uuid4 =
  (comps <~ lift (mapM _df_row_to_cdx_component (rows (df_sbomdb self))) ;;
   let placed := combine (rows (df_sbomdb self)) comps in
   let target := get_target_drv_path (store self) in
   dump_json env
     (document uuid4 (last_or None (roots_of target placed))
        (others_of target placed))
     cdx_path).
Proof.
  unfold to_cdx.
  change (setitem "components" (PList []) _) with (document uuid4 None []).
  rewrite loop_document.
  destruct (mapM _df_row_to_cdx_component (rows (df_sbomdb self)));
    reflexivity.
Qed.

(** C4: when every row of the canonical set projects and the output path
    can be written, the assembler writes one document, whose [components]
    are the projections of the rows whose installation path differs from the
    root path, in canonical-set order, and whose [metadata.component] is the
    projection of the last row whose path equals the root path, the key
    being absent when no row matches; so for three rows of which exactly the
    second matches there are two components and [metadata.component] is the
    projection of the second. *)
Theorem C4_root_placement (env : Env) (self : SbomDb)
  (cdx_path uuid4 : string) (comps : list (list (string * pyval))) :
  mapM _df_row_to_cdx_component (rows (df_sbomdb self)) = Ok comps ->
  writable env cdx_path = true ->
  let target := get_target_drv_path (store self) in
  let placed := combine (rows (df_sbomdb self)) comps in
  exists cdx,
    to_cdx env self cdx_path uuid4 = ([JsonFile cdx cdx_path], Ok tt) /\
    doc_components cdx = Some (others_of target placed) /\
    doc_root cdx = last_or None (roots_of target placed) /\
    (roots_of target placed = [] -> doc_root cdx = None) /\
    (forall r1 r2 r3 c1 c2 c3,
       rows (df_sbomdb self) = [r1; r2; r3] -> comps = [c1; c2; c3] ->
       is_root target r1 = false -> is_root target r2 = true ->
       is_root target r3 = false ->
       doc_components cdx = Some [PDict c1; PDict c3] /\
       doc_root cdx = Some (PDict c2)).
Proof.
  intros H Hw target placed. eexists. split.
  - rewrite to_cdx_document, H. cbn [io_bind lift]. unfold dump_json.
    rewrite Hw. reflexivity.
  - fold target. fold placed.
    assert (Hroot : doc_root (document uuid4
                      (last_or None (roots_of target placed))
                      (others_of target placed)) =
                    last_or None (roots_of target placed)).
    { destruct (last_or None (roots_of target placed)); reflexivity. }
    split; [reflexivity|]. split; [exact Hroot|]. split.
    + intros E. rewrite Hroot, E. reflexivity.
    + intros r1 r2 r3 c1 c2 c3 Hr Hc H1 H2 H3. rewrite Hroot.
      unfold placed, others_of, roots_of, last_or. rewrite Hr, Hc.
      cbn [combine filter fst snd]. rewrite H1, H2, H3. split; reflexivity.
Qed.

End Assembler.

(** * The claims about the loader *)

Section LoaderClaims.

Variable json_loads : string -> option pyval.
Variable read_file : string -> option string.
Variable path : string.

(** C7, as amended: for a metadata file that reads as UTF-8 text, whose
    top-level value is a mapping and whose entries are all readable
    ([shaped]: an object, with an object as [meta] when it has one, and texts
    as extracted licence names, SPDX ids and maintainer e-mails), the loader
    returns a table with exactly one row per top-level key, in iteration
    order; the row is [entry_row]: name, pname and version are the empty
    string when absent, and the licence and maintainer columns join with [;]
    the truthy values extracted from the absent, single or list-shaped
    value, as the source's [_parse_meta_entry] computes them. *)
Theorem C7_one_row_per_entry (text : string) (its : list (string * pyval)) :
  read_text read_file path = Ok text ->
  json_loads text = Some (PDict its) ->
  Forall (fun item => shaped item = true) its ->
  exists df,
    _parse_json_metadata json_loads read_file path = Ok df /\
    rows df = map entry_row its /\
    List.length (rows df) = List.length its /\
    map (fun r => cell r "nixpkgs") (rows df) =
      map (fun item => PStr (fst item)) its /\
    (forall (pkg : list (string * pyval)) k,
       lookup k pkg = None -> field pkg k = PStr "") /\
    (forall (m : list (string * pyval)) k key,
       _parse_meta_entry
         (match lookup k m with Some v => v | None => PDict [] end) key =
       filter truthy (map (extract key) (entries (lookup k m)))).
Proof.
  intros Hf Hj Hs. eexists. split; [apply (loader_shaped _ _ _ _ _ Hf Hj Hs)|].
  cbn [rows]. split; [reflexivity|]. split; [apply length_map|].
  split; [|split].
  - rewrite map_map. apply map_ext. intros item. reflexivity.
  - intros pkg k H. unfold field. now rewrite H.
  - intros m k key. apply parse_meta_entry_extracted.
Qed.



End LoaderClaims.

(** * The claims on the example inputs *)

Lemma store_dup_wf : wf (to_dataframe store_dup).
Proof. repeat constructor. Qed.

Lemma store_three_wf : wf (to_dataframe store_three).
Proof. repeat constructor. Qed.

Lemma catalog_keys_dup right :
  Some table_catalog = Some right ->
  keyed_by_name (to_dataframe store_dup) right = true.
Proof. intros [= <-]. reflexivity. Qed.

Lemma catalog_keys_three right :
  Some table_catalog = Some right ->
  keyed_by_name (to_dataframe store_three) right = true.
Proof. intros [= <-]. reflexivity. Qed.


(** C2 fails as stated: the second row of an installation path is dropped,
    with no metadata table at all, and the canonical set is then not the
    normalised inventory. *)
Lemma C2_duplicate_path_dropped :
  exists canon,
    snd (_generate_sbomdb json_loads_ex env_ex store_dup None) = Ok canon /\
    In row_foo_again (rows (to_dataframe store_dup)) /\
    ~ In (norm row_foo_again) (rows canon) /\
    canon <> replace_nan (PStr "") (to_dataframe store_dup).
Proof.
  eexists. split; [vm_compute; reflexivity|].
  split; [right; left; reflexivity|]. split.
  - intros H. vm_compute in H. destruct H as [H|[H|[]]]; discriminate H.
  - intros H. vm_compute in H. discriminate H.
Qed.

Lemma C2_witness :
  exists canon,
    snd (_generate_sbomdb json_loads_ex env_ex store_three (Some "meta.json")) =
      Ok canon /\
    Forall2 (fun l r =>
               r = blanked l ++ metadata_cells (to_dataframe store_three)
                                  table_catalog l)
            (rows (to_dataframe store_three)) (rows canon) /\
    (Some table_catalog = None ->
     canon = {| columns := columns (to_dataframe store_three);
                rows := map blanked (rows (to_dataframe store_three)) |}).
Proof.
  apply (C2_every_inventory_row_kept json_loads_ex env_ex store_three
           (Some "meta.json") (Some table_catalog)).
  - exact store_three_wf.
  - reflexivity.
  - reflexivity.
  - vm_compute. reflexivity.
  - exact catalog_keys_three.
  - intros _. reflexivity.
  - vm_compute. repeat constructor; simpl; intuition discriminate.
Defined.

(** C3 fails as stated: the empty segment of [MIT;;GPL] gets an entry of
    its own, with the empty name. *)
Lemma C3_empty_segment_entry :
  exists comp,
    _df_row_to_cdx_component row_empty_segment = Ok comp /\
    lookup "licenses" comp =
      Some (PList [license_entry "MIT"; license_entry ""; license_entry "GPL"]) /\
    lookup "licenses" comp <>
      Some (PList [license_entry "MIT"; license_entry "GPL"]).
Proof.
  eexists. split; [vm_compute; reflexivity|].
  split; [reflexivity|]. intros H. vm_compute in H. discriminate H.
Qed.

Lemma C3_witness :
  lookup "licenses"
    [("type", PStr "application"); ("bom-ref", PStr "/nix/store/aaa-foo-1.0");
     ("name", PStr "foo"); ("version", PStr "1.0");
     ("purl", PStr "pkg:nix/foo@1.0"); ("cpe", PStr "");
     ("licenses", PList [license_entry "MIT"; license_entry "GPL"])] =
  Some (PList (map license_entry ["MIT"; "GPL"])).
Proof.
  refine (proj1 (proj1 (proj2 (proj2 (proj2
    (C3_licenses_per_segment row_two_licenses _ _)))) ["MIT"; "GPL"] _ _ _)).
  - vm_compute. reflexivity.
  - discriminate.
  - repeat constructor; discriminate.
  - reflexivity.
Defined.

Lemma C4_witness :
  exists cdx c1 c2 c3,
    components_three = [c1; c2; c3] /\
    to_cdx env_ex sbomdb_three "sbom.cdx.json"
      "8f0e2f2a-0000-4000-8000-000000000000" =
      ([JsonFile cdx "sbom.cdx.json"], Ok tt) /\
    doc_components cdx = Some [PDict c1; PDict c3] /\
    doc_root cdx = Some (PDict c2).
Proof.
  destruct (C4_root_placement env_ex sbomdb_three "sbom.cdx.json"
              "8f0e2f2a-0000-4000-8000-000000000000" components_three)
    as (cdx & Hdoc & _ & _ & _ & Hthree).
  - vm_compute. reflexivity.
  - reflexivity.
  - exists cdx. do 3 eexists. split; [reflexivity|]. split; [exact Hdoc|].
    apply (Hthree (norm row_foo) (norm row_bar) (norm row_hook));
      reflexivity.
Defined.

(** C5 fails as stated: with an empty version the package URL has no [@]. *)
Lemma C5_empty_version_purl :
  exists comp,
    _df_row_to_cdx_component row_hook = Ok comp /\
    lookup "pname" row_hook = Some (PStr "hook") /\
    lookup "version" row_hook = Some (PStr "") /\
    lookup "purl" comp = Some (PStr "pkg:nix/hook") /\
    lookup "purl" comp <> Some (PStr ("pkg:nix/" +:+ "hook" +:+ "@" +:+ "")).
Proof.
  eexists. split; [vm_compute; reflexivity|].
  repeat (split; [reflexivity|]). intros H. vm_compute in H. discriminate H.
Qed.

Lemma C5_witness :
  purl_of (PStr "foo") (PStr "1.0") = Ok "pkg:nix/foo@1.0" /\
  purl_of (PStr "hook") (PStr "") = Ok "pkg:nix/hook" /\
  exists comp, _df_row_to_cdx_component row_foo = Ok comp.
Proof.
  destruct C5_component_fields as (_ & Hplain & Hnov & _ & Hret).
  split; [|split].
  - apply (Hplain "foo" "1.0"); [reflexivity | discriminate
                                 | reflexivity | discriminate].
  - apply (Hnov "hook"); [reflexivity | discriminate].
  - apply (Hret row_foo (PStr "/nix/store/aaa-foo-1.0") "foo" "1.0" (PStr ""));
      try reflexivity; [discriminate | left; reflexivity].
Defined.

Lemma C6_witness :
  exists canon,
    snd (_generate_sbomdb json_loads_ex env_ex store_three (Some "meta.json")) =
      Ok canon /\
    Forall no_missing (rows canon) /\
    cell (nth 1 (rows canon) []) "cpe" = PStr "" /\
    cell (nth 1 (rows canon) []) "meta_homepage" = PStr "".
Proof.
  eexists. split; [vm_compute; reflexivity|].
  split; [|split; reflexivity].
  refine (proj1 (proj2 (C6_no_missing_value json_loads_ex env_ex store_three
                          (Some "meta.json") _ _))).
  vm_compute. reflexivity.
Defined.

(** C7 fails as stated: a file whose top-level value is a mapping gives no
    table when an entry is not an object. *)
Lemma C7_entry_not_an_object :
  read_text read_file_ex "number-entry.json" = Ok text_number_entry /\
  json_loads_ex text_number_entry = Some (PDict [("a", PInt 1)]) /\
  _parse_json_metadata json_loads_ex read_file_ex "number-entry.json" =
    Raise AttributeError.
Proof. repeat split; vm_compute; reflexivity. Qed.

Lemma C7_witness :
  exists df,
    _parse_json_metadata json_loads_ex read_file_ex "meta.json" = Ok df /\
    rows df = map entry_row (as_dict json_catalog) /\
    List.length (rows df) = 3.
Proof.
  destruct (C7_one_row_per_entry json_loads_ex read_file_ex "meta.json"
              text_catalog (as_dict json_catalog))
    as (df & Hdf & Hrows & Hlen & _).
  - reflexivity.
  - vm_compute. reflexivity.
  - repeat constructor.
  - exists df. split; [exact Hdf|]. split; [exact Hrows | exact Hlen].
Defined.



(** C10 fails as stated: [row_foo] has two catalog entries of its name,
    but the record kept for its installation path is that of the earlier
    row of the same path, which has none. *)
Lemma C10_shadowed_by_earlier_row :
  exists canon kept,
    snd (_generate_sbomdb json_loads_ex env_ex store_shadowed
           (Some "meta.json")) = Ok canon /\
    In row_foo (rows (to_dataframe store_shadowed)) /\
    List.length (matches "name" row_foo table_catalog) = 2 /\
    hd [] (matches "name" row_foo table_catalog) =
      entry_row ("a", PDict [("name", PStr "foo-1.0");
                             ("meta", PDict [("license",
                                PList [PDict [("shortName", PStr "MIT")];
                                       PStr "GPL"])])]) /\
    rows canon = [kept] /\
    path_of kept = path_of row_foo /\
    cell kept "name" = PStr "foo-dup" /\
    cell kept "nixpkgs" = PStr "" /\
    cell kept "meta_license_short" = PStr "".
Proof.
  eexists. eexists. split; [vm_compute; reflexivity|].
  split; [right; left; reflexivity|]. repeat split.
Qed.

Lemma C10_witness :
  exists canon,
    snd (_generate_sbomdb json_loads_ex env_ex store_dup (Some "meta.json")) =
      Ok canon /\
    In (norm (row_foo ++
              right_cells inventory_columns "name" "_meta"
                (nth 0 (rows table_catalog) [])))
       (rows canon) /\
    cell (nth 0 (rows canon) []) "meta_license_short" = PStr "MIT;GPL".
Proof.
  destruct (C10_first_catalog_match_wins json_loads_ex env_ex store_dup
              (Some "meta.json") (Some table_catalog)
              store_dup_wf eq_refl eq_refl eq_refl
              catalog_keys_dup (fun _ => eq_refl)
              table_catalog row_foo (nth 0 (rows table_catalog) [])
              [] [row_foo_again; row_bar]
              [] (tl (rows table_catalog)))
    as (canon & rest & Hc & _ & _ & Hin & _).
  - reflexivity.
  - reflexivity.
  - constructor.
  - reflexivity.
  - constructor.
  - reflexivity.
  - exists canon. split; [exact Hc|]. split; [exact Hin|].
    assert (E : Ok canon = snd (_generate_sbomdb json_loads_ex env_ex store_dup
                                  (Some "meta.json"))) by (symmetry; exact Hc).
    vm_compute in E. injection E as ->. reflexivity.
Defined.

(** The empty catalog [{}] gives a table without columns, on which the
    merge raises instead of returning the inventory. *)
Remark empty_catalog_raises :
  _parse_json_metadata json_loads_ex read_file_ex "empty.json" =
    Ok {| columns := []; rows := [] |} /\
  snd (_generate_sbomdb json_loads_ex env_ex store_three (Some "empty.json")) =
    Raise KeyError.
Proof. split; vm_compute; reflexivity. Qed.

(** The join refuses a catalog whose names are numbers, and a suffix that
    repeats a label of the inventory; an inventory without rows is returned
    without a look at its columns. *)
Remark merge_refuses_numbers_as_names :
  snd (_generate_sbomdb (fun _ => Some json_numeric_name) env_ex store_three
         (Some "meta.json")) = Raise ValueError.
Proof. vm_compute. reflexivity. Qed.

Remark merge_refuses_a_label_clash :
  snd (_generate_sbomdb json_loads_ex env_ex store_clash (Some "meta.json")) =
  Raise MergeError.
Proof. vm_compute. reflexivity. Qed.

Remark empty_inventory_is_returned :
  snd (_generate_sbomdb json_loads_ex env_ex store_empty None) =
  Ok (to_dataframe store_empty).
Proof. vm_compute. reflexivity. Qed.

(** * Further properties of the merge *)

Lemma subseq_length {A : Type} (s l : list A) :
  subseq s l -> List.length s <= List.length l.
Proof. induction 1; simpl; lia. Qed.

Lemma replace_row_labels value r : map fst (replace_row value r) = map fst r.
Proof. unfold replace_row. rewrite map_map. reflexivity. Qed.

Lemma filter_labels (p : string -> bool) (r : row) :
  map fst (filter (fun kv => p (fst kv)) r) = filter p (map fst r).
Proof.
  induction r as [|[k v] t IH]; [reflexivity|].
  cbn [filter map fst]. destruct (p k); cbn [map fst]; now rewrite IH.
Qed.

Lemma right_cells_labels lcols on suffix m :
  map fst (right_cells lcols on suffix m) =
  map (suffixed lcols suffix)
      (filter (fun c => negb (c =? on)%string) (map fst m)).
Proof.
  unfold right_cells. rewrite map_map. cbn [fst].
  rewrite <- (filter_labels (fun c => negb (c =? on)%string) m).
  now rewrite map_map.
Qed.

Lemma right_missing_labels lcols on suffix rcols :
  map fst (right_missing lcols on suffix rcols) =
  map (suffixed lcols suffix)
      (filter (fun c => negb (c =? on)%string) rcols).
Proof. unfold right_missing. rewrite map_map. reflexivity. Qed.


Lemma lookup_not_label {V : Type} k (r : list (string * V)) :
  ~ In k (map fst r) -> lookup k r = None.
Proof.
  intros H. destruct (lookup k r) as [v|] eqn:E; [|reflexivity].
  exfalso. apply H. apply lookup_some_iff. eauto.
Qed.

(** The short-licence cell that a catalog entry brings into a joined row. *)
Lemma license_cell_of_entry cols item :
  existsb (String.eqb "meta_license_short") cols = false ->
  lookup "meta_license_short"
    (norm (right_cells cols "name" "_meta" (entry_row item))) =
  Some (PStr (flattened
                (lookup "license"
                   match meta_of (as_dict (snd item)) with
                   | Some m => m
                   | None => []
                   end) "shortName")).
Proof.
  intros H.
  assert (F : filter (fun kv : string * pyval => negb (fst kv =? "name")%string)
                (entry_row item) =
              match entry_row item with
              | nixpkgs :: _ :: rest => nixpkgs :: rest
              | other => other
              end) by reflexivity.
  unfold norm, right_cells. rewrite F. unfold entry_row, suffixed, replace_row.
  cbn [map fst snd]. rewrite H.
  destruct (existsb (String.eqb "nixpkgs") cols);
  destruct (existsb (String.eqb "pname") cols);
  destruct (existsb (String.eqb "version") cols);
  destruct (existsb (String.eqb "meta_homepage") cols);
  destruct (existsb (String.eqb "meta_position") cols);
  reflexivity.
Qed.

(** What the projector reads back from a joined text of names. *)
Lemma licenses_of_joined (names : list string) (r : row) (col t : string) :
  Forall (fun n => n <> "") names ->
  Forall (fun n => mentions ";"%char n = false) names ->
  lookup col r = Some (PStr (String.concat ";" names)) ->
  _licenses_entry_from_row r col t =
  Ok (map (fun n => PDict [("license", PDict [(t, PStr n)])]) names).
Proof.
  intros Hne Hsep Hcell. destruct names as [|x tl].
  - eapply licenses_falsy; [exact Hcell | reflexivity].
  - assert (Hx : x <> "") by (inversion Hne; assumption).
    rewrite (licenses_text _ _ _ _ Hcell (concat_not_empty _ _ _ Hx)).
    rewrite split_concat; [reflexivity | discriminate | exact Hsep].
Qed.

Lemma texts_truthy l : Forall (fun n => n <> "") (texts (filter truthy l)).
Proof.
  induction l as [|v t IH]; [constructor|].
  cbn [filter]. destruct (truthy v) eqn:E; [|exact IH].
  unfold texts in *. cbn [flat_map].
  destruct v; cbn [app]; try exact IH.
  constructor; [|exact IH]. intros ->. discriminate E.
Qed.

Section MergeShape.

Variable json_loads : string -> option pyval.
Variable env : Env.
Variable st : Store.
Variable meta_path : option string.
Variable df_meta : option DataFrame.

Local Abbreviation inv := (to_dataframe st).

(** The hypotheses under which the merge returns: see the section of the
    merge. *)
Hypothesis inv_wf : wf inv.
Hypothesis inv_paths : texts_under "store_path" inv = true.
Hypothesis labels : distinct (canonical_columns inv df_meta) = true.
Hypothesis meta_loaded :
  metadata_table json_loads env meta_path = Ok df_meta.
Hypothesis meta_keys :
  forall right, df_meta = Some right -> keyed_by_name inv right = true.
Hypothesis meta_dump : df_meta <> None -> dump_ok env = true.

Lemma generated :
  snd (_generate_sbomdb json_loads env st meta_path) =
  Ok {| columns := canonical_columns inv df_meta;
        rows := map (canonical_row inv df_meta) (kept_rows inv) |}.
Proof.
  exact (generate_rows json_loads env st meta_path df_meta
           inv_wf inv_paths labels meta_loaded meta_keys meta_dump).
Qed.

Lemma record_path l :
  In l (rows inv) -> path_of (canonical_row inv df_meta l) = path_of l.
Proof.
  exact (canonical_row_path json_loads env st meta_path df_meta
           inv_paths labels meta_loaded meta_keys meta_dump l).
Qed.

Lemma record_shape l :
  exists extra,
    canonical_row inv df_meta l = norm l ++ extra /\
    (df_meta = None -> extra = []).
Proof.
  exact (canonical_row_shape json_loads env st meta_path df_meta
           labels meta_loaded meta_keys meta_dump l).
Qed.

Lemma records_distinct :
  NoDup (map path_of (map (canonical_row inv df_meta) (kept_rows inv))).
Proof.
  exact (canonical_paths_NoDup json_loads env st meta_path df_meta
           inv_paths labels meta_loaded meta_keys meta_dump).
Qed.

Lemma first_record l pre post :
  rows inv = pre ++ l :: post ->
  Forall (fun l' => path_of l' <> path_of l) pre ->
  In (canonical_row inv df_meta l)
     (map (canonical_row inv df_meta) (kept_rows inv)).
Proof. exact (first_row_kept st df_meta inv_paths l pre post). Qed.

Lemma row_name_text right l :
  df_meta = Some right -> In l (rows inv) -> is_text (cell l "name") = true.
Proof. exact (inv_name_text st df_meta meta_keys right l). Qed.

Lemma inv_row_labels l : In l (rows inv) -> map fst l = columns inv.
Proof.
  intros Hl. unfold wf in inv_wf. rewrite Forall_forall in inv_wf.
  exact (inv_wf l Hl).
Qed.

Lemma canonical_row_labels l :
  In l (rows inv) ->
  map fst (canonical_row inv df_meta l) = canonical_columns inv df_meta.
Proof.
  intros Hl. unfold canonical_row, norm. rewrite replace_row_labels.
  unfold joined_rows, canonical_columns.
  pose proof (metadata_table_wf json_loads env meta_path) as Hwf.
  rewrite meta_loaded in Hwf.
  destruct df_meta as [right|]; [|exact (inv_row_labels l Hl)].
  specialize (Hwf right eq_refl).
  unfold joined. destruct (matches "name" l right) as [|m ms] eqn:Em.
  - cbn [hd]. rewrite map_app, right_missing_labels, (inv_row_labels l Hl).
    reflexivity.
  - cbn [map hd]. rewrite map_app, right_cells_labels, (inv_row_labels l Hl).
    assert (Hm : In m (rows right)).
    { assert (H : In m (matches "name" l right)) by (rewrite Em; now left).
      unfold matches in H. now apply filter_In in H. }
    unfold wf in Hwf. rewrite Forall_forall in Hwf. now rewrite (Hwf m Hm).
Qed.

(** X1: the canonical set that the merge returns never has more rows than
    the inventory, however many catalog rows match a name, and it has a row
    as soon as the inventory has one. *)
Theorem merge_never_grows :
  exists canon,
    snd (_generate_sbomdb json_loads env st meta_path) = Ok canon /\
    List.length (rows canon) <= List.length (rows inv) /\
    (rows inv <> [] -> rows canon <> []).
Proof.
  eexists. split; [exact generated|]. cbn [rows]. rewrite length_map. split.
  - apply subseq_length, keep_first_subseq.
  - intros Hne E. apply map_eq_nil in E.
    destruct (rows inv) as [|l t] eqn:Er; [congruence|].
    unfold kept_rows in E. rewrite Er in E. cbn in E. discriminate E.
Qed.

(** X2: for an inventory that has rows, the canonical set is a well-formed
    frame: its columns are those of the inventory, followed by the metadata
    columns other than [name], a metadata column that the inventory also has
    being renamed with the suffix [_meta]; and every row carries exactly
    these labels. *)
Theorem merge_frame_shape :
  rows inv <> [] ->
  exists canon,
    snd (_generate_sbomdb json_loads env st meta_path) = Ok canon /\
    wf canon /\
    columns canon =
      columns inv ++
      match df_meta with
      | None => []
      | Some df_right =>
          map (fun c => if has_column c inv then c +:+ "_meta" else c)
              (filter (fun c => negb (c =? "name")%string) (columns df_right))
      end.
Proof.
  intros _. eexists. split; [exact generated|]. split.
  - unfold wf. cbn [rows columns]. rewrite Forall_map, Forall_forall.
    intros l Hl. apply canonical_row_labels, kept_rows_incl, Hl.
  - cbn [columns]. unfold canonical_columns.
    destruct df_meta; [reflexivity | now rewrite app_nil_r].
Qed.

(** X3: the join never touches an inventory field: in the canonical record
    of a kept inventory row, every cell under an inventory column is the
    inventory's cell, or the empty string when that cell was missing,
    whatever the catalog holds under the same label. *)
Theorem merge_keeps_inventory_cells :
  exists canon kept,
    snd (_generate_sbomdb json_loads env st meta_path) = Ok canon /\
    subseq kept (rows inv) /\
    Forall2 (fun l r =>
               forall c, In c (columns inv) ->
                 cell r c = if isna (cell l c) then PStr "" else cell l c)
            kept (rows canon).
Proof.
  eexists _, (kept_rows inv). split; [exact generated|].
  split; [apply keep_first_subseq|]. cbn [rows].
  assert (Hi := kept_rows_incl st). revert Hi.
  induction (kept_rows inv) as [|l t IH]; intros Hi; cbn [map]; constructor.
  - intros c Hc. destruct (record_shape l) as [extra [-> _]].
    assert (Hl : In c (map fst l)).
    { rewrite (inv_row_labels l); [exact Hc | apply Hi; now left]. }
    apply lookup_some_iff in Hl as [v Hv].
    unfold cell, norm. rewrite lookup_app, lookup_replace_row, Hv.
    reflexivity.
  - apply IH. intros y Hy. apply Hi. now right.
Qed.

Lemma canonical_keys_text :
  Forall (fun r => is_text (path_of r) = true)
         (map (canonical_row inv df_meta) (kept_rows inv)).
Proof.
  rewrite Forall_map, Forall_forall. intros l Hl.
  apply kept_rows_incl in Hl. rewrite (record_path l Hl).
  exact (inv_path_text st inv_paths l Hl).
Qed.

(** X4: normalising and deduplicating the canonical set once more changes
    nothing: the two closing steps of the merge are idempotent on its
    result. *)
Theorem merge_result_is_fixed :
  exists canon,
    snd (_generate_sbomdb json_loads env st meta_path) = Ok canon /\
    drop_duplicates "store_path" (replace_nan (PStr "") canon) = Ok canon.
Proof.
  eexists. split; [exact generated|].
  rewrite replace_nan_fixed.
  - rewrite drop_duplicates_ok.
    + cbn [columns rows]. f_equal. f_equal.
      apply (keep_first_id _ _ canonical_keys_text);
        [apply incl_refl | exact records_distinct | intros x _ []].
    + cbn [rows columns]. intros Hne. split.
      * assert (Hinv : rows inv <> []).
        { intros E. apply Hne. unfold kept_rows. now rewrite E. }
        pose proof (inv_has_path st inv_wf inv_paths Hinv) as Hp.
        unfold has_column, canonical_columns in *. cbn [columns].
        destruct df_meta; [rewrite existsb_app|]; now rewrite Hp.
      * apply texts_hashable. unfold column. cbn [rows].
        rewrite forallb_over_map. rewrite forallb_forall. intros r Hr.
        pose proof canonical_keys_text as Ht. rewrite Forall_forall in Ht.
        exact (Ht r Hr).
  - cbn [rows]. rewrite Forall_map, Forall_forall. intros l _.
    destruct (record_shape l) as [extra [E _]].
    unfold canonical_row. apply norm_no_missing.
Qed.


(** X6: the licence names of the first matching catalog entry reach the
    record: when the inventory row [l] is the first of its store path, the
    catalog row of [item] is the first of the name of [l], no extracted name
    holds a [;], and the inventory has no short-licence column of its own,
    the canonical record of that path gives one licence entry per extracted
    short name, in the order of the catalog. *)
Theorem catalog_licenses_reach_the_record
  (right : DataFrame) (l : row) (pre post : list row)
  (item : string * pyval) (mpre mpost : list row) :
  df_meta = Some right ->
  rows inv = pre ++ l :: post ->
  Forall (fun l' => path_of l' <> path_of l) pre ->
  rows right = mpre ++ entry_row item :: mpost ->
  Forall (fun m' => cell m' "name" <> cell l "name") mpre ->
  cell (entry_row item) "name" = cell l "name" ->
  has_column "meta_license_short" inv = false ->
  let m := match meta_of (as_dict (snd item)) with
           | Some m => m
           | None => []
           end in
  let names := texts (extracted (lookup "license" m) "shortName") in
  Forall (fun n => mentions ";"%char n = false) names ->
  exists canon r,
    snd (_generate_sbomdb json_loads env st meta_path) = Ok canon /\
    In r (rows canon) /\
    path_of r = path_of l /\
    _licenses_entry_from_row r "meta_license_short" "name" =
      Ok (map license_entry names).
Proof.
  intros Hm Hinv Hpre Hright Hmpre Hmatch Hlic m names Hsep.
  assert (Hl : In l (rows inv)).
  { rewrite Hinv. apply in_or_app. right. now left. }
  pose proof (row_name_text right l Hm Hl) as Htext.
  assert (Hc : canonical_row inv df_meta l =
               norm l ++ norm (right_cells (columns inv) "name" "_meta"
                                 (entry_row item))).
  { unfold canonical_row, joined_rows, joined, matches.
    rewrite Hm, Hright, filter_app. rewrite filter_none.
    - cbn [filter app]. rewrite Hmatch, key_eqb_refl. cbn [map hd].
      unfold norm. apply replace_row_app.
    - eapply Forall_impl; [|exact Hmpre]. intros m' Hne.
      destruct (key_eqb _ _) eqn:E; [|reflexivity].
      apply (key_eqb_eq _ _ Htext) in E. congruence. }
  eexists _, (canonical_row inv df_meta l). split; [exact generated|].
  cbn [rows]. split; [exact (first_record l pre post Hinv Hpre)|].
  split; [exact (record_path l Hl)|].
  apply licenses_of_joined; [apply texts_truthy | exact Hsep|].
  rewrite Hc, lookup_app.
  assert (Hout : lookup "meta_license_short" (norm l) = None).
  { apply lookup_not_label. unfold norm.
    rewrite replace_row_labels, (inv_row_labels l Hl).
    intros Hin. apply has_column_in in Hin. congruence. }
  rewrite Hout. apply license_cell_of_entry. exact Hlic.
Qed.

End MergeShape.

(** * Further properties of the projector *)

Lemma strs_texts l ss : strs l = Ok ss -> l = map PStr ss.
Proof.
  revert ss. induction l as [|v t IH]; intros ss; cbn [strs].
  - intros [= <-]. reflexivity.
  - destruct v; try discriminate.
    destruct (strs t) as [ss'|]; cbn [bind]; [|discriminate].
    intros [= <-]. cbn [map]. f_equal. now apply IH.
Qed.

Lemma parse_meta_entry_truthy meta key :
  Forall (fun v => truthy v = true) (_parse_meta_entry meta key).
Proof.
  unfold _parse_meta_entry. rewrite Forall_forall. intros v Hv.
  now apply filter_In in Hv.
Qed.

(** X7: what the loader joins, the projector splits back: when the values
    that [_parse_meta_entry] extracts join into the text of a cell and none of
    them holds a [;], [_licenses_entry_from_row] on that cell returns exactly
    one entry per extracted value, in order, and none when nothing was
    extracted. *)
Theorem join_then_split_gives_the_names
  (meta : pyval) (key joined : string) (r : row) (col t : string) :
  join ";" (_parse_meta_entry meta key) = Ok joined ->
  (forall s, In (PStr s) (_parse_meta_entry meta key) ->
     mentions ";"%char s = false) ->
  lookup col r = Some (PStr joined) ->
  _licenses_entry_from_row r col t =
  Ok (map (fun v => PDict [("license", PDict [(t, v)])])
          (_parse_meta_entry meta key)).
Proof.
  unfold join. intros Hj Hsep Hcell.
  destruct (strs (_parse_meta_entry meta key)) as [ss|] eqn:E;
    cbn [bind] in Hj; [|discriminate].
  injection Hj as <-. apply strs_texts in E.
  pose proof (parse_meta_entry_truthy meta key) as Ht.
  rewrite E in *. rewrite map_map.
  apply licenses_of_joined; [| |exact Hcell].
  - rewrite Forall_map in Ht. eapply Forall_impl; [|exact Ht].
    intros s Hs ->. discriminate Hs.
  - rewrite Forall_forall. intros s Hs. apply Hsep. now apply in_map.
Qed.

(** Joining undoes splitting. *)
Lemma concat_split sep s :
  String.concat (String sep "") (split sep s) = s.
Proof.
  induction s as [|c t IH]; [reflexivity|].
  cbn [split]. destruct (Ascii.eqb c sep) eqn:E.
  - apply Ascii.eqb_eq in E. subst c.
    destruct (split sep t) as [|h r] eqn:Es; [now destruct (split_not_nil _ _ Es)|].
    change (String.concat (String sep "") ("" :: h :: r))
      with (String sep (String.concat (String sep "") (h :: r))).
    now rewrite IH.
  - destruct (split sep t) as [|h r] eqn:Es; [now destruct (split_not_nil _ _ Es)|].
    destruct r as [|h' r'].
    + cbn in *. now rewrite IH.
    + change (String.concat (String sep "") (String c h :: h' :: r'))
        with (String c (String.concat (String sep "") (h :: h' :: r'))).
      now rewrite IH.
Qed.

Lemma split_length sep s :
  List.length (split sep s) = S (occurrences sep s).
Proof.
  induction s as [|c t IH]; [reflexivity|].
  cbn [split occurrences]. destruct (Ascii.eqb c sep).
  - cbn [List.length]. now rewrite IH.
  - destruct (split sep t) as [|h r] eqn:Es; [now destruct (split_not_nil _ _ Es)|].
    cbn [List.length] in *. now rewrite IH.
Qed.

Lemma split_segments sep s :
  Forall (fun seg => mentions sep seg = false) (split sep s).
Proof.
  induction s as [|c t IH]; [repeat constructor|].
  cbn [split]. destruct (Ascii.eqb c sep) eqn:E.
  - constructor; [reflexivity | exact IH].
  - destruct (split sep t) as [|h r] eqn:Es; [now destruct (split_not_nil _ _ Es)|].
    inversion IH as [|? ? Hh Hr]; subst.
    constructor; [|exact Hr]. cbn [mentions]. now rewrite E, Hh.
Qed.

(** X8: the licence entries determine the cell they were read from: for a
    cell that is a text, the projector returns one entry per segment, the
    segments joined with [;] give the text back, no segment holds a [;], and
    a non-empty text gives one entry more than it has [;] characters. *)
Theorem licence_entries_rebuild_the_cell
  (r : row) (col t s : string) :
  lookup col r = Some (PStr s) ->
  exists segs,
    _licenses_entry_from_row r col t =
      Ok (map (fun seg => PDict [("license", PDict [(t, PStr seg)])]) segs) /\
    String.concat ";" segs = s /\
    Forall (fun seg => mentions ";"%char seg = false) segs /\
    (s <> "" -> List.length segs = S (occurrences ";"%char s)).
Proof.
  intros Hcell. destruct s as [|c s'].
  - exists []. split; [|split; [reflexivity|split; [constructor|congruence]]].
    eapply licenses_falsy; [exact Hcell | reflexivity].
  - exists (split ";"%char (String c s')).
    split; [apply licenses_text; [exact Hcell | discriminate]|].
    split; [apply concat_split|]. split; [apply split_segments|].
    intros _. apply split_length.
Qed.

(** X9: the projection of a record reads five of its cells only: two
    records that agree on the installation path, the short package name, the
    version, the CPE and the short-licence cell give the same component or
    the same exception, whatever their other cells and the order of their
    cells. *)
Theorem projection_reads_five_cells (r1 r2 : row) :
  Forall (fun c => lookup c r1 = lookup c r2)
         ["store_path"; "pname"; "version"; "cpe"; "meta_license_short"] ->
  _df_row_to_cdx_component r1 = _df_row_to_cdx_component r2.
Proof.
  intros H.
  inversion H as [|? ? H1 H']; subst. inversion H' as [|? ? H2 H'']; subst.
  inversion H'' as [|? ? H3 H3']; subst. inversion H3' as [|? ? H4 H4']; subst.
  inversion H4' as [|? ? H5 _]; subst.
  unfold _df_row_to_cdx_component, _cdx_component_add_licenses,
    _licenses_entry_from_row, contains, getattr.
  now rewrite H1, H2, H3, H4, H5.
Qed.

Lemma string_arg_error v e : Purl.string_arg v = Raise e -> e = ValueError.
Proof.
  destruct v; cbn [Purl.string_arg]; try discriminate;
    match goal with |- context [if ?b then _ else _] => destruct b end;
    congruence.
Qed.

(** X10: how the projection fails.  A record without an installation
    path, a short package name or a version column raises [AttributeError];
    with the three present, a short package name that is falsy (the empty
    string that normalisation leaves for a missing value, say) or is not a
    text raises [ValueError], and so does a version that is truthy and not a
    text; once the package URL is built, a record without a CPE column, or
    whose short-licence cell is truthy and not a text, raises
    [AttributeError]. *)
Theorem projection_errors (r : row) :
  (lookup "store_path" r = None \/ lookup "pname" r = None \/
   lookup "version" r = None ->
   _df_row_to_cdx_component r = Raise AttributeError) /\
  (forall sp pn v,
     lookup "store_path" r = Some sp -> lookup "pname" r = Some pn ->
     lookup "version" r = Some v ->
     (truthy pn = false ->
      _df_row_to_cdx_component r = Raise ValueError) /\
     (is_text pn = false ->
      _df_row_to_cdx_component r = Raise ValueError) /\
     (truthy v = true -> is_text v = false ->
      _df_row_to_cdx_component r = Raise ValueError) /\
     (forall purl,
        purl_of pn v = Ok purl ->
        (lookup "cpe" r = None ->
         _df_row_to_cdx_component r = Raise AttributeError) /\
        (forall cpe lic,
           lookup "cpe" r = Some cpe ->
           lookup "meta_license_short" r = Some lic ->
           truthy lic = true -> is_text lic = false ->
           _df_row_to_cdx_component r = Raise AttributeError))).
Proof.
  split.
  - unfold _df_row_to_cdx_component, getattr.
    intros [H|[H|H]].
    + now rewrite H.
    + destruct (lookup "store_path" r); cbn [bind]; [|reflexivity].
      now rewrite H.
    + destruct (lookup "store_path" r); cbn [bind]; [|reflexivity].
      destruct (lookup "pname" r); cbn [bind]; [|reflexivity].
      now rewrite H.
  - intros sp pn v Hsp Hpn Hv.
    assert (E : _df_row_to_cdx_component r =
                (purl <- purl_of pn v ;;
                 cpe <- getattr r "cpe" ;;
                 _cdx_component_add_licenses
                   [("type", PStr "application"); ("bom-ref", sp);
                    ("name", pn); ("version", v); ("purl", PStr purl);
                    ("cpe", cpe)] r)).
    { unfold _df_row_to_cdx_component, getattr, purl_of.
      rewrite Hsp, Hpn, Hv. cbn [bind].
      destruct (Purl.new (PStr "nix") pn v) as [pu|]; cbn [bind];
        [|reflexivity].
      destruct (Purl.to_string pu); cbn [bind]; [|reflexivity].
      destruct (lookup "cpe" r); reflexivity. }
    rewrite E. split; [|split; [|split]].
    + intros Ht. unfold purl_of, Purl.new. rewrite Ht.
      cbn [negb orb]. rewrite orb_true_r. reflexivity.
    + intros Ht. unfold purl_of, Purl.new.
      destruct (truthy pn) eqn:Etr;
        [|cbn [negb orb]; rewrite orb_true_r; reflexivity].
      change (negb (truthy (PStr "nix"))) with false. cbn [negb orb bind].
      cbn [Purl.string_arg bind].
      destruct pn; try discriminate Ht; cbn [Purl.string_arg];
        rewrite ?Etr; reflexivity.
    + intros Ht Hn. unfold purl_of, Purl.new.
      destruct (truthy pn) eqn:Etr;
        [|cbn [negb orb]; rewrite orb_true_r; reflexivity].
      change (negb (truthy (PStr "nix"))) with false. cbn [negb orb bind].
      cbn [Purl.string_arg bind].
      destruct (Purl.string_arg pn) as [n|e] eqn:En; cbn [bind];
        [|now rewrite (string_arg_error _ _ En)].
      destruct v; try discriminate Hn; cbn [Purl.string_arg];
        rewrite ?Ht; reflexivity.
    + intros purl Hp. rewrite Hp. cbn [bind]. unfold getattr. split.
      * now intros ->.
      * intros cpe lic Hcpe Hlic Ht Hn. rewrite Hcpe. cbn [bind].
        unfold _cdx_component_add_licenses.
        rewrite (licenses_not_text _ _ _ lic Hlic Ht); [reflexivity|].
        intros s ->. discriminate Hn.
Qed.

(** * Further properties of the loader *)

(** X11: the key only matters for objects: for a licence or maintainers
    value that is not an object, and is not a list holding an object,
    [_parse_meta_entry] returns the same values whatever key is asked for, so
    that a licence given as a bare text lands in the short-name column and in
    the SPDX column alike. *)
Theorem bare_values_ignore_the_key (meta : pyval) (k1 k2 : string) :
  (forall d, meta <> PDict d) ->
  (forall l, meta = PList l -> Forall (fun x => forall d, x <> PDict d) l) ->
  _parse_meta_entry meta k1 = _parse_meta_entry meta k2.
Proof.
  intros Hd Hl. unfold _parse_meta_entry.
  destruct meta as [| | | | |l|d]; try reflexivity.
  - f_equal. apply map_ext_in. intros x Hx.
    specialize (Hl l eq_refl). rewrite Forall_forall in Hl.
    specialize (Hl x Hx). destruct x; try reflexivity.
    exfalso. now apply (Hl d).
  - exfalso. now apply (Hd d).
Qed.

(** The exception of an entry that the loader cannot read. *)
Lemma item_row_error item :
  shaped item = false ->
  item_row item =
  Raise match snd item with
        | PDict pkg =>
            match lookup "meta" pkg with
            | Some (PDict _) | None => TypeError
            | Some _ => AttributeError
            end
        | _ => AttributeError
        end.
Proof.
  unfold shaped, item_row. destruct item as [k pkg].
  cbn [fst snd]. destruct pkg as [| | | | | |pkg]; try reflexivity.
  cbn [get bind].
  unfold meta_of. destruct (lookup "meta" pkg) as [meta|]; [|discriminate].
  destruct meta as [| | | | | |m]; try reflexivity.
  intros H. cbn [get bind]. rewrite !parse_meta_entry_extracted.
  destruct (forallb is_text (extracted (lookup "license" m) "shortName"))
    eqn:E1; [|now rewrite (join_not_texts _ _ E1)].
  rewrite (join_texts _ _ E1). cbn [bind].
  destruct (forallb is_text (extracted (lookup "license" m) "spdxId"))
    eqn:E2; [|now rewrite (join_not_texts _ _ E2)].
  rewrite (join_texts _ _ E2). cbn [bind].
  cbn [andb] in H. now rewrite (join_not_texts _ _ H).
Qed.

Lemma loop_stops pre item post e :
  Forall (fun it => shaped it = true) pre ->
  item_row item = Raise e ->
  forall d, foldM parse_item d (pre ++ item :: post) = Raise e.
Proof.
  intros Hpre He. induction Hpre as [|it t Hi _ IH]; intros d.
  - cbn [app foldM]. rewrite parse_item_row, He. reflexivity.
  - cbn [app foldM]. rewrite parse_item_row, (item_row_shaped _ Hi).
    cbn [bind]. apply IH.
Qed.

(** X12: the loader stops at the first entry it cannot read: when the file
    reads as text, the entries before [item] are readable and [item] is not,
    the loader raises
    the exception of [item], whatever follows it: [TypeError] when the entry
    is an object whose [meta] is an object or absent (an extracted licence
    or e-mail value is then not a text), [AttributeError] when the entry or
    its [meta] is not an object. *)
Theorem loader_stops_at_the_first_unreadable_entry
  (json_loads : string -> option pyval) (read_file : string -> option string)
  (path text : string) (pre post : list (string * pyval))
  (item : string * pyval) :
  read_text read_file path = Ok text ->
  json_loads text = Some (PDict (pre ++ item :: post)) ->
  Forall (fun it => shaped it = true) pre ->
  shaped item = false ->
  _parse_json_metadata json_loads read_file path =
  Raise match snd item with
        | PDict pkg =>
            match lookup "meta" pkg with
            | Some (PDict _) | None => TypeError
            | Some _ => AttributeError
            end
        | _ => AttributeError
        end.
Proof.
  intros Hf Hj Hpre Hitem. unfold _parse_json_metadata. rewrite Hf.
  cbn [bind]. rewrite Hj. cbn [items bind].
  now rewrite (loop_stops pre item post _ Hpre (item_row_error item Hitem)).
Qed.

(** X13: a table that the loader returns is a well-formed frame with the
    nine metadata columns, or the frame without columns and rows (for the
    empty mapping); the entry key and the three joined cells of every row are
    texts. *)
Theorem loader_table_shape
  (json_loads : string -> option pyval) (read_file : string -> option string)
  (path : string) (df : DataFrame) :
  _parse_json_metadata json_loads read_file path = Ok df ->
  wf df /\
  (columns df = meta_columns \/ (columns df = [] /\ rows df = [])) /\
  Forall (fun r =>
            is_text (cell r "nixpkgs") = true /\
            is_text (cell r "meta_license_short") = true /\
            is_text (cell r "meta_license_spdxid") = true /\
            is_text (cell r "meta_maintainers_email") = true)
         (rows df).
Proof.
  intros H. split; [exact (loader_wf _ _ _ _ H)|].
  destruct (loader_inv _ _ _ _ H) as (text & its & _ & _ & _ & ->).
  cbn [columns rows]. split.
  - destruct its; [right; split; reflexivity | left; reflexivity].
  - rewrite Forall_map, Forall_forall. intros item _.
    repeat split.
Qed.

(** * Further properties of the merge: errors and files *)

Lemma fst_io_bind {A B : Type} (m : io A) (k : A -> io B) :
  fst (io_bind m k) =
  match snd m with
  | Ok a => fst m ++ fst (k a)
  | Raise e => fst m
  end.
Proof.
  destruct m as [w [a|e]]; [|reflexivity].
  cbn [io_bind fst snd]. now destruct (k a).
Qed.

(** The outcome of the merge once the metadata table is known and its
    diagnostic dump, if any, can be written. *)
Lemma generate_outcome json_loads env st meta_path df_meta :
  metadata_table json_loads env meta_path = Ok df_meta ->
  (df_meta <> None -> dump_ok env = true) ->
  snd (_generate_sbomdb json_loads env st meta_path) =
  (df <- match df_meta with
         | None => Ok (to_dataframe st)
         | Some df_right => merge_left (to_dataframe st) df_right "name" "_meta"
         end ;;
   drop_duplicates "store_path" (replace_nan (PStr "") df)).
Proof.
  intros Hm Hd. unfold _generate_sbomdb, metadata_table in *.
  rewrite snd_io_bind. destruct meta_path as [path|].
  - destruct (_parse_json_metadata json_loads (read_file env) path)
      as [df_right|e]; cbn [bind] in Hm; [|discriminate].
    injection Hm as <-.
    rewrite snd_io_bind. cbn [lift snd]. rewrite snd_io_bind.
    rewrite snd_meta_dump by (apply Hd; discriminate).
    cbn [lift snd]. reflexivity.
  - injection Hm as <-. reflexivity.
Qed.

(** X14: an empty catalog is rejected: when the metadata file holds the
    empty mapping, the merge never returns a canonical set, whatever the
    inventory; it raises [KeyError] (the table has no [name] column to join
    on) when the diagnostic dump, if asked for, can be written. *)
Theorem empty_catalog_is_rejected
  (json_loads : string -> option pyval) (env : Env) (st : Store)
  (path text : string) :
  read_text (read_file env) path = Ok text ->
  json_loads text = Some (PDict []) ->
  (forall canon,
     snd (_generate_sbomdb json_loads env st (Some path)) <> Ok canon) /\
  (dump_ok env = true ->
   snd (_generate_sbomdb json_loads env st (Some path)) = Raise KeyError).
Proof.
  intros Hf Hj.
  assert (K : dump_ok env = true ->
              snd (_generate_sbomdb json_loads env st (Some path)) =
              Raise KeyError).
  { intros Hd.
    rewrite (generate_outcome _ _ _ _ (Some {| columns := []; rows := [] |})).
    - reflexivity.
    - unfold metadata_table. now rewrite (loader_empty _ _ _ _ Hf Hj).
    - intros _. exact Hd. }
  split; [|exact K].
  intros canon. destruct (dump_ok env) eqn:Hd; [now rewrite K|].
  unfold _generate_sbomdb. rewrite snd_io_bind, snd_io_bind.
  rewrite (loader_empty _ _ _ _ Hf Hj). cbn [lift snd]. rewrite snd_io_bind.
  unfold dump_ok, df_to_csv_file in *.
  destruct (log_level env <=? DEBUG)%Z; [|discriminate Hd].
  cbn [negb orb] in Hd. rewrite Hd. discriminate.
Qed.

(** X15: what a missing column does.  When the metadata table has loaded
    and its diagnostic dump, if any, can be written, the merge raises
    [KeyError] as soon as the inventory or the table lacks the [name]
    column.  Without a metadata table, an inventory without rows is returned
    as it is, whatever its columns, and an inventory with rows and columns
    but no [store_path] column raises [KeyError]. *)
Theorem missing_columns_of_the_merge
  (json_loads : string -> option pyval) (env : Env) (st : Store)
  (meta_path : option string) (df_meta : option DataFrame) :
  metadata_table json_loads env meta_path = Ok df_meta ->
  (df_meta <> None -> dump_ok env = true) ->
  let inv := to_dataframe st in
  (forall df_right,
     df_meta = Some df_right ->
     has_column "name" inv && has_column "name" df_right = false ->
     snd (_generate_sbomdb json_loads env st meta_path) = Raise KeyError) /\
  (df_meta = None -> rows inv = [] ->
   snd (_generate_sbomdb json_loads env st meta_path) = Ok inv) /\
  (df_meta = None -> rows inv <> [] -> columns inv <> [] ->
   has_column "store_path" inv = false ->
   snd (_generate_sbomdb json_loads env st meta_path) = Raise KeyError).
Proof.
  intros Hm Hd inv.
  rewrite (generate_outcome _ _ _ _ _ Hm Hd). fold inv.
  split; [|split].
  - intros df_right E Hno. subst df_meta. unfold merge_left.
    destruct (has_column "name" df_right) eqn:Hr.
    + rewrite (loaded_columns _ _ _ _ Hm Hr) in *.
      change (key_label "name" df_right)
        with (match filter (String.eqb "name") (columns df_right) with
              | [] => Raise KeyError
              | [_] => Ok tt
              | _ :: _ :: _ => Raise ValueError
              end).
      rewrite (loaded_columns _ _ _ _ Hm Hr). cbn [bind].
      rewrite andb_true_r in Hno. unfold key_label, has_column in *.
      now rewrite (filter_eqb_none _ _ Hno).
    + unfold key_label, has_column in *.
      now rewrite (filter_eqb_none _ _ Hr).
  - intros -> Hrows. cbn [bind]. destruct inv as [cols rs].
    cbn [rows] in Hrows. subst rs. reflexivity.
  - intros -> Hrows Hcols Hno. cbn [bind]. destruct inv as [cols rs].
    unfold drop_duplicates, replace_nan. cbn [rows columns] in *.
    destruct rs as [|r t]; [congruence|]. destruct cols as [|c cs]; [congruence|].
    cbn [map]. unfold has_column in *. cbn [columns] in *. now rewrite Hno.
Qed.

(** X16: the merge writes at most the diagnostic dump: nothing without a
    metadata path, nothing above the debug level, nothing when the loader
    raises (its exception is the outcome of the merge); at the debug level it
    writes the metadata table as loaded, before the join, to [meta.csv], and
    when that file cannot be written the merge raises [OSError] without
    joining. *)
Theorem merge_writes_only_the_debug_dump
  (json_loads : string -> option pyval) (env : Env) (st : Store)
  (meta_path : option string) :
  let run := _generate_sbomdb json_loads env st meta_path in
  (meta_path = None -> fst run = []) /\
  ((DEBUG < log_level env)%Z -> fst run = []) /\
  (forall e,
     metadata_table json_loads env meta_path = Raise e ->
     run = ([], Raise e)) /\
  (forall df,
     metadata_table json_loads env meta_path = Ok (Some df) ->
     (log_level env <= DEBUG)%Z ->
     if writable env "meta.csv"
     then fst run = [CsvFile df "meta.csv"]
     else run = ([], Raise OSError)).
Proof.
  intros run. unfold run, _generate_sbomdb, metadata_table.
  destruct meta_path as [path|].
  - destruct (_parse_json_metadata json_loads (read_file env) path)
      as [df|e]; cbn [bind lift io_bind].
    + unfold df_to_csv_file.
      destruct (log_level env <=? DEBUG)%Z eqn:L.
      * apply Z.leb_le in L.
        destruct (writable env "meta.csv"); cbn [io_bind io_ret].
        -- destruct (merge_left (to_dataframe st) df "name" "_meta");
             cbn [lift io_bind app].
           ++ destruct (drop_duplicates _ _); cbn [fst app].
              all: repeat split; try discriminate; try lia.
              all: intros ? [= <-] _; reflexivity.
           ++ repeat split; try discriminate; try lia.
              intros ? [= <-] _; reflexivity.
        -- repeat split; try discriminate; try lia.
      * apply Z.leb_gt in L. cbn [io_bind io_ret].
        destruct (merge_left (to_dataframe st) df "name" "_meta");
          cbn [lift io_bind app].
        -- destruct (drop_duplicates _ _); cbn [fst app].
           all: repeat split; try discriminate; try lia.
        -- repeat split; try discriminate; try lia.
    + repeat split; try discriminate; try congruence.
  - cbn [io_ret io_bind lift].
    destruct (drop_duplicates _ _); cbn [fst app];
      repeat split; try discriminate.
Qed.

(** * Further properties of the assembler *)

Lemma mapM_length {A B : Type} (f : A -> result B) l ys :
  mapM f l = Ok ys -> List.length ys = List.length l.
Proof.
  revert ys. induction l as [|x t IH]; intros ys; cbn [mapM].
  - intros [= <-]. reflexivity.
  - destruct (f x); cbn [bind]; [|discriminate].
    destruct (mapM f t) as [ys'|]; cbn [bind]; [|discriminate].
    intros [= <-]. cbn [List.length]. now rewrite (IH ys').
Qed.

Lemma mapM_stops {A B : Type} (f : A -> result B) pre x post e :
  Forall (fun y => exists b, f y = Ok b) pre ->
  f x = Raise e ->
  mapM f (pre ++ x :: post) = Raise e.
Proof.
  intros Hpre Hx. induction Hpre as [|y t [b Hb] _ IH].
  - cbn [app mapM]. now rewrite Hx.
  - cbn [app mapM]. rewrite Hb, IH. reflexivity.
Qed.

Lemma filter_combine_length {A B : Type} (p : A -> bool) (l : list A) :
  forall l' : list B,
    List.length l' = List.length l ->
    List.length (filter (fun ab => p (fst ab)) (combine l l')) =
    List.length (filter p l).
Proof.
  induction l as [|a t IH]; intros [|b t'] H; try discriminate; [reflexivity|].
  cbn [combine filter fst]. injection H as H.
  destruct (p a); cbn [List.length]; now rewrite IH.
Qed.

Lemma doc_root_document uuid4 root cs :
  doc_root (document uuid4 root cs) = root.
Proof. destruct root; reflexivity. Qed.

(** The document that a successful run of [to_cdx] writes. *)
Lemma to_cdx_written env self cdx_path uuid4 cdx :
  to_cdx env self cdx_path uuid4 = ([JsonFile cdx cdx_path], Ok tt) ->
  exists comps,
    mapM _df_row_to_cdx_component (rows (df_sbomdb self)) = Ok comps /\
    cdx =
      document uuid4
        (last_or None (roots_of (get_target_drv_path (store self))
                         (combine (rows (df_sbomdb self)) comps)))
        (others_of (get_target_drv_path (store self))
           (combine (rows (df_sbomdb self)) comps)).
Proof.
  rewrite to_cdx_document.
  destruct (mapM _df_row_to_cdx_component (rows (df_sbomdb self)))
    as [comps|e]; cbn [lift io_bind]; [|discriminate].
  unfold dump_json. destruct (writable env cdx_path); [|discriminate].
  cbn [app]. intros [= <-]. exists comps. split; reflexivity.
Qed.

(** X17: the assembler writes all or nothing: a run of [to_cdx] either
    writes one document at the given path and returns, or writes no file and
    raises; it raises the exception of the first record that does not
    project, whatever the records after it, and [OSError] when every record
    projects and the path cannot be written. *)
Theorem to_cdx_writes_all_or_nothing
  (env : Env) (self : SbomDb) (cdx_path uuid4 : string) :
  ((exists cdx,
      to_cdx env self cdx_path uuid4 = ([JsonFile cdx cdx_path], Ok tt)) \/
   (exists e, to_cdx env self cdx_path uuid4 = ([], Raise e))) /\
  (forall pre r post e,
     rows (df_sbomdb self) = pre ++ r :: post ->
     Forall (fun r' => exists c, _df_row_to_cdx_component r' = Ok c) pre ->
     _df_row_to_cdx_component r = Raise e ->
     to_cdx env self cdx_path uuid4 = ([], Raise e)) /\
  (forall comps,
     mapM _df_row_to_cdx_component (rows (df_sbomdb self)) = Ok comps ->
     writable env cdx_path = false ->
     to_cdx env self cdx_path uuid4 = ([], Raise OSError)).
Proof.
  rewrite to_cdx_document. split; [|split].
  - destruct (mapM _df_row_to_cdx_component (rows (df_sbomdb self)))
      as [comps|e]; cbn [lift io_bind]; [|right; eexists; reflexivity].
    unfold dump_json. destruct (writable env cdx_path).
    + left. eexists. reflexivity.
    + right. eexists. reflexivity.
  - intros pre r post e Hr Hpre He.
    rewrite Hr, (mapM_stops _ pre r post e Hpre He). reflexivity.
  - intros comps Hc Hw. rewrite Hc. cbn [lift io_bind]. unfold dump_json.
    now rewrite Hw.
Qed.

(** X18: the frame of every written document: the six top-level keys in
    their order, the format [CycloneDX], the specification version [1.3],
    the document version [1], the serial number [urn:uuid:] followed by the
    drawn UUID, and under [metadata] the one tool descriptor (TII, sbomnix,
    0.1.0), with no key but [tools] and, when there is a root, [component]. *)
Theorem document_header
  (env : Env) (self : SbomDb) (cdx_path uuid4 : string)
  (cdx : list (string * pyval)) :
  to_cdx env self cdx_path uuid4 = ([JsonFile cdx cdx_path], Ok tt) ->
  map fst cdx =
    ["bomFormat"; "specVersion"; "version"; "serialNumber"; "metadata";
     "components"] /\
  lookup "bomFormat" cdx = Some (PStr "CycloneDX") /\
  lookup "specVersion" cdx = Some (PStr "1.3") /\
  lookup "version" cdx = Some (PInt 1) /\
  lookup "serialNumber" cdx = Some (PStr ("urn:uuid:" +:+ uuid4)) /\
  exists m,
    lookup "metadata" cdx = Some (PDict m) /\
    lookup "tools" m =
      Some (PList [PDict [("vendor", PStr "TII"); ("name", PStr "sbomnix");
                          ("version", PStr "0.1.0")]]) /\
    (map fst m = ["tools"] \/ map fst m = ["tools"; "component"]).
Proof.
  intros H. destruct (to_cdx_written _ _ _ _ _ H) as (comps & _ & ->).
  repeat (split; [reflexivity|]).
  eexists. split; [reflexivity|]. split; [reflexivity|].
  destruct (last_or None _); [right | left]; reflexivity.
Qed.

Lemma last_of_some (l : list pyval) (d : pyval) :
  exists v, last (map Some l) (Some d) = Some v.
Proof.
  revert d. induction l as [|y t IH]; intros d; [now exists d|].
  cbn [map]. rewrite last_cons. apply IH.
Qed.

(** The records split into those placed as components and those at the
    root path, and the root is the last of the latter. *)
Lemma placed_lengths (target_path : string) (rs : list row)
  (comps : list (list (string * pyval))) :
  List.length comps = List.length rs ->
  List.length (others_of target_path (combine rs comps)) +
    List.length (filter (is_root target_path) rs) = List.length rs /\
  (last_or None (roots_of target_path (combine rs comps)) = None <->
   filter (is_root target_path) rs = []).
Proof.
  intros Hlen. split.
  - unfold others_of. rewrite length_map.
    rewrite (filter_combine_length
               (fun r => negb (is_root target_path r)) _ _ Hlen).
    rewrite Nat.add_comm. apply filter_length.
  - unfold last_or, roots_of.
    pose proof (filter_combine_length (is_root target_path) _ _ Hlen) as L.
    destruct (filter _ (combine rs comps)) as [|x t] eqn:E.
    + destruct (filter _ rs); [|discriminate L]. split; reflexivity.
    + destruct (filter _ rs); [discriminate L|].
      split; [|discriminate]. cbn [map]. rewrite last_cons.
      intros Hlast. destruct (last_of_some (map (fun rc => PDict (snd rc)) t)
                                (PDict (snd x))) as [v Hv].
      congruence.
Qed.

(** X19: every record is placed: in a written document the number of
    components and the number of records at the root path add up to the
    number of records of the canonical set, and [metadata.component] is
    absent exactly when no record sits at the root path. *)
Theorem every_row_is_placed
  (env : Env) (self : SbomDb) (cdx_path uuid4 : string)
  (cdx : list (string * pyval)) :
  to_cdx env self cdx_path uuid4 = ([JsonFile cdx cdx_path], Ok tt) ->
  let at_root := root_rows (get_target_drv_path (store self)) (df_sbomdb self) in
  exists cs,
    doc_components cdx = Some cs /\
    List.length cs + List.length at_root =
      List.length (rows (df_sbomdb self)) /\
    (doc_root cdx = None <-> at_root = []).
Proof.
  intros H at_root. destruct (to_cdx_written _ _ _ _ _ H) as (comps & Hc & ->).
  destruct (placed_lengths (get_target_drv_path (store self)) _ _
              (mapM_length _ _ _ Hc)) as [Hsum Hroot].
  eexists. split; [reflexivity|]. split; [exact Hsum|].
  rewrite doc_root_document. exact Hroot.
Qed.

Lemma serial_number_only u1 u2 root cs :
  setitem "serialNumber" (PStr ("urn:uuid:" +:+ u1)) (document u2 root cs) =
  document u1 root cs.
Proof. reflexivity. Qed.

(** X20: the drawn UUID reaches the document through [serialNumber] only:
    when a run of [to_cdx] writes a document, the run with another UUID
    writes the same document with that one field set anew, and nothing else
    changed. *)
Theorem uuid_reaches_the_serial_number_only
  (env : Env) (self : SbomDb) (cdx_path u1 u2 : string)
  (cdx : list (string * pyval)) :
  to_cdx env self cdx_path u1 = ([JsonFile cdx cdx_path], Ok tt) ->
  to_cdx env self cdx_path u2 =
  ([JsonFile (setitem "serialNumber" (PStr ("urn:uuid:" +:+ u2)) cdx)
      cdx_path], Ok tt).
Proof.
  rewrite !to_cdx_document.
  destruct (mapM _df_row_to_cdx_component (rows (df_sbomdb self)));
    cbn [io_bind lift]; [|discriminate].
  unfold dump_json. destruct (writable env cdx_path); [|discriminate].
  cbn [app]. intros [= <-]. now rewrite serial_number_only.
Qed.

(** * From the inventory to the document *)

Lemma eq_str_true v s : eq_str v s = true <-> v = PStr s.
Proof.
  destruct v; cbn [eq_str]; try (split; [discriminate | congruence]).
  rewrite String.eqb_eq. split; congruence.
Qed.

(** Distinct installation paths leave one record at most at the root. *)
Lemma one_root_at_most (target : string) (rs : list row) :
  NoDup (map path_of rs) -> List.length (filter (is_root target) rs) <= 1.
Proof.
  induction rs as [|r t IH]; cbn [map filter]; [intros _; cbn; lia|].
  intros Hnd. inversion Hnd as [|? ? Hr Ht]; subst.
  destruct (is_root target r) eqn:E; [|now apply IH].
  assert (Hnone : filter (is_root target) t = []).
  { destruct (filter (is_root target) t) as [|r' t'] eqn:F; [reflexivity|].
    exfalso. apply Hr.
    assert (Hin : In r' (filter (is_root target) t)) by (rewrite F; now left).
    apply filter_In in Hin as [Hin Hr'].
    unfold is_root in E, Hr'. apply eq_str_true in E, Hr'.
    rewrite E, <- Hr'. now apply in_map. }
  rewrite Hnone. cbn. lia.
Qed.

Section InventoryToDocument.

Variable json_loads : string -> option pyval.
Variable env : Env.
Variable st : Store.
Variable meta_path : option string.
Variable df_meta : option DataFrame.

Local Abbreviation inv := (to_dataframe st).
Local Abbreviation target := (get_target_drv_path st).

(** The hypotheses under which the merge returns: see the section of the
    merge. *)
Hypothesis inv_wf : wf inv.
Hypothesis inv_paths : texts_under "store_path" inv = true.
Hypothesis labels : distinct (canonical_columns inv df_meta) = true.
Hypothesis meta_loaded :
  metadata_table json_loads env meta_path = Ok df_meta.
Hypothesis meta_keys :
  forall right, df_meta = Some right -> keyed_by_name inv right = true.
Hypothesis meta_dump : df_meta <> None -> dump_ok env = true.

(** The canonical set has a record at the root path exactly when the
    inventory has a row of that path. *)
Lemma root_row_iff :
  filter (is_root target)
    (map (canonical_row inv df_meta) (kept_rows inv)) <> [] <->
  exists l, In l (rows inv) /\ path_of l = PStr target.
Proof.
  pose proof (canonical_row_path json_loads env st meta_path df_meta
                inv_paths labels meta_loaded meta_keys meta_dump) as Hp.
  split.
  - intros Hne.
    destruct (filter _ _) as [|r t] eqn:F; [congruence|].
    assert (Hin : In r (filter (is_root target)
                          (map (canonical_row inv df_meta) (kept_rows inv))))
      by (rewrite F; now left).
    apply filter_In in Hin as [Hin Hr].
    apply in_map_iff in Hin as [l [<- Hl]].
    apply kept_rows_incl in Hl. exists l. split; [exact Hl|].
    rewrite <- (Hp l Hl). now apply eq_str_true.
  - intros [l [Hl Hpath]].
    destruct (keep_first_cover path_of (rows inv)
                (inv_paths_text st inv_paths) [] (rows inv) l
                (incl_refl _) Hl) as [[]|[k [Hk Hkey]]].
    rewrite <- (kept_rows_raw st inv_paths) in Hk.
    assert (Hin : In (canonical_row inv df_meta k)
                     (filter (is_root target)
                        (map (canonical_row inv df_meta) (kept_rows inv)))).
    { apply filter_In. split; [now apply in_map|].
      unfold is_root. apply eq_str_true.
      rewrite (Hp k (kept_rows_incl st k Hk)). now rewrite Hkey. }
    intros E. rewrite E in Hin. exact Hin.
Qed.

(** X21: from the inventory to the document: the database that [__init__]
    builds holds at most one record at the root path, and holds one exactly
    when the inventory has a row of that path; so every document that
    [to_cdx] writes from it has all the records but one at most as
    components, and has a [metadata.component] exactly when the inventory has
    a row at the root path. *)
Theorem built_database_has_one_root_at_most :
  exists self,
    snd (__init__ json_loads env st meta_path) = Ok self /\
    store self = st /\
    List.length (root_rows target (df_sbomdb self)) <= 1 /\
    (root_rows target (df_sbomdb self) <> [] <->
     exists l, In l (rows inv) /\ path_of l = PStr target) /\
    forall env' cdx_path uuid4 cdx,
      to_cdx env' self cdx_path uuid4 = ([JsonFile cdx cdx_path], Ok tt) ->
      exists cs,
        doc_components cdx = Some cs /\
        List.length (rows (df_sbomdb self)) <= S (List.length cs) /\
        (doc_root cdx <> None <->
         exists l, In l (rows inv) /\ path_of l = PStr target).
Proof.
  eexists. split.
  { unfold __init__. rewrite snd_io_bind.
    rewrite (generate_rows json_loads env st meta_path df_meta
               inv_wf inv_paths labels meta_loaded meta_keys meta_dump).
    reflexivity. }
  cbn [store df_sbomdb]. split; [reflexivity|].
  assert (Hone : List.length
                   (root_rows target
                      {| columns := canonical_columns inv df_meta;
                         rows := map (canonical_row inv df_meta)
                                     (kept_rows inv) |}) <= 1).
  { unfold root_rows. cbn [rows]. apply one_root_at_most.
    exact (canonical_paths_NoDup json_loads env st meta_path df_meta
             inv_paths labels meta_loaded meta_keys meta_dump). }
  split; [exact Hone|]. split; [exact root_row_iff|].
  intros env' cdx_path uuid4 cdx Hw.
  destruct (to_cdx_written _ _ _ _ _ Hw) as (comps & Hc & ->).
  cbn [store df_sbomdb rows] in *.
  destruct (placed_lengths target _ _ (mapM_length _ _ _ Hc)) as [Hsum Hroot].
  eexists. split; [reflexivity|]. split.
  - unfold root_rows in Hone. cbn [rows] in Hone. lia.
  - rewrite doc_root_document, <- root_row_iff, Hroot. reflexivity.
Qed.

End InventoryToDocument.

(** * The further properties on the example inputs *)

Lemma merge_never_grows_witness :
  exists canon,
    snd (_generate_sbomdb json_loads_ex env_ex store_dup (Some "meta.json")) =
      Ok canon /\
    List.length (rows canon) <= 3 /\
    rows canon <> [].
Proof.
  destruct (merge_never_grows json_loads_ex env_ex store_dup
              (Some "meta.json") (Some table_catalog)
              store_dup_wf eq_refl eq_refl eq_refl
              catalog_keys_dup (fun _ => eq_refl))
    as (canon & Hc & Hlen & Hne).
  exists canon. split; [exact Hc|]. split; [exact Hlen|].
  apply Hne. discriminate.
Defined.

Lemma merge_frame_shape_witness :
  exists canon,
    snd (_generate_sbomdb json_loads_ex env_ex store_dup (Some "meta.json")) =
      Ok canon /\
    wf canon /\
    columns canon =
      ["store_path"; "name"; "pname"; "version"; "cpe"; "nixpkgs";
       "pname_meta"; "version_meta"; "meta_homepage"; "meta_position";
       "meta_license_short"; "meta_license_spdxid";
       "meta_maintainers_email"].
Proof.
  apply (merge_frame_shape json_loads_ex env_ex store_dup
           (Some "meta.json") (Some table_catalog)
           store_dup_wf eq_refl eq_refl eq_refl
           catalog_keys_dup (fun _ => eq_refl)).
  discriminate.
Defined.

Lemma merge_keeps_inventory_cells_witness :
  exists canon kept,
    snd (_generate_sbomdb json_loads_ex env_ex store_dup (Some "meta.json")) =
      Ok canon /\
    subseq kept [row_foo; row_foo_again; row_bar] /\
    Forall2 (fun l r =>
               forall c, In c inventory_columns ->
                 cell r c = if isna (cell l c) then PStr "" else cell l c)
            kept (rows canon).
Proof.
  exact (merge_keeps_inventory_cells json_loads_ex env_ex store_dup
           (Some "meta.json") (Some table_catalog)
           store_dup_wf eq_refl eq_refl eq_refl
           catalog_keys_dup (fun _ => eq_refl)).
Defined.

Lemma merge_result_is_fixed_witness :
  exists canon,
    snd (_generate_sbomdb json_loads_ex env_ex store_dup (Some "meta.json")) =
      Ok canon /\
    drop_duplicates "store_path" (replace_nan (PStr "") canon) = Ok canon.
Proof.
  exact (merge_result_is_fixed json_loads_ex env_ex store_dup
           (Some "meta.json") (Some table_catalog)
           store_dup_wf eq_refl eq_refl eq_refl
           catalog_keys_dup (fun _ => eq_refl)).
Defined.


Lemma catalog_licenses_reach_the_record_witness :
  exists canon r,
    snd (_generate_sbomdb json_loads_ex env_ex store_dup (Some "meta.json")) =
      Ok canon /\
    In r (rows canon) /\
    path_of r = PStr "/nix/store/aaa-foo-1.0" /\
    _licenses_entry_from_row r "meta_license_short" "name" =
      Ok [license_entry "MIT"; license_entry "GPL"].
Proof.
  refine (catalog_licenses_reach_the_record json_loads_ex env_ex
            store_dup (Some "meta.json") (Some table_catalog)
            store_dup_wf eq_refl eq_refl eq_refl
            catalog_keys_dup (fun _ => eq_refl)
            table_catalog row_foo [] [row_foo_again; row_bar]
            (nth 0 (as_dict json_catalog) ("", PNone))
            [] (tl (rows table_catalog)) _ _ _ _ _ _ _ _).
  - reflexivity.
  - reflexivity.
  - constructor.
  - reflexivity.
  - constructor.
  - reflexivity.
  - reflexivity.
  - repeat constructor.
Defined.

Lemma join_then_split_gives_the_names_witness :
  _licenses_entry_from_row row_two_licenses "meta_license_short" "name" =
  Ok [license_entry "MIT"; license_entry "GPL"].
Proof.
  refine (join_then_split_gives_the_names
            (PList [PDict [("shortName", PStr "MIT")]; PStr "GPL"])
            "shortName" "MIT;GPL" row_two_licenses
            "meta_license_short" "name" _ _ _).
  - reflexivity.
  - intros s H. vm_compute in H.
    destruct H as [H|[H|[]]]; injection H as <-; reflexivity.
  - reflexivity.
Defined.

Lemma licence_entries_rebuild_the_cell_witness :
  exists segs,
    _licenses_entry_from_row row_empty_segment "meta_license_short" "name" =
      Ok (map license_entry segs) /\
    String.concat ";" segs = "MIT;;GPL" /\
    List.length segs = 3.
Proof.
  destruct (licence_entries_rebuild_the_cell row_empty_segment
              "meta_license_short" "name" "MIT;;GPL" eq_refl)
    as (segs & Hl & Hc & _ & Hn).
  exists segs. split; [exact Hl|]. split; [exact Hc|].
  apply Hn. discriminate.
Defined.

Lemma projection_reads_five_cells_witness :
  _df_row_to_cdx_component row_foo = _df_row_to_cdx_component row_foo_wide.
Proof.
  apply projection_reads_five_cells. repeat constructor.
Defined.

Lemma projection_errors_witness :
  _df_row_to_cdx_component [("store_path", PStr "/nix/store/ddd-source")] =
    Raise AttributeError /\
  _df_row_to_cdx_component row_no_pname = Raise ValueError.
Proof.
  split.
  - apply (proj1 (projection_errors _)). right. left. reflexivity.
  - apply (proj1 (proj2 (projection_errors row_no_pname)
                    (PStr "/nix/store/ddd-source") (PStr "") (PStr "")
                    eq_refl eq_refl eq_refl)).
    reflexivity.
Defined.

Lemma bare_values_ignore_the_key_witness :
  _parse_meta_entry (PList [PStr "MIT"; PStr "GPL"]) "shortName" =
  _parse_meta_entry (PList [PStr "MIT"; PStr "GPL"]) "spdxId".
Proof.
  apply bare_values_ignore_the_key.
  - intros d. discriminate.
  - intros l [= <-].
    constructor; [intros d; discriminate|].
    constructor; [intros d; discriminate | constructor].
Defined.

Lemma loader_stops_at_the_first_unreadable_entry_witness :
  _parse_json_metadata
    (fun _ => Some (PDict [("a", PDict [("name", PStr "foo-1.0")]);
                           ("b", PInt 1);
                           ("c", PDict [("meta", PInt 2)])]))
    read_file_ex "meta.json" = Raise AttributeError.
Proof.
  refine (loader_stops_at_the_first_unreadable_entry
            _ read_file_ex "meta.json" text_catalog
            [("a", PDict [("name", PStr "foo-1.0")])]
            [("c", PDict [("meta", PInt 2)])] ("b", PInt 1) _ _ _ _).
  - vm_compute. reflexivity.
  - reflexivity.
  - repeat constructor.
  - reflexivity.
Defined.

Lemma loader_table_shape_witness :
  wf table_catalog /\
  (columns table_catalog = meta_columns \/
   (columns table_catalog = [] /\ rows table_catalog = [])) /\
  Forall (fun r =>
            is_text (cell r "nixpkgs") = true /\
            is_text (cell r "meta_license_short") = true /\
            is_text (cell r "meta_license_spdxid") = true /\
            is_text (cell r "meta_maintainers_email") = true)
         (rows table_catalog).
Proof.
  apply (loader_table_shape json_loads_ex read_file_ex "meta.json").
  vm_compute. reflexivity.
Defined.

Lemma empty_catalog_is_rejected_witness :
  snd (_generate_sbomdb json_loads_ex env_ex store_three (Some "empty.json")) =
  Raise KeyError.
Proof.
  apply (proj2 (empty_catalog_is_rejected json_loads_ex env_ex store_three
                  "empty.json" "{}" eq_refl eq_refl)).
  reflexivity.
Defined.

Lemma missing_columns_of_the_merge_witness :
  snd (_generate_sbomdb json_loads_ex env_ex store_no_name
         (Some "meta.json")) = Raise KeyError /\
  snd (_generate_sbomdb json_loads_ex env_ex store_empty None) =
    Ok (to_dataframe store_empty) /\
  snd (_generate_sbomdb json_loads_ex env_ex store_no_path None) =
    Raise KeyError.
Proof.
  split; [|split].
  - apply (proj1 (missing_columns_of_the_merge json_loads_ex env_ex
                    store_no_name (Some "meta.json") (Some table_catalog)
                    eq_refl (fun _ => eq_refl)) table_catalog eq_refl).
    reflexivity.
  - apply (proj1 (proj2 (missing_columns_of_the_merge json_loads_ex env_ex
                           store_empty None None eq_refl (fun _ => eq_refl))));
      reflexivity.
  - apply (proj2 (proj2 (missing_columns_of_the_merge json_loads_ex env_ex
                           store_no_path None None eq_refl
                           (fun _ => eq_refl))));
      [reflexivity | discriminate | discriminate | reflexivity].
Defined.

Lemma merge_writes_only_the_debug_dump_witness :
  fst (_generate_sbomdb json_loads_ex env_ex store_three (Some "meta.json")) =
    [] /\
  fst (_generate_sbomdb json_loads_ex env_debug store_three
         (Some "meta.json")) = [CsvFile table_catalog "meta.csv"] /\
  _generate_sbomdb json_loads_ex env_read_only store_three
    (Some "meta.json") = ([], Raise OSError).
Proof.
  split; [|split].
  - apply (proj1 (proj2 (merge_writes_only_the_debug_dump json_loads_ex
                           env_ex store_three (Some "meta.json")))).
    reflexivity.
  - apply (proj2 (proj2 (proj2 (merge_writes_only_the_debug_dump
                                  json_loads_ex env_debug store_three
                                  (Some "meta.json")))) table_catalog).
    + vm_compute. reflexivity.
    + discriminate.
  - apply (proj2 (proj2 (proj2 (merge_writes_only_the_debug_dump
                                  json_loads_ex env_read_only store_three
                                  (Some "meta.json")))) table_catalog).
    + vm_compute. reflexivity.
    + discriminate.
Defined.

Lemma to_cdx_writes_all_or_nothing_witness :
  to_cdx env_ex sbomdb_no_pname "sbom.cdx.json"
    "8f0e2f2a-0000-4000-8000-000000000000" = ([], Raise ValueError) /\
  to_cdx env_read_only sbomdb_three "sbom.cdx.json"
    "8f0e2f2a-0000-4000-8000-000000000000" = ([], Raise OSError).
Proof.
  split.
  - apply (proj1 (proj2 (to_cdx_writes_all_or_nothing env_ex sbomdb_no_pname
                           "sbom.cdx.json"
                           "8f0e2f2a-0000-4000-8000-000000000000"))
             [norm row_foo] row_no_pname [norm row_hook]).
    + reflexivity.
    + constructor; [|constructor]. eexists. vm_compute. reflexivity.
    + vm_compute. reflexivity.
  - apply (proj2 (proj2 (to_cdx_writes_all_or_nothing env_read_only
                           sbomdb_three "sbom.cdx.json"
                           "8f0e2f2a-0000-4000-8000-000000000000"))
             components_three).
    + vm_compute. reflexivity.
    + reflexivity.
Defined.

Lemma document_header_witness :
  exists cdx,
    to_cdx env_ex sbomdb_three "sbom.cdx.json"
      "8f0e2f2a-0000-4000-8000-000000000000" =
      ([JsonFile cdx "sbom.cdx.json"], Ok tt) /\
    map fst cdx =
      ["bomFormat"; "specVersion"; "version"; "serialNumber"; "metadata";
       "components"] /\
    lookup "serialNumber" cdx =
      Some (PStr "urn:uuid:8f0e2f2a-0000-4000-8000-000000000000").
Proof.
  eexists. split; [vm_compute; reflexivity|].
  destruct (document_header env_ex sbomdb_three "sbom.cdx.json"
              "8f0e2f2a-0000-4000-8000-000000000000" _ eq_refl)
    as (Hkeys & _ & _ & _ & Hserial & _).
  split; [exact Hkeys | exact Hserial].
Defined.

Lemma every_row_is_placed_witness :
  exists cdx cs,
    to_cdx env_ex sbomdb_three "sbom.cdx.json"
      "8f0e2f2a-0000-4000-8000-000000000000" =
      ([JsonFile cdx "sbom.cdx.json"], Ok tt) /\
    doc_components cdx = Some cs /\
    List.length cs + 1 = 3.
Proof.
  eexists.
  assert (Hw : to_cdx env_ex sbomdb_three "sbom.cdx.json"
                 "8f0e2f2a-0000-4000-8000-000000000000" =
               ([JsonFile _ "sbom.cdx.json"], Ok tt))
    by (vm_compute; reflexivity).
  destruct (every_row_is_placed _ _ _ _ _ Hw) as (cs & Hcs & Hsum & _).
  exists cs. split; [exact Hw|]. split; [exact Hcs | exact Hsum].
Defined.

Lemma uuid_reaches_the_serial_number_only_witness :
  exists cdx,
    to_cdx env_ex sbomdb_three "sbom.cdx.json"
      "8f0e2f2a-0000-4000-8000-000000000000" =
      ([JsonFile cdx "sbom.cdx.json"], Ok tt) /\
    to_cdx env_ex sbomdb_three "sbom.cdx.json"
      "11111111-2222-4333-8444-555555555555" =
      ([JsonFile
          (setitem "serialNumber"
             (PStr "urn:uuid:11111111-2222-4333-8444-555555555555") cdx)
          "sbom.cdx.json"], Ok tt).
Proof.
  eexists.
  assert (Hw : to_cdx env_ex sbomdb_three "sbom.cdx.json"
                 "8f0e2f2a-0000-4000-8000-000000000000" =
               ([JsonFile _ "sbom.cdx.json"], Ok tt))
    by (vm_compute; reflexivity).
  split; [exact Hw|].
  exact (uuid_reaches_the_serial_number_only env_ex sbomdb_three
           "sbom.cdx.json" "8f0e2f2a-0000-4000-8000-000000000000"
           "11111111-2222-4333-8444-555555555555" _ Hw).
Defined.

Lemma built_database_has_one_root_at_most_witness :
  exists self,
    snd (__init__ json_loads_ex env_ex store_three (Some "meta.json")) =
      Ok self /\
    List.length (root_rows "/nix/store/bbb-bar-2.1" (df_sbomdb self)) <= 1 /\
    root_rows "/nix/store/bbb-bar-2.1" (df_sbomdb self) <> [].
Proof.
  destruct (built_database_has_one_root_at_most json_loads_ex env_ex
              store_three (Some "meta.json") (Some table_catalog)
              store_three_wf eq_refl eq_refl eq_refl
              catalog_keys_three (fun _ => eq_refl))
    as (self & Hs & _ & Hone & Hiff & _).
  exists self. split; [exact Hs|]. split; [exact Hone|].
  apply Hiff. exists row_bar. split; [|reflexivity].
  right. left. reflexivity.
Defined.

